(** * OpenPayAI on Tempo: the settlement core and the licensing ledger

    A shallow embedding of
    - [agent/agent.js]    (class [OpenPayAIAgent], the payment orchestrator),
    - [backend/server.js] (the in-memory licensing backend), and
    - the Solidity contract [OpenPayAITempo],
    together with the properties the specification states about them.

    JavaScript [BigInt]s are [Z]; JavaScript strings are [string]s whose
    characters are single bytes (for ASCII text the UTF-16 code units that
    [slice] counts and the UTF-8 bytes that [stringToHex] emits coincide);
    [Map]s are [gmap]s; a call that can [throw] returns a [result]. *)

From Stdlib Require Import ZArith String Ascii List Bool Lia.
From Stdlib Require Import DecimalString DecimalZ DecimalPos.
From stdpp Require Import base gmap strings list.

Local Open Scope string_scope.
Local Open Scope Z_scope.

(** ** Calls that may throw *)

(** The errors the agent raises or lets through, by their message. *)
Inductive error :=
| SizeExceedsPaddingSizeError        (* viem's [pad] *)
| ContentNotFound                    (* 'Content not found' *)
| PriceExceedsMax (price max : Z)    (* 'Price $.. exceeds max $..' *)
| DailyLimitExceeded                 (* 'Daily spending limit would be exceeded' *)
| BatchLimitExceeded                 (* 'Batch would exceed daily spending limit' *)
| BatchTransactionFailed             (* 'Batch transaction failed' *)
| RailError (reason : string)        (* the payment rail rejected a submission *)
| HttpError (code : nat).            (* axios on a non-2xx answer *)

Inductive result (A : Type) : Type :=
| Ok (a : A)
| Throw (e : error).
Arguments Ok {A} a.
Arguments Throw {A} e.

Definition is_ok {A} (r : result A) : bool :=
  match r with Ok _ => true | Throw _ => false end.

(** ** The part of [viem] the agent uses *)

Module Viem.

Definition hex_digits : list ascii :=
  list_ascii_of_string "0123456789abcdef".

Definition hex_digit (n : nat) : ascii := nth n hex_digits "0"%char.

Definition byte_to_hex (c : ascii) : string :=
  let n := nat_of_ascii c in
  String (hex_digit (n / 16)) (String (hex_digit (n mod 16)) EmptyString).

Fixpoint bytesToHex (s : string) : string :=
  match s with
  | EmptyString => EmptyString
  | String c s' => byte_to_hex c ++ bytesToHex s'
  end.

(** [stringToHex(value)]: the bytes of [value], hex-encoded, after ["0x"];
    without a [size] option nothing is padded. *)
Definition stringToHex (value : string) : string := "0x" ++ bytesToHex value.

(** [String.prototype.replace(pat, '')] with a string pattern: the first
    occurrence of [pat] is removed. *)
Fixpoint replace_first (pat s : string) : string :=
  if String.prefix pat s then
    String.substring (String.length pat) (String.length s) s
  else
    match s with
    | EmptyString => EmptyString
    | String c s' => String c (replace_first pat s')
    end.

Fixpoint repeat_char (c : ascii) (n : nat) : string :=
  match n with
  | O => EmptyString
  | S n' => String c (repeat_char c n')
  end.

(** [String.prototype.padStart(n, '0')]. *)
Definition padStart (n : nat) (s : string) : string :=
  repeat_char "0"%char (n - String.length s) ++ s.

(** [pad(hex, { size })] on a hex string ([padHex], default direction
    left): a value longer than [size] bytes raises
    [SizeExceedsPaddingSizeError]. *)
Definition pad (hex_ : string) (size : nat) : result string :=
  let hex := replace_first "0x" hex_ in
  if (size * 2 <? String.length hex)%nat
  then Throw SizeExceedsPaddingSizeError
  else Ok ("0x" ++ padStart (size * 2) hex).

End Viem.

(** Decimal rendering of an integer, as a template literal prints it. *)
Definition dec (z : Z) : string := NilZero.string_of_int (Z.to_int z).

(** [s.slice(0, n)]. *)
Definition slice0 (n : nat) (s : string) : string := String.substring 0 n s.

(** ** Tracking tags *)

Module Memo.

Definition memoStr (contentHash : string) (timestamp : Z) (index : nat)
  : string :=
  "LICENSE:" ++ slice0 20 contentHash ++ ":" ++ dec timestamp ++ ":"
    ++ dec (Z.of_nat index).

(** [_encodeMemo(contentHash, timestamp, index = 0)]. *)
Definition _encodeMemo (contentHash : string) (timestamp : Z) (index : nat)
  : result string :=
  Viem.pad (Viem.stringToHex (slice0 64 (memoStr contentHash timestamp index)))
           32.

End Memo.

(** ** The licensing backend ([backend/server.js]) *)

(** An HTTP response: a 2xx JSON body, or an error status. *)
Inductive http (A : Type) : Type :=
| Json (a : A)
| Status (code : nat) (error : string).
Arguments Json {A} a.
Arguments Status {A} code error.

(** 30 days and one day, in milliseconds. *)
Definition thirtyDays : Z := 30 * 24 * 60 * 60 * 1000.
Definition oneDay : Z := 24 * 60 * 60 * 1000.

Module Server.

Record ContentEntry := {
  contentHash : string;
  price : Z;
  contentOwner : string;
  contentURI : string;
  active : bool;
  totalRevenue : Z;
  accessCount : Z;
  createdAt : Z
}.

Record License := {
  lic_agentAddress : string;
  lic_contentHash : string;
  lic_txHash : string;
  lic_memo : string;
  pricePaid : Z;
  expiry : Z;
  lic_createdAt : Z
}.

(** [contentRegistry] and [global.licenses]; the latter is [undefined]
    until the first license is stored. *)
Record State := {
  contentRegistry : gmap string ContentEntry;
  licenses : option (gmap string License)
}.

Definition empty : State := {| contentRegistry := ∅; licenses := None |}.

(** A [price] field of a JSON body: absent, a number, or a numeric
    string. [!price] holds of an absent field and of the number 0 only
    (a non-empty string is truthy); [BigInt(price)] is the integer. *)
Inductive jsprice := PMissing | PNumber (n : Z) | PString (n : Z).

Definition price_falsy (p : jsprice) : bool :=
  match p with
  | PMissing => true
  | PNumber n => n =? 0
  | PString _ => false
  end.

Definition price_BigInt (p : jsprice) : Z :=
  match p with PMissing => 0 | PNumber n => n | PString n => n end.

(** String fields of a body: an absent field and [""] are both falsy. *)
Definition falsy (s : string) : bool := String.eqb s "".

Record RegisterBody := {
  rb_contentHash : string;
  rb_price : jsprice;
  rb_contentURI : string;
  rb_ownerAddress : string
}.

(** [POST /api/content/register]. *)
Definition register (now : Z) (body : RegisterBody) (st : State)
  : State * http ContentEntry :=
  if falsy (rb_contentHash body) || price_falsy (rb_price body)
     || falsy (rb_contentURI body) || falsy (rb_ownerAddress body)
  then (st, Status 400 "Missing required fields")
  else
    let entry := {|
      contentHash := rb_contentHash body;
      price := price_BigInt (rb_price body);
      contentOwner := rb_ownerAddress body;
      contentURI := rb_contentURI body;
      active := true;
      totalRevenue := 0;
      accessCount := 0;
      createdAt := now |} in
    ({| contentRegistry := <[rb_contentHash body := entry]> (contentRegistry st);
        licenses := licenses st |},
     Json entry).

(** [GET /api/content/:contentHash]; the route matches a non-empty
    [contentHash] only. *)
Definition get_content (hash : string) (st : State) : http ContentEntry :=
  if falsy hash then Status 404 "Not Found"
  else
    match contentRegistry st !! hash with
    | None => Status 404 "Content not found"
    | Some content => Json content
    end.

Definition licenseKey (agentAddress hash : string) : string :=
  agentAddress ++ "-" ++ hash.

Definition store_license (key : string) (l : License) (st : State) : State :=
  {| contentRegistry := contentRegistry st;
     licenses := Some (<[key := l]> (default ∅ (licenses st))) |}.

Definition set_content (hash : string) (c : ContentEntry) (st : State)
  : State :=
  {| contentRegistry := <[hash := c]> (contentRegistry st);
     licenses := licenses st |}.

Record BuyBody := {
  bb_contentHash : string;
  bb_agentAddress : string;
  bb_txHash : string;
  bb_memo : string
}.

(** [POST /api/license/buy]. [now] is the reading of the clock that
    stamps [expiry]; the source stamps [createdAt] with a reading of its
    own, taken here at the same instant. *)
Definition license_buy (now : Z) (body : BuyBody) (st : State)
  : State * http License :=
  if falsy (bb_contentHash body) || falsy (bb_agentAddress body)
     || falsy (bb_txHash body)
  then (st, Status 400 "Missing required fields")
  else
    match contentRegistry st !! bb_contentHash body with
    | None => (st, Status 404 "Content not found")
    | Some content =>
        let license := {|
          lic_agentAddress := bb_agentAddress body;
          lic_contentHash := bb_contentHash body;
          lic_txHash := bb_txHash body;
          lic_memo := bb_memo body;
          pricePaid := price content;
          expiry := now + thirtyDays;
          lic_createdAt := now |} in
        let st1 :=
          store_license
            (licenseKey (bb_agentAddress body) (bb_contentHash body))
            license st in
        let content' := {|
          contentHash := contentHash content;
          price := price content;
          contentOwner := contentOwner content;
          contentURI := contentURI content;
          active := active content;
          totalRevenue := totalRevenue content + price content;
          accessCount := accessCount content + 1;
          createdAt := createdAt content |} in
        (set_content (bb_contentHash body) content' st1, Json license)
    end.

Record BatchBody := {
  tb_contentHashes : list string;
  tb_agentAddress : string;
  tb_txHash : string
}.

Record BatchItem := { bi_contentHash : string; bi_success : bool }.

Record BatchResponse := {
  totalItems : nat;
  totalPrice : Z;
  results : list BatchItem
}.

(** One turn of the loop of [POST /api/license/batch]. [now] stamps
    [expiry]; [createdAt] has a reading of the clock of its own in the
    source, taken here at the same instant. *)
Definition batch_item (now : Z) (agentAddress txHash hash : string)
    (acc : State * Z * list BatchItem) : State * Z * list BatchItem :=
  let '(st, total, res) := acc in
  match contentRegistry st !! hash with
  | Some content =>
      let license := {|
        lic_agentAddress := agentAddress;
        lic_contentHash := hash;
        lic_txHash := txHash;
        lic_memo := "";
        pricePaid := price content;
        expiry := now + thirtyDays;
        lic_createdAt := now |} in
      let st1 := store_license (licenseKey agentAddress hash) license st in
      let content' := {|
        contentHash := contentHash content;
        price := price content;
        contentOwner := contentOwner content;
        contentURI := contentURI content;
        active := active content;
        totalRevenue := totalRevenue content + price content;
        accessCount := accessCount content;
        createdAt := createdAt content |} in
      (set_content hash content' st1, total + price content,
       (res ++ [{| bi_contentHash := hash; bi_success := true |}])%list)
  | None =>
      (st, total,
       (res ++ [{| bi_contentHash := hash; bi_success := false |}])%list)
  end.

(** [POST /api/license/batch]. *)
Definition license_batch (now : Z) (body : BatchBody) (st : State)
  : State * http BatchResponse :=
  match tb_contentHashes body with
  | [] => (st, Status 400 "Invalid content hashes")
  | _ =>
      if falsy (tb_agentAddress body) || falsy (tb_txHash body)
      then (st, Status 400 "Missing agent address or tx hash")
      else
        let '(st', total, res) :=
          fold_left
            (fun acc hash =>
               batch_item now (tb_agentAddress body) (tb_txHash body) hash acc)
            (tb_contentHashes body) (st, 0, []) in
        (st', Json {| totalItems := length (tb_contentHashes body);
                      totalPrice := total;
                      results := res |})
  end.

(** The license stored for a holder and a fingerprint, if any. *)
Definition stored_license (agentAddress hash : string) (st : State)
  : option License :=
  match licenses st with
  | None => None
  | Some m => m !! licenseKey agentAddress hash
  end.

(** [checkLicense(agentAddress, contentHash)]. *)
Definition checkLicense (now : Z) (agentAddress hash : string) (st : State)
  : option License :=
  match licenses st with
  | None => None
  | Some m =>
      match m !! licenseKey agentAddress hash with
      | Some license => if now <? expiry license then Some license else None
      | None => None
      end
  end.

(** [GET /api/license/check]: the [hasLicense] field of the answer. *)
Definition license_check (now : Z) (agentAddress hash : string) (st : State)
  : http bool :=
  if falsy agentAddress || falsy hash
  then Status 400 "Missing agent address or content hash"
  else Json (bool_decide (is_Some (checkLicense now agentAddress hash st))).

(** *** Access to content

    [POST /api/content/:contentHash/access], behind [checkAICrawler]. *)

(** [s.includes(pat)]. *)
Definition includes (pat s : string) : bool :=
  bool_decide (is_Some (String.index 0 pat s)).

(** [checkAICrawler]: what the [User-Agent] header says of the caller; an
    absent header reads as [""]. *)
Definition isAICrawler (userAgent : string) : bool :=
  includes "AI-Agent-Crawler" userAgent
  || includes "Bot" userAgent
  || includes "Crawler" userAgent.

(** A [timestamp] field of a JSON body: absent, a number, or a non-empty
    string that [parseInt] reads as an integer or as [NaN]. *)
Inductive jstimestamp :=
| TMissing
| TNumber (n : Z)
| TString (n : option Z).

Definition timestamp_falsy (t : jstimestamp) : bool :=
  match t with
  | TMissing => true
  | TNumber n => n =? 0
  | TString _ => false
  end.

(** [parseInt(timestamp)]; [None] is [NaN]. *)
Definition parseInt (t : jstimestamp) : option Z :=
  match t with
  | TMissing => None
  | TNumber n => Some n
  | TString n => n
  end.

(** [Math.abs(now - parseInt(timestamp)) > 300]; a comparison with [NaN]
    is false. *)
Definition signature_expired (now_s : Z) (t : jstimestamp) : bool :=
  match parseInt t with
  | Some n => 300 <? Z.abs (now_s - n)
  | None => false
  end.

Record AccessBody := {
  ab_agentAddress : string;
  ab_signature : string;
  ab_timestamp : jstimestamp
}.

Record AccessLog := {
  al_contentHash : string;
  al_agentAddress : string;
  al_timestamp : Z
}.

(** The instructions a 402 answer carries. *)
Record PaymentInstructions := {
  pi_token : string;
  pi_amount : Z;
  pi_to : string;
  pi_memoFormat : string
}.

Inductive AccessAnswer :=
| Allowed (reason contentURI_ : string) (licenseExpiry : option Z)
| PaymentRequired (code : string) (price_ : Z)
    (paymentInstructions : option PaymentInstructions)
| Refused (status : nat) (code : string).

Definition count_access (hash : string) (content : ContentEntry) (st : State)
  : State :=
  set_content hash
    {| contentHash := contentHash content;
       price := price content;
       contentOwner := contentOwner content;
       contentURI := contentURI content;
       active := active content;
       totalRevenue := totalRevenue content;
       accessCount := accessCount content + 1;
       createdAt := createdAt content |} st.

(** The route; [now] is [Date.now()], [logs] is [accessLogs]. The route
    matches a non-empty [contentHash] only. *)
Definition access (now : Z) (userAgent hash : string) (body : AccessBody)
    (st : State) (logs : list AccessLog)
  : State * list AccessLog * AccessAnswer :=
  if falsy hash then (st, logs, Refused 404 "") else
  match contentRegistry st !! hash with
  | None => (st, logs, Refused 404 "CONTENT_NOT_FOUND")
  | Some content =>
      if negb (active content)
      then (st, logs, Refused 403 "CONTENT_INACTIVE")
      else if negb (isAICrawler userAgent)
      then (st, logs, Allowed "Regular user access" (contentURI content) None)
      else if falsy (ab_agentAddress body)
      then (st, logs, PaymentRequired "PAYMENT_REQUIRED" (price content) None)
      else
        let required :=
          PaymentRequired "LICENSE_REQUIRED" (price content)
            (Some {| pi_token := "0x20c0000000000000000000000000000000000001";
                     pi_amount := price content;
                     pi_to := contentOwner content;
                     pi_memoFormat := "LICENSE:" ++ hash ++ ":" ++ dec now |}) in
        if negb (falsy (ab_signature body))
           && negb (timestamp_falsy (ab_timestamp body))
        then
          if signature_expired (now / 1000) (ab_timestamp body)
          then (st, logs, Refused 403 "SIGNATURE_EXPIRED")
          else
            match checkLicense now (ab_agentAddress body) hash st with
            | Some license =>
                (count_access hash content st,
                 (logs ++ [{| al_contentHash := hash;
                              al_agentAddress := ab_agentAddress body;
                              al_timestamp := now |}])%list,
                 Allowed "Valid license" (contentURI content)
                   (Some (expiry license)))
            | None => (st, logs, required)
            end
        else (st, logs, required)
  end.

(** *** Statistics *)

(** [contents.reduce((sum, c) => sum + f(c), 0)] over the values of the
    registry. *)
Definition sum_over (f : ContentEntry -> Z) (m : gmap string ContentEntry)
  : Z :=
  map_fold (fun _ c sum => sum + f c) 0 m.

Record Overview := {
  totalContent : nat;
  activeContent : nat;
  ov_totalRevenue : Z;
  totalAccesses : Z;
  avgPrice : Z
}.

(** [GET /api/analytics/overview]; a BigInt division truncates. *)
Definition analytics (st : State) : Overview :=
  let contents := contentRegistry st in
  {| totalContent := size contents;
     activeContent := size (filter (fun kc => active kc.2 = true) contents);
     ov_totalRevenue := sum_over totalRevenue contents;
     totalAccesses := sum_over accessCount contents;
     avgPrice := if (0 <? size contents)%nat
                 then Z.quot (sum_over price contents) (Z.of_nat (size contents))
                 else 0 |}.

(** *** What the properties of the backend speak of *)

(** No ['-'] in a string. *)
Fixpoint dash_free (s : string) : bool :=
  match s with
  | EmptyString => true
  | String c s' => negb (Ascii.eqb c "-") && dash_free s'
  end.

(** The state is coherent: an entry sits under its own fingerprint and is
    active; a license sits under the key of its holder and fingerprint,
    for a registered fingerprint. *)
Definition coherent (st : State) : Prop :=
  (forall h c, contentRegistry st !! h = Some c ->
               contentHash c = h /\ h <> "" /\ active c = true)
  /\ (forall k l, default ∅ (licenses st) !! k = Some l ->
                  k = licenseKey (lic_agentAddress l) (lic_contentHash l)
                  /\ lic_agentAddress l <> ""
                  /\ is_Some (contentRegistry st !! lic_contentHash l)).

(** A crawler's call that carries an address, a signature, a timestamp
    that is within 300 seconds of the clock or that [parseInt] does not
    read as a number, and a license in force. *)
Definition licensed_call (now : Z) (hash : string) (body : AccessBody)
    (st : State) : bool :=
  negb (falsy (ab_agentAddress body))
  && negb (falsy (ab_signature body))
  && negb (timestamp_falsy (ab_timestamp body))
  && negb (signature_expired (now / 1000) (ab_timestamp body))
  && bool_decide (is_Some (checkLicense now (ab_agentAddress body) hash st)).

(** The price of a fingerprint, 0 if it is not registered. *)
Definition price_or_zero (st : State) (hash : string) : Z :=
  default 0 (price <$> contentRegistry st !! hash).

Definition registered (st : State) (hash : string) : bool :=
  bool_decide (is_Some (contentRegistry st !! hash)).

(** *** Requests, one after another *)

Inductive Request :=
| Register (body : RegisterBody)
| Buy (body : BuyBody)
| BuyBatch (body : BatchBody)
| Access (userAgent hash : string) (body : AccessBody).

(** What a request leaves of the state, at time [now]. *)
Definition handle (now : Z) (r : Request) (st : State) : State :=
  match r with
  | Register body => (register now body st).1
  | Buy body => (license_buy now body st).1
  | BuyBatch body => (license_batch now body st).1
  | Access userAgent hash body => (access now userAgent hash body st []).1.1
  end.

(** Requests served in order, each at its own time. *)
Definition serve (reqs : list (Z * Request)) (st : State) : State :=
  fold_left (fun st r => handle r.1 r.2 st) reqs st.

End Server.

(** ** The payment rail

    The rail is external: it is a parameter of the agent. What it answers
    may depend on everything submitted to it so far. *)

Record TransferRequest := {
  to : string;
  amount : Z;
  token : string;
  memo : string;
  feePayer : bool;
  nonceKey : option nat
}.

Record Receipt := {
  transactionHash : string;
  blockNumber : Z;
  status_success : bool          (* [receipt.status === 'success'] *)
}.

Record Call := { call_to : string; data : string }.

Inductive Submission :=
| Transfer (r : TransferRequest)
| Batch (calls : list Call) (sponsored : bool).

Record Rail := {
  (** [client.token.transferSync]: a receipt, or a rejection. *)
  transferSync : list Submission -> TransferRequest -> result Receipt;
  (** [client.sendTransaction({ calls, feePayer })]: the transaction hash. *)
  sendTransaction : list Submission -> list Call -> bool -> result string;
  (** [client.waitForTransactionReceipt({ hash })]. *)
  waitForTransactionReceipt : list Submission -> string -> result Receipt
}.

Definition alphaUsd : string := "0x20c0000000000000000000000000000000000001".

(** ** The paying agent ([agent/agent.js]) *)

Module Agent.

Record Config := {
  maxPricePerItem : Z;
  dailySpendingLimit : Z;
  useFeeSponsorship : bool;
  enableBatching : bool;
  enableParallel : bool
}.

(** An entry of [purchaseHistory]; [price] is kept as the integer that
    [price.toString()] prints. *)
Record Purchase := {
  contentHash : string;
  price : Z;
  txHash : string;
  timestamp : Z;
  p_blockNumber : option Z;
  p_memo : string
}.

Record State := {
  address : string;
  config : Config;
  spentToday : Z;
  lastReset : Z;
  purchaseHistory : list Purchase
}.

Record Options := {
  o_maxPricePerItem : option Z;
  o_dailySpendingLimit : option Z;
  o_useFeeSponsorship : option bool;
  o_enableBatching : option bool;
  o_enableParallel : option bool
}.

(** [options.x || d] on BigInts: an absent option and [0n] are falsy. *)
Definition or_default (o : option Z) (d : Z) : Z :=
  match o with
  | Some v => if v =? 0 then d else v
  | None => d
  end.

(** [options.x !== false]. *)
Definition not_false (o : option bool) : bool :=
  match o with Some false => false | _ => true end.

(** The constructor, for the account at [addr], at time [now]. *)
Definition new (addr : string) (now : Z) (options : Options) : State :=
  {| address := addr;
     config := {|
       maxPricePerItem := or_default (o_maxPricePerItem options) 10000000;
       dailySpendingLimit := or_default (o_dailySpendingLimit options) 100000000;
       useFeeSponsorship := not_false (o_useFeeSponsorship options);
       enableBatching := not_false (o_enableBatching options);
       enableParallel := not_false (o_enableParallel options) |};
     spentToday := 0;
     lastReset := now;
     purchaseHistory := [] |}.

Definition set_spending (spent reset : Z) (a : State) : State :=
  {| address := address a; config := config a;
     spentToday := spent; lastReset := reset;
     purchaseHistory := purchaseHistory a |}.

Definition add_spent (p : Z) (a : State) : State :=
  set_spending (spentToday a + p) (lastReset a) a.

Definition push_history (ps : list Purchase) (a : State) : State :=
  {| address := address a; config := config a;
     spentToday := spentToday a; lastReset := lastReset a;
     purchaseHistory := (purchaseHistory a ++ ps)%list |}.

(** [_resetDailySpendingIfNeeded()], with [now = Date.now()]. *)
Definition _resetDailySpendingIfNeeded (now : Z) (a : State) : State :=
  if oneDay <? now - lastReset a
  then set_spending 0 now a
  else a.

(** [_encodeTransferCall(to, amount, memo)]: a placeholder in the source. *)
Definition _encodeTransferCall (to_ : string) (amount_ : Z) (memo_ : string)
  : string := "0x".

(** *** The world the agent acts in

    The agent, the backend it talks to, what has been submitted to the
    rail, and the clock that [Date.now()] reads. The clock stands still
    during one call of the agent and moves between calls. *)
Record World := {
  agent : State;
  backend : Server.State;
  submitted : list Submission;
  clock : Z
}.

Definition with_agent (f : State -> State) (w : World) : World :=
  {| agent := f (agent w); backend := backend w;
     submitted := submitted w; clock := clock w |}.

Definition with_backend (b : Server.State) (w : World) : World :=
  {| agent := agent w; backend := b;
     submitted := submitted w; clock := clock w |}.

Definition submit (s : Submission) (w : World) : World :=
  {| agent := agent w; backend := backend w;
     submitted := (submitted w ++ [s])%list; clock := clock w |}.

(** An asynchronous method: it changes the world and returns or throws;
    what it changed before throwing stays changed. *)
Definition M (A : Type) : Type := World -> World * result A.

Definition ret {A} (a : A) : M A := fun w => (w, Ok a).
Definition throw {A} (e : error) : M A := fun w => (w, Throw e).
Definition mbind {A B} (c : M A) (k : A -> M B) : M B :=
  fun w => match c w with
           | (w', Ok a) => k a w'
           | (w', Throw e) => (w', Throw e)
           end.
Definition gets {A} (f : World -> A) : M A := fun w => (w, Ok (f w)).
Definition modify (f : World -> World) : M unit := fun w => (f w, Ok tt).
Definition lift {A} (r : result A) : M A := fun w => (w, r).

Declare Scope agent_scope.
Delimit Scope agent_scope with agent.
Notation "x <- c ;; k" := (mbind c (fun x => k))
  (at level 100, c at next level, right associativity) : agent_scope.
Notation "'exec' c ;; k" := (mbind c (fun _ => k))
  (at level 100, c at next level, right associativity) : agent_scope.
Local Open Scope agent_scope.

(** A [for ... of] loop with [await] in its body: the first throw ends it. *)
Fixpoint for_each {A B} (f : A -> M B) (l : list A) : M (list B) :=
  match l with
  | [] => ret []
  | x :: l' => r <- f x ;; rs <- for_each f l' ;; ret (r :: rs)
  end.

(** [Promise.all] over callbacks that are all started: every callback
    runs, whatever the others do; the result is the list of their values,
    or the first rejection. *)
Fixpoint promise_all {A} (cs : list (M A)) : M (list A) :=
  match cs with
  | [] => ret []
  | c :: cs' =>
      fun w =>
        let (w1, r) := c w in
        let (w2, rs) := promise_all cs' w1 in
        (w2, match r, rs with
             | Ok a, Ok l => Ok (a :: l)
             | Throw e, _ => Throw e
             | Ok _, Throw e => Throw e
             end)
  end.

(** [hasLicense(contentHash)]: any failure of the request reads as [false]. *)
Definition hasLicense (hash : string) (w : World) : bool :=
  match Server.license_check (clock w) (address (agent w)) hash (backend w) with
  | Json b => b
  | Status _ _ => false
  end.

(** [checkContent(contentHash)]: [null] on any failure of the request. *)
Definition checkContent (hash : string) (w : World)
  : option Server.ContentEntry :=
  match Server.get_content hash (backend w) with
  | Json c => Some c
  | Status _ _ => None
  end.

(** [axios.post]: a non-2xx answer throws. *)
Definition post {A} (route : Server.State -> Server.State * http A) : M A :=
  fun w =>
    let (b, r) := route (backend w) in
    (with_backend b w,
     match r with Json a => Ok a | Status code _ => Throw (HttpError code) end).

(** *** The settlement strategies *)

Record ContentInfo := { hash : string; ci_price : Z; owner : string }.

(** What [purchaseLicense] returns. *)
Inductive PurchaseResult :=
| Skipped
| Purchased (purchase : Purchase) (receipt : Receipt).

(** One entry of the [purchases] of the parallel strategy. *)
Record ItemOutcome := {
  io_contentHash : string;
  io_price : Z;
  io_txHash : option string;
  io_success : bool;
  io_error : option error
}.

(** What [purchaseBatch] returns. *)
Inductive BatchResult :=
| BatchSkipped
| Parallel (purchases : list ItemOutcome) (successful failed : Z)
| AtomicBatch (purchases : list Purchase) (totalPrice : Z) (receipt : Receipt)
| Sequential (purchases : list PurchaseResult).

(** [contentInfos.reduce((sum, info) => sum + info.price, 0n)]. *)
Definition sum_prices (infos : list ContentInfo) : Z :=
  fold_left (fun sum info => sum + ci_price info) infos 0.

(** The price-lookup loop of [purchaseBatch]: a fingerprint whose lookup
    fails is dropped. *)
Definition lookup_prices (w : World) (toPurchase : list string)
  : Z * list ContentInfo :=
  fold_left
    (fun (acc : Z * list ContentInfo) h =>
       let (total, infos) := acc in
       match checkContent h w with
       | Some content =>
           (total + Server.price content,
            (infos ++ [{| hash := h; ci_price := Server.price content;
                          owner := Server.contentOwner content |}])%list)
       | None => acc
       end)
    toPurchase (0, []).

(** [Array.prototype.map] with a callback that may throw. *)
Fixpoint map_result {A B} (f : A -> result B) (l : list A) : result (list B) :=
  match l with
  | [] => Ok []
  | x :: l' =>
      match f x with
      | Throw e => Throw e
      | Ok b => match map_result f l' with
                | Throw e => Throw e
                | Ok bs => Ok (b :: bs)
                end
      end
  end.

Section Strategies.

Variable rail : Rail.

Definition transfer (req : TransferRequest) : M Receipt :=
  fun w => (submit (Transfer req) w, transferSync rail (submitted w) req).

(** [purchaseLicense(contentHash, options)], [force] being
    [options.force]. *)
Definition purchaseLicense (contentHash_ : string) (force : bool)
  : M PurchaseResult :=
  now <- gets clock ;;
  exec modify (with_agent (_resetDailySpendingIfNeeded now)) ;;
  licensed <- gets (hasLicense contentHash_) ;;
  if licensed && negb force then ret Skipped else
  content <- gets (checkContent contentHash_) ;;
  match content with
  | None => throw ContentNotFound
  | Some content =>
      let price_ := Server.price content in
      cfg <- gets (fun w => config (agent w)) ;;
      if maxPricePerItem cfg <? price_
      then throw (PriceExceedsMax price_ (maxPricePerItem cfg)) else
      spent <- gets (fun w => spentToday (agent w)) ;;
      if dailySpendingLimit cfg <? spent + price_
      then throw DailyLimitExceeded else
      timestamp_ <- gets clock ;;
      memo_ <- lift (Memo._encodeMemo contentHash_ timestamp_ 0) ;;
      receipt <- transfer {| to := Server.contentOwner content;
                             amount := price_;
                             token := alphaUsd;
                             memo := memo_;
                             feePayer := useFeeSponsorship cfg;
                             nonceKey := None |} ;;
      let purchase := {| contentHash := contentHash_;
                         price := price_;
                         txHash := transactionHash receipt;
                         timestamp := timestamp_;
                         p_blockNumber := Some (blockNumber receipt);
                         p_memo := memo_ |} in
      exec modify (with_agent (add_spent price_)) ;;
      exec modify (with_agent (push_history [purchase])) ;;
      addr <- gets (fun w => address (agent w)) ;;
      served <- gets clock ;;
      _ <- post (Server.license_buy served
                   {| Server.bb_contentHash := contentHash_;
                      Server.bb_agentAddress := addr;
                      Server.bb_txHash := transactionHash receipt;
                      Server.bb_memo := memo_ |}) ;;
      ret (Purchased purchase receipt)
  end.

(** The callback of [_purchaseParallel] for the item at [index]. Encoding
    the tag happens outside its [try]: there a throw rejects the
    callback. A rejected transfer is caught and reported. *)
Definition parallel_item (index : nat) (info : ContentInfo) : M ItemOutcome :=
  timestamp_ <- gets clock ;;
  memo_ <- lift (Memo._encodeMemo (hash info) timestamp_ index) ;;
  cfg <- gets (fun w => config (agent w)) ;;
  fun w =>
    let req := {| to := owner info;
                  amount := ci_price info;
                  token := alphaUsd;
                  memo := memo_;
                  feePayer := useFeeSponsorship cfg;
                  nonceKey := Some (index + 1)%nat |} in
    match transferSync rail (submitted w) req with
    | Ok receipt =>
        (with_agent (add_spent (ci_price info)) (submit (Transfer req) w),
         Ok {| io_contentHash := hash info;
               io_price := ci_price info;
               io_txHash := Some (transactionHash receipt);
               io_success := true;
               io_error := None |})
    | Throw e =>
        (submit (Transfer req) w,
         Ok {| io_contentHash := hash info;
               io_price := ci_price info;
               io_txHash := None;
               io_success := false;
               io_error := Some e |})
    end.

(** [_purchaseParallel(contentInfos)]. All callbacks are started, in
    index order; the world afterwards is the one in which every
    transfer has settled. *)
Definition _purchaseParallel (infos : list ContentInfo) : M BatchResult :=
  purchases <- promise_all (imap parallel_item infos) ;;
  let successful := List.filter io_success purchases in
  exec (match successful with
        | [] => ret tt
        | first :: _ =>
            addr <- gets (fun w => address (agent w)) ;;
            served <- gets clock ;;
            _ <- post (Server.license_batch served
                         {| Server.tb_contentHashes :=
                              List.map io_contentHash successful;
                            Server.tb_agentAddress := addr;
                            Server.tb_txHash := default "" (io_txHash first) |}) ;;
            ret tt
        end) ;;
  ret (Parallel purchases
         (Z.of_nat (length successful))
         (Z.of_nat (length infos) - Z.of_nat (length successful))).

(** The tag and the call of every item of an atomic batch. *)
Definition batch_calls (timestamp_ : Z) (infos : list ContentInfo)
  : result (list (string * Call)) :=
  map_result (fun x => x)
    (imap (fun index info =>
             match Memo._encodeMemo (hash info) timestamp_ index with
             | Throw e => Throw e
             | Ok memo_ =>
                 Ok (memo_,
                     {| call_to := alphaUsd;
                        data := _encodeTransferCall (owner info)
                                  (ci_price info) memo_ |})
             end) infos).

(** [_purchaseBatchAtomic(contentInfos)]. *)
Definition _purchaseBatchAtomic (infos : list ContentInfo) : M BatchResult :=
  timestamp_ <- gets clock ;;
  built <- lift (batch_calls timestamp_ infos) ;;
  let memos := List.map fst built in
  let calls := List.map snd built in
  cfg <- gets (fun w => config (agent w)) ;;
  hash_ <- (fun w => (submit (Batch calls (useFeeSponsorship cfg)) w,
                      sendTransaction rail (submitted w) calls
                        (useFeeSponsorship cfg))) ;;
  receipt <- (fun w => (w, waitForTransactionReceipt rail (submitted w) hash_)) ;;
  if negb (status_success receipt) then throw BatchTransactionFailed else
  let totalPrice_ := sum_prices infos in
  exec modify (with_agent (add_spent totalPrice_)) ;;
  let purchases :=
    imap (fun index info =>
            {| contentHash := hash info;
               price := ci_price info;
               txHash := hash_;
               timestamp := timestamp_;
               p_blockNumber := None;
               p_memo := default "" (memos !! index) |}) infos in
  exec modify (with_agent (push_history purchases)) ;;
  addr <- gets (fun w => address (agent w)) ;;
  served <- gets clock ;;
  _ <- post (Server.license_batch served
               {| Server.tb_contentHashes := List.map hash infos;
                  Server.tb_agentAddress := addr;
                  Server.tb_txHash := hash_ |}) ;;
  ret (AtomicBatch purchases totalPrice_ receipt).

(** [_purchaseSequential(contentInfos)]. *)
Definition _purchaseSequential (infos : list ContentInfo) : M BatchResult :=
  purchases <- for_each (fun info => purchaseLicense (hash info) false) infos ;;
  ret (Sequential purchases).

(** [purchaseBatch(contentHashes, options)], [force] and [atomic] being
    [options.force] and [options.atomic]. *)
Definition purchaseBatch (contentHashes : list string) (force atomic : bool)
  : M BatchResult :=
  now <- gets clock ;;
  exec modify (with_agent (_resetDailySpendingIfNeeded now)) ;;
  toPurchase <- gets (fun w =>
    List.filter (fun h => negb (hasLicense h w) || force) contentHashes) ;;
  match toPurchase with
  | [] => ret BatchSkipped
  | _ =>
      looked <- gets (fun w => lookup_prices w toPurchase) ;;
      let totalPrice_ := fst looked in
      let contentInfos := snd looked in
      cfg <- gets (fun w => config (agent w)) ;;
      spent <- gets (fun w => spentToday (agent w)) ;;
      if dailySpendingLimit cfg - spent <? totalPrice_
      then throw BatchLimitExceeded else
      if enableParallel cfg && negb atomic
      then _purchaseParallel contentInfos
      else if enableBatching cfg
      then _purchaseBatchAtomic contentInfos
      else _purchaseSequential contentInfos
  end.

End Strategies.

(** *** Sequences of calls *)

(** What the owner of an agent does with it, and time passing. *)
Inductive Op :=
| Tick (dt : Z)
| Buy (contentHash_ : string) (force : bool)
| BuyBatch (contentHashes : list string) (force atomic : bool).

Definition advance (dt : Z) (w : World) : World :=
  {| agent := agent w; backend := backend w;
     submitted := submitted w; clock := clock w + dt |}.

Definition step (rail : Rail) (w : World) (op : Op) : World :=
  match op with
  | Tick dt => advance dt w
  | Buy h force => fst (purchaseLicense rail h force w)
  | BuyBatch hs force atomic => fst (purchaseBatch rail hs force atomic w)
  end.

Definition run (rail : Rail) (ops : list Op) (w : World) : World :=
  fold_left (step rail) ops w.

(** The world as the ceiling checks of a call see it: after the reset
    that opens the call. *)
Definition observed (w : World) : World :=
  with_agent (_resetDailySpendingIfNeeded (clock w)) w.

(** The fingerprints a batch call goes on with. *)
Definition toPurchase (contentHashes : list string) (force : bool)
    (w : World) : list string :=
  List.filter (fun h => negb (hasLicense h w) || force) contentHashes.

Definition within_ceiling (a : State) : Prop :=
  spentToday a <= dailySpendingLimit (config a).

(** Prices are amounts: no entry of the registry has a negative one. *)
Definition prices_nonneg (b : Server.State) : Prop :=
  forall h c, Server.contentRegistry b !! h = Some c -> 0 <= Server.price c.

(** What a call keeps: the ceiling [L] itself, prices that are amounts,
    and a spent amount within the ceiling. *)
Definition guarded (L : Z) (w : World) : Prop :=
  dailySpendingLimit (config (agent w)) = L
  /\ prices_nonneg (backend w)
  /\ spentToday (agent w) <= L.

(** What a callback of the parallel strategy does to the world: it
    leaves the backend and the configuration alone and adds its price to
    the spent amount, or nothing. *)
Definition adds_at_most (p : Z) (w w' : World) : Prop :=
  backend w' = backend w
  /\ config (agent w') = config (agent w)
  /\ purchaseHistory (agent w') = purchaseHistory (agent w)
  /\ (spentToday (agent w') = spentToday (agent w)
      \/ spentToday (agent w') = spentToday (agent w) + p).

(** A rail whose bundles are all-or-nothing with respect to [valid]: a
    bundle is confirmed only if every call in it is valid. *)
Definition all_or_nothing (valid : Call -> bool) (rail : Rail) : Prop :=
  forall log calls sponsored hash_ receipt,
    sendTransaction rail log calls sponsored = Ok hash_ ->
    waitForTransactionReceipt rail (log ++ [Batch calls sponsored])%list hash_
      = Ok receipt ->
    status_success receipt = true ->
    forallb valid calls = true.

(** *** What the properties of the strategies speak of *)

(** What the price lookup of a batch makes of a fingerprint. *)
Definition info_of (w : World) (h : string) : option ContentInfo :=
  (fun c => {| hash := h; ci_price := Server.price c;
               owner := Server.contentOwner c |}) <$> checkContent h w.

(** The fingerprint is one the backend knows. *)
Definition known (w : World) (h : string) : bool :=
  bool_decide (is_Some (checkContent h w)).

(** The tag of an item, [""] where the encoder throws. *)
Definition tag_of (h : string) (timestamp_ : Z) (index : nat) : string :=
  match Memo._encodeMemo h timestamp_ index with
  | Ok m => m
  | Throw _ => ""
  end.

(** The transfer the parallel strategy submits for the item at [index]. *)
Definition lane_transfer (a : State) (timestamp_ : Z) (index : nat)
    (info : ContentInfo) : Submission :=
  Transfer {| to := owner info;
              amount := ci_price info;
              token := alphaUsd;
              memo := tag_of (hash info) timestamp_ index;
              feePayer := useFeeSponsorship (config a);
              nonceKey := Some (S index) |}.

(** The ordering lane of a submission. *)
Definition lane_of (s : Submission) : option nat :=
  match s with
  | Transfer r => nonceKey r
  | Batch _ _ => None
  end.

(** Every tag of the items encodes, at time [timestamp_]. *)
Definition tags_encode (timestamp_ : Z) (infos : list ContentInfo) : Prop :=
  forall index info,
    infos !! index = Some info ->
    is_ok (Memo._encodeMemo (hash info) timestamp_ index) = true.

(** A rail that confirms nothing. *)
Definition rejecting (rail : Rail) : Prop :=
  (forall log req, is_ok (transferSync rail log req) = false)
  /\ (forall log calls sponsored,
         is_ok (sendTransaction rail log calls sponsored) = false).

(** The sum of the prices of the items reported successful. *)
Definition paid (purchases : list ItemOutcome) : Z :=
  fold_right (fun o sum => (if io_success o then io_price o else 0) + sum)
    0 purchases.

(** What the world keeps through the callbacks of the parallel strategy. *)
Definition same_but_spent (w w' : World) : Prop :=
  clock w' = clock w /\ backend w' = backend w
  /\ config (agent w') = config (agent w)
  /\ address (agent w') = address (agent w)
  /\ purchaseHistory (agent w') = purchaseHistory (agent w)
  /\ lastReset (agent w') = lastReset (agent w).

(** The history entries an atomic batch confirmed under [hash_] makes. *)
Definition batch_purchases (hash_ : string) (timestamp_ : Z)
    (infos : list ContentInfo) : list Purchase :=
  imap (fun index info =>
          {| contentHash := hash info;
             price := ci_price info;
             txHash := hash_;
             timestamp := timestamp_;
             p_blockNumber := None;
             p_memo := tag_of (hash info) timestamp_ index |}) infos.

(** Nothing was recorded between two worlds: the backend and the history
    are the same, and the spent amount is the same or was reset. *)
Definition nothing_recorded (w w' : World) : Prop :=
  backend w' = backend w
  /\ purchaseHistory (agent w') = purchaseHistory (agent w)
  /\ config (agent w') = config (agent w)
  /\ (spentToday (agent w') = spentToday (agent w)
      \/ spentToday (agent w') = 0).

(** *** Statistics and retrieval *)

Record Stats := {
  st_address : string;
  totalSpent : Z;
  st_spentToday : Z;
  dailyLimit : Z;
  remainingToday : Z;
  totalPurchases : nat;
  recentHistory : list Purchase
}.

(** [arr.slice(-n)]. *)
Definition slice_last {A} (n : nat) (l : list A) : list A :=
  drop (length l - n) l.

(** [getStats()]. *)
Definition getStats (a : State) : Stats :=
  {| st_address := address a;
     totalSpent := fold_left (fun sum p => sum + price p) (purchaseHistory a) 0;
     st_spentToday := spentToday a;
     dailyLimit := dailySpendingLimit (config a);
     remainingToday := dailySpendingLimit (config a) - spentToday a;
     totalPurchases := length (purchaseHistory a);
     recentHistory := slice_last 10 (purchaseHistory a) |}.



End Agent.

(** ** The contract [OpenPayAITempo]

    [uint256], [address] and [bytes32] values are integers; arithmetic is
    checked (Solidity 0.8): an overflow reverts. A mapping reads as the zero
    value at a key that was never written. A transaction either commits a
    new state or reverts, leaving the state as it was. *)

Module Contract.

Definition address := Z.
Definition bytes32 := Z.
Definition uint256_max : Z := 2 ^ 256 - 1.
Definition days30 : Z := 30 * 86400.
Definition day1 : Z := 86400.

Record ContentEntry := {
  price : Z;
  contentOwner : address;
  contentURI : string;
  active : bool;
  totalRevenue : Z;
  accessCount : Z
}.

Record License := { expiry : Z; pricePaid : Z; lic_active : bool }.

Record State := {
  contentRegistry : gmap bytes32 ContentEntry;
  licenses : gmap (address * bytes32) License;
  creatorContents : gmap address (list bytes32);
  agentSpendingLimits : gmap address Z;
  agentSpentToday : gmap address Z;
  lastResetDay : Z
}.

Definition zero_entry : ContentEntry :=
  {| price := 0; contentOwner := 0; contentURI := ""; active := false;
     totalRevenue := 0; accessCount := 0 |}.

Definition zero_license : License :=
  {| expiry := 0; pricePaid := 0; lic_active := false |}.

Definition entry (st : State) (h : bytes32) : ContentEntry :=
  default zero_entry (contentRegistry st !! h).

Definition license (st : State) (user : address) (h : bytes32) : License :=
  default zero_license (licenses st !! (user, h)).

Definition limit_of (st : State) (a : address) : Z :=
  default 0 (agentSpendingLimits st !! a).

Definition spent_of (st : State) (a : address) : Z :=
  default 0 (agentSpentToday st !! a).

Inductive outcome (A : Type) : Type :=
| Commit (a : A)
| Revert (reason : string).
Arguments Commit {A} a.
Arguments Revert {A} reason.

Definition set_entry (h : bytes32) (c : ContentEntry) (st : State) : State :=
  {| contentRegistry := <[h := c]> (contentRegistry st);
     licenses := licenses st;
     creatorContents := creatorContents st;
     agentSpendingLimits := agentSpendingLimits st;
     agentSpentToday := agentSpentToday st;
     lastResetDay := lastResetDay st |}.

Definition set_license (user : address) (h : bytes32) (l : License)
    (st : State) : State :=
  {| contentRegistry := contentRegistry st;
     licenses := <[(user, h) := l]> (licenses st);
     creatorContents := creatorContents st;
     agentSpendingLimits := agentSpendingLimits st;
     agentSpentToday := agentSpentToday st;
     lastResetDay := lastResetDay st |}.

Definition push_creator (creator : address) (h : bytes32) (st : State)
  : State :=
  {| contentRegistry := contentRegistry st;
     licenses := licenses st;
     creatorContents :=
       <[creator := (default [] (creatorContents st !! creator) ++ [h])%list]>
         (creatorContents st);
     agentSpendingLimits := agentSpendingLimits st;
     agentSpentToday := agentSpentToday st;
     lastResetDay := lastResetDay st |}.

Definition set_spent (a : address) (v : Z) (st : State) : State :=
  {| contentRegistry := contentRegistry st;
     licenses := licenses st;
     creatorContents := creatorContents st;
     agentSpendingLimits := agentSpendingLimits st;
     agentSpentToday := <[a := v]> (agentSpentToday st);
     lastResetDay := lastResetDay st |}.

Definition set_lastResetDay (d : Z) (st : State) : State :=
  {| contentRegistry := contentRegistry st;
     licenses := licenses st;
     creatorContents := creatorContents st;
     agentSpendingLimits := agentSpendingLimits st;
     agentSpentToday := agentSpentToday st;
     lastResetDay := d |}.

(** [a + b] on [uint256]. *)
Definition checked_add (a b : Z) : outcome Z :=
  if a + b <=? uint256_max then Commit (a + b) else Revert "Panic(0x11)".

(** [registerContent(contentHash, price, contentURI)] sent by [sender]. *)
Definition registerContent (sender : address) (h : bytes32) (price_ : Z)
    (uri : string) (st : State) : outcome State :=
  if negb (contentOwner (entry st h) =? 0)
  then Revert "Content already registered"
  else if negb (0 <? price_)
  then Revert "Price must be > 0"
  else
    Commit
      (push_creator sender h
         (set_entry h
            {| price := price_; contentOwner := sender; contentURI := uri;
               active := true; totalRevenue := 0; accessCount := 0 |}
            st)).

(** [hasValidLicense(user, contentHash)] in a block stamped [timestamp]. *)
Definition hasValidLicense (timestamp : Z) (user : address) (h : bytes32)
    (st : State) : bool :=
  lic_active (license st user h) && (timestamp <? expiry (license st user h)).

(** [_resetDailySpendingIfNeeded()]: only the day counter moves. *)
Definition _resetDailySpendingIfNeeded (timestamp : Z) (st : State) : State :=
  let currentDay := timestamp / day1 in
  if lastResetDay st <? currentDay
  then set_lastResetDay currentDay st
  else st.

(** [updatePrice(contentHash, newPrice)] sent by [sender]. *)
Definition updatePrice (sender : address) (h : bytes32) (newPrice : Z)
    (st : State) : outcome State :=
  if negb (contentOwner (entry st h) =? sender)
  then Revert "Not content owner"
  else if negb (0 <? newPrice)
  then Revert "Price must be > 0"
  else
    let c := entry st h in
    Commit (set_entry h
              {| price := newPrice; contentOwner := contentOwner c;
                 contentURI := contentURI c; active := active c;
                 totalRevenue := totalRevenue c;
                 accessCount := accessCount c |} st).

Definition obind {A B} (o : outcome A) (k : A -> outcome B) : outcome B :=
  match o with Commit a => k a | Revert r => Revert r end.

(** The spending-limit check shared by both purchase paths. *)
Definition charge_limit (sender : address) (amount_ : Z) (st : State)
  : outcome State :=
  if 0 <? limit_of st sender then
    obind (checked_add (spent_of st sender) amount_) (fun s =>
      if s <=? limit_of st sender
      then Commit (set_spent sender s st)
      else Revert "Daily spending limit exceeded")
  else Commit st.

(** Issuing one license: the license is overwritten and the counters of
    the entry move. *)
Definition issue (timestamp : Z) (sender : address) (h : bytes32)
    (st : State) : outcome State :=
  let c := entry st h in
  obind (checked_add timestamp days30) (fun exp =>
  obind (checked_add (totalRevenue c) (price c)) (fun rev =>
  obind (checked_add (accessCount c) 1) (fun cnt =>
    Commit
      (set_entry h
         {| price := price c; contentOwner := contentOwner c;
            contentURI := contentURI c; active := active c;
            totalRevenue := rev; accessCount := cnt |}
         (set_license sender h
            {| expiry := exp; pricePaid := price c; lic_active := true |}
            st))))).

Section Token.

(** The payment token: whether a call to it goes through. *)
Variable transferWithMemo : address -> Z -> bytes32 -> bool.
Variable transferFrom : address -> Z -> bool.
Variable transfer : address -> Z -> bool.

(** [purchaseLicense(contentHash, memo)] sent by [sender]. *)
Definition purchaseLicense (timestamp : Z) (sender : address)
    (h memo_ : bytes32) (st : State) : outcome State :=
  if contentOwner (entry st h) =? 0 then Revert "Content not registered"
  else if negb (active (entry st h)) then Revert "Content not active"
  else
    let st0 := _resetDailySpendingIfNeeded timestamp st in
    let c := entry st0 h in
    obind (charge_limit sender (price c) st0) (fun st1 =>
      if negb (transferWithMemo (contentOwner c) (price c) memo_)
      then Revert "transferWithMemo"
      else issue timestamp sender h st1).

(** One turn of the first loop of [purchaseBatchLicense]. *)
Definition batch_turn (timestamp : Z) (sender : address)
    (acc : outcome (State * Z)) (h : bytes32) : outcome (State * Z) :=
  obind acc (fun '(st, total) =>
    let c := entry st h in
    if contentOwner c =? 0 then Revert "Content not found"
    else if negb (active c) then Revert "Content not active"
    else
      obind (checked_add total (price c)) (fun total' =>
      obind (issue timestamp sender h st) (fun st' =>
        Commit (st', total')))).

(** [purchaseBatchLicense(contentHashes, memos)] sent by [sender]. *)
Definition purchaseBatchLicense (timestamp : Z) (sender : address)
    (hs memos : list bytes32) (st : State) : outcome State :=
  if negb (length hs =? length memos)%nat then Revert "Array length mismatch"
  else if negb (0 <? length hs)%nat then Revert "Empty batch"
  else if negb (length hs <=? 50)%nat then Revert "Batch too large"
  else
    let st0 := _resetDailySpendingIfNeeded timestamp st in
    obind (fold_left (batch_turn timestamp sender) hs (Commit (st0, 0)))
      (fun '(st1, total) =>
         obind (charge_limit sender total st1) (fun st2 =>
           if negb (transferFrom sender total) then Revert "transferFrom"
           else if forallb (fun h => transfer (contentOwner (entry st2 h))
                                              (price (entry st2 h))) hs
           then Commit st2
           else Revert "transfer")).

End Token.

(** [toggleContentStatus(contentHash)] sent by [sender]. *)
Definition toggleContentStatus (sender : address) (h : bytes32) (st : State)
  : outcome State :=
  if negb (contentOwner (entry st h) =? sender)
  then Revert "Not content owner"
  else
    let c := entry st h in
    Commit (set_entry h
              {| price := price c; contentOwner := contentOwner c;
                 contentURI := contentURI c; active := negb (active c);
                 totalRevenue := totalRevenue c;
                 accessCount := accessCount c |} st).

Definition set_limit (a : address) (v : Z) (st : State) : State :=
  {| contentRegistry := contentRegistry st;
     licenses := licenses st;
     creatorContents := creatorContents st;
     agentSpendingLimits := <[a := v]> (agentSpendingLimits st);
     agentSpentToday := agentSpentToday st;
     lastResetDay := lastResetDay st |}.

(** [setAgentSpendingLimit(agent, dailyLimit)] sent by [sender]; [owner_]
    is the immutable [owner] of the contract. *)
Definition setAgentSpendingLimit (owner_ sender agent_ : address)
    (dailyLimit : Z) (st : State) : outcome State :=
  if negb (sender =? owner_) then Revert "Not owner"
  else Commit (set_limit agent_ dailyLimit st).

(** [getCreatorContents(creator)]. *)
Definition getCreatorContents (creator : address) (st : State)
  : list bytes32 :=
  default [] (creatorContents st !! creator).

(** [getContentStats(contentHash)]: price, revenue, access count, active. *)
Definition getContentStats (h : bytes32) (st : State) : Z * Z * Z * bool :=
  let c := entry st h in
  (price c, totalRevenue c, accessCount c, active c).

(** Every registered entry has a positive price. *)
Definition priced (st : State) : Prop :=
  forall h, contentOwner (entry st h) <> 0 -> 0 < price (entry st h).

(** Two states agree on the terms of every entry: price, owner, locator
    and active flag. *)
Definition same_terms (st st' : State) : Prop :=
  forall h,
    price (entry st' h) = price (entry st h)
    /\ contentOwner (entry st' h) = contentOwner (entry st h)
    /\ contentURI (entry st' h) = contentURI (entry st h)
    /\ active (entry st' h) = active (entry st h).

(** The sum of the listed prices of a batch. *)
Definition batch_total (st : State) (hs : list bytes32) : Z :=
  fold_right (fun h acc => price (entry st h) + acc) 0 hs.

(** *** Transactions, one after another

    A transaction comes with what the token does during it. The token
    does not call back into the contract. *)
Inductive Tx :=
| TxRegister (h : bytes32) (price_ : Z) (uri : string)
| TxUpdatePrice (h : bytes32) (newPrice : Z)
| TxToggle (h : bytes32)
| TxSetLimit (agent_ : address) (dailyLimit : Z)
| TxPurchase (h memo_ : bytes32)
    (transferWithMemo : address -> Z -> bytes32 -> bool)
| TxPurchaseBatch (hs memos : list bytes32)
    (transferFrom transfer : address -> Z -> bool).

Definition exec (owner_ : address) (timestamp : Z) (sender : address)
    (tx : Tx) (st : State) : outcome State :=
  match tx with
  | TxRegister h p uri => registerContent sender h p uri st
  | TxUpdatePrice h p => updatePrice sender h p st
  | TxToggle h => toggleContentStatus sender h st
  | TxSetLimit a l => setAgentSpendingLimit owner_ sender a l st
  | TxPurchase h m t => purchaseLicense t timestamp sender h m st
  | TxPurchaseBatch hs ms tf t =>
      purchaseBatchLicense tf t timestamp sender hs ms st
  end.

(** The state after a transaction: a revert leaves it as it was. *)
Definition after (owner_ : address) (st : State)
    (call : Z * address * Tx) : State :=
  match exec owner_ call.1.1 call.1.2 call.2 st with
  | Commit st' => st'
  | Revert _ => st
  end.

Definition chain (owner_ : address) (calls : list (Z * address * Tx))
    (st : State) : State :=
  fold_left (after owner_) calls st.

(** The state at deployment, in a block stamped [timestamp]. *)
Definition deployed (timestamp : Z) : State :=
  {| contentRegistry := ∅;
     licenses := ∅;
     creatorContents := ∅;
     agentSpendingLimits := ∅;
     agentSpentToday := ∅;
     lastResetDay := timestamp / day1 |}.

End Contract.

(** ** Concrete rails, registries and agents

    The inputs at which the code is run in the properties below. *)

Module Scenario.

Import Agent.

Definition t0 : Z := 1700000000000.

(** A fingerprint as the contract and the ABI have it: ["0x"] and 64 hex
    digits. *)
Definition fingerprint1 : string :=
  "0x1111111111111111111111111111111111111111111111111111111111111111".

Definition receipt_ok (log : list Submission) : Receipt :=
  {| transactionHash := "0x7e";
     blockNumber := Z.of_nat (length log);
     status_success := true |}.

(** A rail that confirms everything. *)
Definition rail_accepting : Rail :=
  {| transferSync := fun log _ => Ok (receipt_ok log);
     sendTransaction := fun _ _ _ => Ok "0xba";
     waitForTransactionReceipt := fun log _ => Ok (receipt_ok log) |}.

(** A rail that rejects the transfer on ordering lane [k] and confirms
    the others. *)
Definition rail_rejecting_lane (k : nat) : Rail :=
  {| transferSync := fun log req =>
       if bool_decide (nonceKey req = Some k)
       then Throw (RailError "insufficient funds")
       else Ok (receipt_ok log);
     sendTransaction := fun _ _ _ => Ok "0xba";
     waitForTransactionReceipt := fun log _ => Ok (receipt_ok log) |}.


(** A rail on which every bundle reverts. *)
Definition rail_reverting_bundles : Rail :=
  {| transferSync := fun log _ => Ok (receipt_ok log);
     sendTransaction := fun _ _ _ => Ok "0xba";
     waitForTransactionReceipt := fun log _ =>
       Ok {| transactionHash := "0xba";
             blockNumber := Z.of_nat (length log);
             status_success := false |} |}.

Definition body (h : string) (p : Z) : Server.RegisterBody :=
  {| Server.rb_contentHash := h;
     Server.rb_price := Server.PString p;
     Server.rb_contentURI := "https://example.org/" ++ h;
     Server.rb_ownerAddress := "0xc0" |}.

Definition register_all (items : list (string * Z)) (st : Server.State)
  : Server.State :=
  fold_left (fun st item => fst (Server.register t0 (body item.1 item.2) st))
    items st.

Definition hashes5 : list string := ["0xa1"; "0xa2"; "0xa3"; "0xa4"; "0xa5"].

(** Five entries at 50000 each. *)
Definition registry5 : Server.State :=
  register_all (List.map (fun h => (h, 50000)) hashes5) Server.empty.

(** One entry at 600000. *)
Definition registry_dear : Server.State :=
  register_all [("0xd1", 600000)] Server.empty.

Definition options_none : Options :=
  {| o_maxPricePerItem := None; o_dailySpendingLimit := None;
     o_useFeeSponsorship := None; o_enableBatching := None;
     o_enableParallel := None |}.

(** The options of [examples/batch-purchase.js]: $0.50 per item, $5 a day. *)
Definition options_example : Options :=
  {| o_maxPricePerItem := Some 500000; o_dailySpendingLimit := Some 5000000;
     o_useFeeSponsorship := Some true; o_enableBatching := Some true;
     o_enableParallel := None |}.


Definition world (options : Options) (b : Server.State) : World :=
  {| agent := new "0xa9e7" t0 options;
     backend := b;
     submitted := [];
     clock := t0 |}.

(** The amounts submitted to the rail as single transfers, in order. *)
Definition amounts (w : World) : list Z :=
  omap (fun s => match s with
                 | Transfer r => Some (amount r)
                 | Batch _ _ => None
                 end) (submitted w).

Definition license_count (b : Server.State) : nat :=
  size (default ∅ (Server.licenses b)).

Definition access_of (h : string) (b : Server.State) : option Z :=
  Server.accessCount <$> (Server.contentRegistry b !! h).

Definition revenue_of (h : string) (b : Server.State) : option Z :=
  Server.totalRevenue <$> (Server.contentRegistry b !! h).

Definition price_of (h : string) (b : Server.State) : option Z :=
  Server.price <$> (Server.contentRegistry b !! h).

Definition json {A} (r : http A) : option A :=
  match r with Json a => Some a | Status _ _ => None end.

(** The registry after ["0xa1"] has been registered at 50000 and sold
    once. *)
Definition registry_sold : Server.State :=
  (Server.license_buy t0
     {| Server.bb_contentHash := "0xa1"; Server.bb_agentAddress := "0xa9e7";
        Server.bb_txHash := "0x7e"; Server.bb_memo := "" |}
     (register_all [("0xa1", 50000)] Server.empty)).1.

(** A second registration of ["0xa1"], by someone else, at a negative
    price. *)
Definition body_again : Server.RegisterBody :=
  {| Server.rb_contentHash := "0xa1";
     Server.rb_price := Server.PNumber (-7);
     Server.rb_contentURI := "https://example.org/other";
     Server.rb_ownerAddress := "0xee" |}.

(** The same sale, recorded through the batch route. *)
Definition registry_batch_sold : Server.State :=
  (Server.license_batch t0
     {| Server.tb_contentHashes := ["0xa1"];
        Server.tb_agentAddress := "0xa9e7";
        Server.tb_txHash := "0x7e" |}
     (register_all [("0xa1", 50000)] Server.empty)).1.

(** Two entries, at 50000 and at 60000, and a payer with a daily ceiling
    of 100000 and a per-item ceiling of 60000. *)
Definition registry_budget : Server.State :=
  register_all [("0xf1", 50000); ("0xf2", 60000)] Server.empty.

Definition options_budget : Options :=
  {| o_maxPricePerItem := Some 60000; o_dailySpendingLimit := Some 100000;
     o_useFeeSponsorship := None; o_enableBatching := None;
     o_enableParallel := None |}.

(** A contract state in which holder 7 has a license for fingerprint 1
    that expires at 100. *)
Definition contract_licensed : Contract.State :=
  {| Contract.contentRegistry := ∅;
     Contract.licenses :=
       {[ (7, 1) := {| Contract.expiry := 100; Contract.pricePaid := 5;
                       Contract.lic_active := true |} ]};
     Contract.creatorContents := ∅;
     Contract.agentSpendingLimits := ∅;
     Contract.agentSpentToday := ∅;
     Contract.lastResetDay := 0 |}.

(** A rail that confirms nothing. *)
Definition rail_down : Rail :=
  {| transferSync := fun _ _ => Throw (RailError "unreachable");
     sendTransaction := fun _ _ _ => Throw (RailError "unreachable");
     waitForTransactionReceipt := fun _ _ => Throw (RailError "unreachable") |}.

(** A token on which every transfer goes through. *)
Definition token_pays : Z -> Z -> Z -> bool := fun _ _ _ => true.
Definition token_moves : Z -> Z -> bool := fun _ _ => true.

(** The contract of owner 9 after creator 5 has listed fingerprint 1 at
    50000 and fingerprint 2 at 70000 and the owner has given agent 7 a
    limit of 120000. *)
Definition contract_listed : Contract.State :=
  Contract.chain 9
    [(1000, 5, Contract.TxRegister 1 50000 "https://example.org/a");
     (1000, 5, Contract.TxRegister 2 70000 "https://example.org/b");
     (1000, 9, Contract.TxSetLimit 7 120000)]
    (Contract.deployed 1000).

(** The same contract after agent 7 has bought both fingerprints. *)
Definition contract_spent : Contract.State :=
  Contract.chain 9
    [(1000, 7, Contract.TxPurchase 1 0 token_pays);
     (1000, 7, Contract.TxPurchase 2 0 token_pays)]
    contract_listed.

(** Two entries as the register route stores them, at 150000 and at
    -100000, and a payer with a daily ceiling of 100000. *)
Definition registry_signed : Server.State :=
  register_all [("0xb1", 150000); ("0xb2", -100000)] Server.empty.

Definition options_tight : Options :=
  {| o_maxPricePerItem := None; o_dailySpendingLimit := Some 100000;
     o_useFeeSponsorship := None; o_enableBatching := None;
     o_enableParallel := None |}.

(** The same ceiling with the sequential fallback. *)
Definition options_tight_sequential : Options :=
  {| o_maxPricePerItem := None; o_dailySpendingLimit := Some 100000;
     o_useFeeSponsorship := None; o_enableBatching := Some false;
     o_enableParallel := Some false |}.

(** A rail that rejects a transfer of a negative amount, which no
    [uint256] holds, and confirms the others. *)
Definition rail_unsigned : Rail :=
  {| transferSync := fun log req =>
       if amount req <? 0
       then Throw (RailError "amount out of range")
       else Ok (receipt_ok log);
     sendTransaction := fun _ _ _ => Ok "0xba";
     waitForTransactionReceipt := fun log _ => Ok (receipt_ok log) |}.

End Scenario.

(** * Properties *)

(** ** Tracking tags *)

Module MemoFacts.

Import Viem Memo.

Lemma length_app_string (s t : string) :
  String.length (s ++ t) = (String.length s + String.length t)%nat.
Proof. induction s as [|c s IH]; simpl; [reflexivity | now rewrite IH]. Qed.

Lemma length_bytesToHex (s : string) :
  String.length (bytesToHex s) = (2 * String.length s)%nat.
Proof.
  induction s as [|c s IH]; [reflexivity|].
  cbn [bytesToHex]. rewrite length_app_string, IH.
  cbn [byte_to_hex String.length]. lia.
Qed.

Lemma substring_all (s : string) (n : nat) :
  (String.length s <= n)%nat -> String.substring 0 n s = s.
Proof.
  revert n. induction s as [|c s IH]; intros [|n] H; simpl in *;
    try reflexivity; try lia.
  f_equal. apply IH. lia.
Qed.

Lemma length_slice0 (n : nat) (s : string) :
  String.length (slice0 n s) = Nat.min n (String.length s).
Proof.
  unfold slice0. revert n.
  induction s as [|c s IH]; intros [|n]; simpl; try reflexivity.
  now rewrite IH.
Qed.

Lemma replace_first_0x (s : string) : replace_first "0x" ("0x" ++ s) = s.
Proof.
  change ("0x" ++ s) with (String "0" (String "x" s)).
  destruct s as [|c s]; [reflexivity|].
  assert (Hp : String.prefix "0x" (String "0" (String "x" (String c s))) = true).
  { apply prefix_correct. reflexivity. }
  cbn [replace_first]. rewrite Hp.
  cbn [String.length String.substring].
  f_equal. apply substring_all. lia.
Qed.

Lemma length_repeat_char (c : ascii) (n : nat) :
  String.length (repeat_char c n) = n.
Proof. induction n; simpl; congruence. Qed.

Lemma length_padStart (n : nat) (s : string) :
  (String.length s <= n)%nat -> String.length (padStart n s) = n.
Proof.
  intros H. unfold padStart.
  rewrite length_app_string, length_repeat_char. lia.
Qed.

(** [pad] after [stringToHex]: up to [size] bytes are left-padded to
    exactly [size] bytes; more bytes are an error, not a truncation. *)
Lemma pad_stringToHex (s : string) (size : nat) :
  pad (stringToHex s) size =
    if (size <? String.length s)%nat
    then Throw SizeExceedsPaddingSizeError
    else Ok ("0x" ++ padStart (size * 2) (bytesToHex s)).
Proof.
  unfold pad, stringToHex. rewrite replace_first_0x, length_bytesToHex.
  destruct (Nat.ltb_spec size (String.length s));
    destruct (Nat.ltb_spec (size * 2) (2 * String.length s)); try lia;
    reflexivity.
Qed.

(** The encoder throws exactly when the derived string, cut to 64
    characters, is longer than 32 bytes. *)
Lemma encodeMemo_throws_iff (h : string) (t : Z) (i : nat) :
  _encodeMemo h t i = Throw SizeExceedsPaddingSizeError
  <-> (32 < Nat.min 64 (String.length (memoStr h t i)))%nat.
Proof.
  unfold _encodeMemo. rewrite pad_stringToHex, length_slice0.
  destruct (Nat.ltb_spec 32 (Nat.min 64 (String.length (memoStr h t i))));
    split; intros; try reflexivity; try lia; try discriminate.
Qed.

(** When the encoder returns, the tag is 32 bytes wide: ["0x"] and 64
    hex digits. *)
Lemma encodeMemo_width (h : string) (t : Z) (i : nat) (tag : string) :
  _encodeMemo h t i = Ok tag -> String.length tag = 66%nat.
Proof.
  unfold _encodeMemo. rewrite pad_stringToHex.
  generalize (slice0 64 (memoStr h t i)); intros s.
  destruct (Nat.ltb_spec 32 (String.length s)); [discriminate|].
  intros Heq. assert (tag = "0x" ++ padStart (32 * 2) (bytesToHex s))
    by congruence. subst tag.
  rewrite length_app_string, length_padStart; [reflexivity|].
  rewrite length_bytesToHex. lia.
Qed.

Lemma length_memoStr (h : string) (t : Z) (i : nat) :
  String.length (memoStr h t i)
  = (8 + Nat.min 20 (String.length h) + 1 + String.length (dec t) + 1
     + String.length (dec (Z.of_nat i)))%nat.
Proof.
  unfold memoStr.
  repeat rewrite length_app_string. rewrite length_slice0.
  cbn [String.length]. lia.
Qed.

(** C10 (the code departs from it). The tag of a 32-byte fingerprint at a
    present-day millisecond timestamp is not produced: the derived string
    has 44 characters, [slice(0, 64)] keeps them all, and [pad] raises
    [SizeExceedsPaddingSizeError] on more than 32 bytes. *)
Theorem encodeMemo_raises_on_fingerprint :
  String.length (memoStr Scenario.fingerprint1 Scenario.t0 0) = 44%nat
  /\ _encodeMemo Scenario.fingerprint1 Scenario.t0 0
     = Throw SizeExceedsPaddingSizeError.
Proof. split; vm_compute; reflexivity. Qed.

End MemoFacts.

(** ** The licensing ledger *)

Module LedgerFacts.

(** *** Registration *)

(** The contract refuses a fingerprint that is registered and leaves the
    state as it was. *)
Lemma contract_register_twice (sender : Z) (h p : Z) (uri : string)
    (st : Contract.State) :
  Contract.contentOwner (Contract.entry st h) <> 0 ->
  Contract.registerContent sender h p uri st
  = Contract.Revert "Content already registered".
Proof.
  intros H. unfold Contract.registerContent.
  destruct (Z.eqb_spec (Contract.contentOwner (Contract.entry st h)) 0);
    [contradiction|reflexivity].
Qed.

(** The contract refuses a price that is not positive. *)
Lemma contract_register_price (sender : Z) (h p : Z) (uri : string)
    (st : Contract.State) :
  Contract.contentOwner (Contract.entry st h) = 0 ->
  p <= 0 ->
  Contract.registerContent sender h p uri st
  = Contract.Revert "Price must be > 0".
Proof.
  intros H Hp. unfold Contract.registerContent. rewrite H. cbn.
  destruct (Z.ltb_spec 0 p); [lia|reflexivity].
Qed.

(** Otherwise the contract creates the entry. *)
Lemma contract_register_new (sender : Z) (h p : Z) (uri : string)
    (st : Contract.State) :
  Contract.contentOwner (Contract.entry st h) = 0 ->
  0 < p ->
  exists st',
    Contract.registerContent sender h p uri st = Contract.Commit st'
    /\ Contract.entry st' h
       = {| Contract.price := p; Contract.contentOwner := sender;
            Contract.contentURI := uri; Contract.active := true;
            Contract.totalRevenue := 0; Contract.accessCount := 0 |}.
Proof.
  intros H Hp. unfold Contract.registerContent. rewrite H. cbn.
  destruct (Z.ltb_spec 0 p); [|lia]. cbn.
  eexists; split; [reflexivity|].
  unfold Contract.entry. cbn. now rewrite lookup_insert_eq.
Qed.

(** The backend's route has neither check: whatever the registry holds,
    a body with all four fields is stored under its fingerprint. *)
Lemma server_register_stores (now : Z) (body : Server.RegisterBody)
    (st : Server.State) (e : Server.ContentEntry) :
  (Server.register now body st).2 = Json e ->
  Server.contentRegistry (Server.register now body st).1
    !! Server.rb_contentHash body = Some e
  /\ Server.price e = Server.price_BigInt (Server.rb_price body)
  /\ Server.totalRevenue e = 0.
Proof.
  unfold Server.register.
  destruct (_ || _); cbn; [discriminate|].
  intros [= <-]. rewrite lookup_insert_eq. repeat split.
Qed.

(** C3 (the code departs from it). On the backend, registering the
    fingerprint of an entry that has already earned revenue succeeds and
    replaces the entry (new owner, revenue back to 0), and a negative
    price and the price ["0"] are stored as they come. *)
Theorem server_register_overwrites_and_takes_any_price :
  Scenario.revenue_of "0xa1" Scenario.registry_sold = Some 50000
  /\ is_Some (Scenario.json (Server.register (Scenario.t0 + 1)
                Scenario.body_again Scenario.registry_sold).2)
  /\ Server.contentRegistry
       (Server.register (Scenario.t0 + 1)
          Scenario.body_again Scenario.registry_sold).1 !! "0xa1"
     = Some {| Server.contentHash := "0xa1";
               Server.price := -7;
               Server.contentOwner := "0xee";
               Server.contentURI := "https://example.org/other";
               Server.active := true;
               Server.totalRevenue := 0;
               Server.accessCount := 0;
               Server.createdAt := Scenario.t0 + 1 |}
  /\ Scenario.price_of "0xf0"
       (Server.register Scenario.t0 (Scenario.body "0xf0" 0) Server.empty).1
     = Some 0.
Proof. repeat split; vm_compute; eauto. Qed.

(** *** Validity of a license *)

(** C4. The contract reports a license valid exactly when it is active
    and its expiry is after the block's timestamp. The backend keeps no
    flag on a license: a stored license is in force until it expires, and
    its check returns the license exactly when one is stored whose expiry
    is after now. In both, a license with [expiry <= now] is invalid. *)
Theorem license_valid_iff_active_and_unexpired :
  (forall (now user h : Z) (st : Contract.State),
      (Contract.hasValidLicense now user h st = true
       <-> Contract.lic_active (Contract.license st user h) = true
           /\ now < Contract.expiry (Contract.license st user h))
      /\ (Contract.expiry (Contract.license st user h) <= now ->
          Contract.hasValidLicense now user h st = false))
  /\ (forall (now : Z) (holder h : string) (st : Server.State),
      (forall l, Server.checkLicense now holder h st = Some l
                 <-> Server.stored_license holder h st = Some l
                     /\ now < Server.expiry l)
      /\ (forall l, Server.stored_license holder h st = Some l ->
                    Server.expiry l <= now ->
                    Server.checkLicense now holder h st = None)).
Proof.
  split.
  - intros now user h st. unfold Contract.hasValidLicense. split.
    + rewrite andb_true_iff, Z.ltb_lt. tauto.
    + intros H. apply andb_false_iff. right. apply Z.ltb_ge. exact H.
  - intros now holder h st.
    unfold Server.checkLicense, Server.stored_license.
    destruct (Server.licenses st) as [m|].
    + destruct (m !! Server.licenseKey holder h) as [l0|].
      * split.
        -- intros l. destruct (Z.ltb_spec now (Server.expiry l0)); split.
           ++ intros [= <-]. split; [reflexivity|assumption].
           ++ intros [[= <-] _]. reflexivity.
           ++ discriminate.
           ++ intros [[= <-] Hl]. lia.
        -- intros l [= <-] Hl.
           destruct (Z.ltb_spec now (Server.expiry l0)); [lia|reflexivity].
      * split; [intros l; split; [discriminate|intros [? _]; discriminate]
               |intros l; discriminate].
    + split; [intros l; split; [discriminate|intros [? _]; discriminate]
             |intros l; discriminate].
Qed.

(** *** Issuing a license *)


(** One turn of the batch route: the license and the revenue move as in
    the single route; the access count stays. *)
Lemma server_batch_item_counts (now : Z) (holder tx h : string)
    (st : Server.State) (total : Z) (res : list Server.BatchItem)
    (c : Server.ContentEntry) :
  Server.contentRegistry st !! h = Some c ->
  let st' := (Server.batch_item now holder tx h (st, total, res)).1.1 in
  (Server.expiry <$> Server.stored_license holder h st') = Some (now + thirtyDays)
  /\ exists c', Server.contentRegistry st' !! h = Some c'
                /\ Server.totalRevenue c' = Server.totalRevenue c + Server.price c
                /\ Server.accessCount c' = Server.accessCount c.
Proof.
  intros Hc. unfold Server.batch_item. rewrite Hc. cbn.
  unfold Server.stored_license. cbn. rewrite lookup_insert_eq. split; [reflexivity|].
  eexists. rewrite lookup_insert_eq. repeat split.
Qed.

(** The contract: every license it issues, on either purchase path,
    goes through [issue]. *)
Lemma contract_issue_counts (now sender h : Z) (st st' : Contract.State) :
  Contract.issue now sender h st = Contract.Commit st' ->
  Contract.license st' sender h
  = {| Contract.expiry := now + Contract.days30;
       Contract.pricePaid := Contract.price (Contract.entry st h);
       Contract.lic_active := true |}
  /\ Contract.totalRevenue (Contract.entry st' h)
     = Contract.totalRevenue (Contract.entry st h)
       + Contract.price (Contract.entry st h)
  /\ Contract.accessCount (Contract.entry st' h)
     = Contract.accessCount (Contract.entry st h) + 1.
Proof.
  unfold Contract.issue, Contract.checked_add, Contract.obind.
  repeat case_match; try discriminate.
  intros [= <-]. simplify_eq. unfold Contract.license, Contract.entry. cbn.
  rewrite !lookup_insert_eq. repeat split.
Qed.

(** C9 (the code departs from it). A license recorded through the
    backend's batch route gets its 30-day expiry and adds its price to
    the revenue, and leaves the access count of the entry at 0; the same
    license recorded through the single route counts one access. *)
Theorem server_batch_route_skips_access_count :
  Scenario.revenue_of "0xa1" Scenario.registry_batch_sold = Some 50000
  /\ Scenario.access_of "0xa1" Scenario.registry_batch_sold = Some 0
  /\ (Server.expiry <$>
        Server.stored_license "0xa9e7" "0xa1" Scenario.registry_batch_sold)
     = Some (Scenario.t0 + thirtyDays)
  /\ Scenario.revenue_of "0xa1" Scenario.registry_sold = Some 50000
  /\ Scenario.access_of "0xa1" Scenario.registry_sold = Some 1.
Proof. repeat split; vm_compute; reflexivity. Qed.

Lemma license_valid_iff_active_and_unexpired_witness :
  Contract.hasValidLicense 50 7 1 Scenario.contract_licensed = true
  /\ Contract.hasValidLicense 100 7 1 Scenario.contract_licensed = false
  /\ is_Some (Server.checkLicense Scenario.t0 "0xa9e7" "0xa1"
                Scenario.registry_sold)
  /\ Server.checkLicense (Scenario.t0 + thirtyDays) "0xa9e7" "0xa1"
       Scenario.registry_sold = None.
Proof.
  destruct license_valid_iff_active_and_unexpired as [Hc Hs].
  destruct (Hc 50 7 1 Scenario.contract_licensed) as [Hiff _].
  destruct (Hc 100 7 1 Scenario.contract_licensed) as [_ Hexp].
  destruct (Hs (Scenario.t0 + thirtyDays) "0xa9e7" "0xa1"
              Scenario.registry_sold) as [_ Hsexp].
  split; [apply Hiff; split; [reflexivity|vm_compute; reflexivity]|].
  split; [apply Hexp; vm_compute; discriminate|].
  split; [vm_compute; eauto|].
  eapply Hsexp; [vm_compute; reflexivity|vm_compute; discriminate].
Defined.

End LedgerFacts.

(** ** The spending guard and the strategies of the agent *)

Module AgentFacts.

Import Agent.

(** *** The rolling reset *)

Lemma reset_idempotent (now : Z) (a : State) :
  _resetDailySpendingIfNeeded now (_resetDailySpendingIfNeeded now a)
  = _resetDailySpendingIfNeeded now a.
Proof.
  unfold _resetDailySpendingIfNeeded.
  destruct (Z.ltb_spec oneDay (now - lastReset a)) as [H|H]; cbn.
  - destruct (Z.ltb_spec oneDay (now - now)) as [H'|H']; [|reflexivity].
    unfold oneDay in H'. lia.
  - destruct (Z.ltb_spec oneDay (now - lastReset a)); [lia|reflexivity].
Qed.

Lemma observed_idempotent (w : World) : observed (observed w) = observed w.
Proof.
  unfold observed, with_agent. cbn. now rewrite reset_idempotent.
Qed.

(** Both entry points begin with the reset: a call acts on the world the
    reset leaves. *)
Lemma purchaseLicense_observed (rail : Rail) (h : string) (force : bool)
    (w : World) :
  purchaseLicense rail h force w = purchaseLicense rail h force (observed w).
Proof.
  unfold purchaseLicense at 1 2.
  cbv beta iota zeta delta [mbind gets modify].
  change (with_agent (_resetDailySpendingIfNeeded (clock (observed w)))
            (observed w)) with (observed (observed w)).
  change (with_agent (_resetDailySpendingIfNeeded (clock w)) w)
    with (observed w).
  now rewrite observed_idempotent.
Qed.

Lemma purchaseBatch_observed (rail : Rail) (hs : list string)
    (force atomic : bool) (w : World) :
  purchaseBatch rail hs force atomic w
  = purchaseBatch rail hs force atomic (observed w).
Proof.
  unfold purchaseBatch at 1 2.
  cbv beta iota zeta delta [mbind gets modify].
  change (with_agent (_resetDailySpendingIfNeeded (clock (observed w)))
            (observed w)) with (observed (observed w)).
  change (with_agent (_resetDailySpendingIfNeeded (clock w)) w)
    with (observed w).
  now rewrite observed_idempotent.
Qed.

(** When exactly 24 hours have passed the agent keeps the window; and the
    contract's function of the same name resets no spent amount, however
    many days have passed since its day counter last moved. *)
Lemma reset_boundary_refutes_claim :
  ~ (forall (now : Z) (a : State),
        lastReset a + oneDay <= now ->
        spentToday (_resetDailySpendingIfNeeded now a) = 0
        /\ lastReset (_resetDailySpendingIfNeeded now a) = now)
  /\ ~ (forall (now : Z) (st : Contract.State) (payer : Z),
          Contract.lastResetDay st * Contract.day1 + Contract.day1 <= now ->
          Contract.spent_of (Contract._resetDailySpendingIfNeeded now st) payer
          = 0).
Proof.
  split.
  - intros H.
    specialize (H (Scenario.t0 + oneDay)
                  (add_spent 50000
                     (new "0xa9e7" Scenario.t0 Scenario.options_none))).
    cbn in H. destruct H as [H _]; [lia|]. vm_compute in H. discriminate.
  - intros H.
    specialize (H (1000 + 400 * Contract.day1) Scenario.contract_spent 7).
    assert (Hs : Contract.spent_of
                   (Contract._resetDailySpendingIfNeeded
                      (1000 + 400 * Contract.day1) Scenario.contract_spent) 7
                 = 120000) by (vm_compute; reflexivity).
    rewrite H in Hs; [discriminate|]. vm_compute. discriminate.
Qed.

(** Up to and including 24 hours the window is kept. *)
Lemma reset_within_a_day (now : Z) (a : State) :
  now <= lastReset a + oneDay -> _resetDailySpendingIfNeeded now a = a.
Proof.
  intros H. unfold _resetDailySpendingIfNeeded.
  destruct (Z.ltb_spec oneDay (now - lastReset a)); [lia|reflexivity].
Qed.

(** C6 (amended). When more than 24 hours have passed since the window
    started, a call of the agent first sets the spent amount to 0 and the
    window start to now, whatever was spent; when 24 hours or less have
    passed, exactly 24 hours included, the window is kept as it is. The
    ceiling checks of a single purchase and of a batch see the state this
    leaves. *)
Theorem reset_only_after_more_than_a_day (rail : Rail) (w : World) :
  (lastReset (agent w) + oneDay < clock w ->
   spentToday (agent (observed w)) = 0
   /\ lastReset (agent (observed w)) = clock w)
  /\ (clock w <= lastReset (agent w) + oneDay -> observed w = w)
  /\ (forall h force,
         purchaseLicense rail h force w
         = purchaseLicense rail h force (observed w))
  /\ (forall hs force atomic,
         purchaseBatch rail hs force atomic w
         = purchaseBatch rail hs force atomic (observed w)).
Proof.
  split; [|split; [|split]].
  - intros H. unfold observed. cbn.
    unfold _resetDailySpendingIfNeeded.
    destruct (Z.ltb_spec oneDay (clock w - lastReset (agent w))); [|lia].
    cbn. split; reflexivity.
  - intros H. unfold observed, with_agent.
    rewrite reset_within_a_day by assumption. destruct w; reflexivity.
  - intros h force. apply purchaseLicense_observed.
  - intros hs force atomic. apply purchaseBatch_observed.
Qed.

Lemma reset_only_after_more_than_a_day_witness :
  let w := advance (oneDay + 1)
             (with_agent (add_spent 50000)
                (Scenario.world Scenario.options_none Scenario.registry5)) in
  let v := advance oneDay
             (with_agent (add_spent 50000)
                (Scenario.world Scenario.options_none Scenario.registry5)) in
  (spentToday (agent w) = 50000 /\ spentToday (agent (observed w)) = 0)
  /\ (spentToday (agent v) = 50000 /\ observed v = v).
Proof.
  cbv zeta. split.
  - split; [reflexivity|].
    apply (reset_only_after_more_than_a_day Scenario.rail_accepting).
    vm_compute. reflexivity.
  - split; [reflexivity|].
    apply (reset_only_after_more_than_a_day Scenario.rail_accepting).
    vm_compute. discriminate.
Defined.

(** *** The per-item ceiling *)

(** C5 (the code departs from it). With the ceilings of the batch
    example ($0.50 an item) and an entry priced at $0.60: the single
    purchase is refused for its price; the parallel strategy submits the
    transfer of 600000 and the atomic strategy submits its bundle, and
    both count the amount as spent. *)
Theorem batch_strategies_skip_per_item_ceiling :
  let w := Scenario.world Scenario.options_example Scenario.registry_dear in
  let single := purchaseLicense Scenario.rail_accepting "0xd1" false w in
  let par := purchaseBatch Scenario.rail_accepting ["0xd1"] false false w in
  let atom := purchaseBatch Scenario.rail_accepting ["0xd1"] false true w in
  maxPricePerItem (config (agent w)) = 500000
  /\ Scenario.price_of "0xd1" (backend w) = Some 600000
  /\ single.2 = Throw (PriceExceedsMax 600000 500000)
  /\ submitted single.1 = []
  /\ is_ok par.2 = true
  /\ Scenario.amounts par.1 = [600000]
  /\ spentToday (agent par.1) = 600000
  /\ is_ok atom.2 = true
  /\ length (submitted atom.1) = 1%nat
  /\ spentToday (agent atom.1) = 600000.
Proof. cbv zeta. repeat split; vm_compute; reflexivity. Qed.

(** *** The sequential strategy *)


(** *** The parallel strategy *)

(** C8 (the code departs from it). Five registered items, bought by the
    parallel strategy on a rail that rejects the third transfer: the
    result reports 4 successes and 1 failure, the third item being the
    failed one, and 4 licenses are recorded by the backend; the purchase
    history of the agent is still empty. *)
Theorem parallel_strategy_appends_no_history :
  let w := Scenario.world Scenario.options_none Scenario.registry5 in
  let out := purchaseBatch (Scenario.rail_rejecting_lane 3)
               Scenario.hashes5 false false w in
  match out.2 with
  | Ok (Parallel purchases successful failed) =>
      List.map io_success purchases = [true; true; false; true; true]
      /\ successful = 4 /\ failed = 1
  | _ => False
  end
  /\ length (submitted out.1) = 5%nat
  /\ spentToday (agent out.1) = 200000
  /\ Scenario.license_count (backend out.1) = 4%nat
  /\ purchaseHistory (agent out.1) = [].
Proof. cbv zeta. repeat split; vm_compute; reflexivity. Qed.

(** *** The atomic strategy *)

(** Whatever the rail does short of confirming the bundle, the agent and
    the backend are as before the call. *)
Lemma atomic_unconfirmed_records_nothing (rail : Rail)
    (infos : list ContentInfo) (w : World) :
  (forall built hash_ receipt,
      batch_calls (clock w) infos = Ok built ->
      sendTransaction rail (submitted w) (List.map snd built)
        (useFeeSponsorship (config (agent w))) = Ok hash_ ->
      waitForTransactionReceipt rail
        (submitted w ++ [Batch (List.map snd built)
                           (useFeeSponsorship (config (agent w)))])%list hash_
      = Ok receipt ->
      status_success receipt = false) ->
  let out := _purchaseBatchAtomic rail infos w in
  (exists e, out.2 = Throw e)
  /\ agent out.1 = agent w /\ backend out.1 = backend w.
Proof.
  intros H. unfold _purchaseBatchAtomic.
  cbv beta iota zeta delta [mbind gets modify lift throw].
  destruct (batch_calls (clock w) infos) as [built|e] eqn:Hb; cbn;
    [|eauto].
  destruct (sendTransaction rail _ _ _) as [hash_|e] eqn:Hs; cbn; [|eauto].
  destruct (waitForTransactionReceipt rail _ _) as [receipt|e] eqn:Hw; cbn;
    [|eauto].
  rewrite (H _ _ _ eq_refl Hs Hw). cbn. eauto.
Qed.

(** C1. On a rail whose bundles are all-or-nothing, an atomic batch
    holding one invalid transfer call fails as a whole: the call throws,
    and the agent (spent amount, purchase history) and the backend
    (licenses, counters) are as before, so no license is recorded for any
    of the items. *)
Theorem atomic_batch_all_or_nothing (valid : Call -> bool) (rail : Rail)
    (infos : list ContentInfo) (w : World) (built : list (string * Call)) :
  all_or_nothing valid rail ->
  batch_calls (clock w) infos = Ok built ->
  (exists c, In c (List.map snd built) /\ valid c = false) ->
  let out := _purchaseBatchAtomic rail infos w in
  (exists e, out.2 = Throw e)
  /\ purchaseHistory (agent out.1) = purchaseHistory (agent w)
  /\ spentToday (agent out.1) = spentToday (agent w)
  /\ Server.licenses (backend out.1) = Server.licenses (backend w)
  /\ backend out.1 = backend w.
Proof.
  intros Hrail Hb (c & Hin & Hc).
  destruct (atomic_unconfirmed_records_nothing rail infos w) as (He & Ha & Hk).
  - intros built' hash_ receipt Hb' Hs Hw.
    assert (built' = built) by congruence. subst built'.
    destruct (status_success receipt) eqn:Hst; [|reflexivity].
    pose proof (Hrail _ _ _ _ _ Hs Hw Hst) as Hall.
    rewrite forallb_forall in Hall. specialize (Hall c Hin). congruence.
  - cbv zeta. rewrite Ha, Hk. auto.
Qed.

Lemma atomic_batch_all_or_nothing_witness :
  let infos := [{| hash := "0xa1"; ci_price := 50000; owner := "0xc0" |};
                {| hash := "0xa2"; ci_price := 50000; owner := "0xc0" |}] in
  let w := Scenario.world Scenario.options_none Scenario.registry5 in
  let out := _purchaseBatchAtomic Scenario.rail_reverting_bundles infos w in
  (exists e, out.2 = Throw e)
  /\ purchaseHistory (agent out.1) = purchaseHistory (agent w)
  /\ spentToday (agent out.1) = spentToday (agent w)
  /\ Server.licenses (backend out.1) = Server.licenses (backend w)
  /\ backend out.1 = backend w.
Proof.
  cbv zeta.
  eapply (atomic_batch_all_or_nothing (fun _ => false)
            Scenario.rail_reverting_bundles).
  - intros log calls sponsored hash_ receipt _ Hw Hst.
    cbn in Hw. injection Hw as <-. discriminate Hst.
  - vm_compute. reflexivity.
  - eexists. split; [left; reflexivity|reflexivity].
Defined.

(** *** The daily ceiling *)

Lemma buy_keeps_prices (now : Z) (body : Server.BuyBody) (st : Server.State) :
  prices_nonneg st -> prices_nonneg (Server.license_buy now body st).1.
Proof.
  intros H. unfold Server.license_buy.
  destruct (_ || _); [exact H|].
  destruct (Server.contentRegistry st !! Server.bb_contentHash body)
    as [c|] eqn:Hc; [|exact H].
  cbn. intros h c'. cbn.
  destruct (decide (Server.bb_contentHash body = h)) as [->|Hne].
  - rewrite lookup_insert_eq. intros [= <-]. cbn. eapply H; eauto.
  - rewrite lookup_insert_ne by assumption. apply H.
Qed.

Lemma batch_item_keeps_prices (now : Z) (holder tx h : string)
    (acc : Server.State * Z * list Server.BatchItem) :
  prices_nonneg acc.1.1 ->
  prices_nonneg (Server.batch_item now holder tx h acc).1.1.
Proof.
  destruct acc as [[st total] res]. cbn. intros H.
  destruct (Server.contentRegistry st !! h) as [c|] eqn:Hc; [|exact H].
  cbn. intros h' c'. cbn.
  destruct (decide (h = h')) as [->|Hne].
  - rewrite lookup_insert_eq. intros [= <-]. cbn. eapply H; eauto.
  - rewrite lookup_insert_ne by assumption. apply H.
Qed.

Lemma batch_keeps_prices (now : Z) (body : Server.BatchBody)
    (st : Server.State) :
  prices_nonneg st -> prices_nonneg (Server.license_batch now body st).1.
Proof.
  intros H. unfold Server.license_batch.
  destruct (Server.tb_contentHashes body) as [|h0 hs0] eqn:Hhs; [exact H|].
  destruct (_ || _); [exact H|].
  assert (Hfold : forall hs acc,
             prices_nonneg acc.1.1 ->
             prices_nonneg
               (fold_left
                  (fun acc hash =>
                     Server.batch_item now (Server.tb_agentAddress body)
                       (Server.tb_txHash body) hash acc) hs acc).1.1).
  { induction hs as [|h hs IH]; intros acc Hacc; cbn; [exact Hacc|].
    apply IH. now apply batch_item_keeps_prices. }
  specialize (Hfold (h0 :: hs0) (st, 0, []) H).
  destruct (fold_left _ _ _) as [[st' total] res]. exact Hfold.
Qed.

Lemma sum_prices_from (infos : list ContentInfo) (acc : Z) :
  fold_left (fun sum info => sum + ci_price info) infos acc
  = acc + sum_prices infos.
Proof.
  unfold sum_prices. revert acc.
  induction infos as [|x l IH]; intros acc; cbn; [lia|].
  rewrite (IH (acc + ci_price x)), (IH (0 + ci_price x)). lia.
Qed.

Lemma sum_prices_cons (x : ContentInfo) (l : list ContentInfo) :
  sum_prices (x :: l) = ci_price x + sum_prices l.
Proof. unfold sum_prices at 1. cbn. now rewrite sum_prices_from. Qed.

Lemma sum_prices_app (l1 l2 : list ContentInfo) :
  sum_prices (l1 ++ l2) = sum_prices l1 + sum_prices l2.
Proof.
  induction l1 as [|x l1 IH]; [reflexivity|].
  cbn [app]. rewrite !sum_prices_cons, IH. lia.
Qed.

Lemma sum_prices_nonneg (l : list ContentInfo) :
  Forall (fun info => 0 <= ci_price info) l -> 0 <= sum_prices l.
Proof.
  induction 1 as [|x l Hx _ IH]; [reflexivity|].
  rewrite sum_prices_cons. lia.
Qed.

(** The price-lookup loop: its total is the sum of the prices it
    collected, and these are prices of the registry. *)
Lemma lookup_prices_total (w : World) (hs : list string) :
  (lookup_prices w hs).1 = sum_prices (lookup_prices w hs).2
  /\ (prices_nonneg (backend w) ->
      Forall (fun info => 0 <= ci_price info) (lookup_prices w hs).2).
Proof.
  unfold lookup_prices.
  assert (Hgen : forall hs (acc : Z * list ContentInfo),
             acc.1 = sum_prices acc.2 ->
             let r := fold_left
               (fun (acc : Z * list ContentInfo) h =>
                  let (total, infos) := acc in
                  match checkContent h w with
                  | Some content =>
                      (total + Server.price content,
                       (infos ++ [{| hash := h;
                                     ci_price := Server.price content;
                                     owner := Server.contentOwner content |}])%list)
                  | None => acc
                  end) hs acc in
             r.1 = sum_prices r.2
             /\ (prices_nonneg (backend w) ->
                 Forall (fun info => 0 <= ci_price info) acc.2 ->
                 Forall (fun info => 0 <= ci_price info) r.2)).
  { clear hs. induction hs as [|h hs IH]; intros [total infos] Hacc.
    - cbn. auto.
    - cbn [fold_left].
      destruct (checkContent h w) as [c|] eqn:Hc.
      + specialize (IH (total + Server.price c,
                        (infos ++ [{| hash := h; ci_price := Server.price c;
                                      owner := Server.contentOwner c |}])%list)).
        cbn [fst snd] in IH, Hacc.
        destruct IH as [IH1 IH2].
        { rewrite sum_prices_app, sum_prices_cons, Hacc.
          change (sum_prices []) with 0. cbn [ci_price]. lia. }
        split; [exact IH1|].
        intros Hp Hall. apply IH2; [exact Hp|].
        apply Forall_app. split; [exact Hall|].
        constructor; [|constructor]. cbn.
        unfold checkContent, Server.get_content in Hc.
        destruct (Server.falsy h); [discriminate|].
        destruct (Server.contentRegistry (backend w) !! h) eqn:Hl;
          [|discriminate].
        injection Hc as <-. eapply Hp; eauto.
      + apply IH. exact Hacc. }
  destruct (Hgen hs (0, [])) as [H1 H2]; [reflexivity|].
  split; [exact H1|]. intros Hp. apply H2; [exact Hp|constructor].
Qed.

Lemma observed_guarded (L : Z) (w : World) :
  0 <= L -> guarded L w -> guarded L (observed w).
Proof.
  intros HL (Hc & Hp & Hs). unfold observed, guarded. cbn.
  unfold _resetDailySpendingIfNeeded.
  destruct (oneDay <? clock w - lastReset (agent w)); cbn; auto.
Qed.

Lemma post_world {A} (route : Server.State -> Server.State * http A)
    (w w' : World) (r : result A) :
  post route w = (w', r) -> w' = with_backend (route (backend w)).1 w.
Proof.
  unfold post. destruct (route (backend w)) as [b x]. now intros [= <- _].
Qed.

(** Case analysis along the branches of a call. *)
Ltac branches :=
  repeat match goal with
         | |- context [match ?x with _ => _ end] =>
             lazymatch x with
             | context [match _ with _ => _ end] => fail
             | _ => destruct x eqn:?
             end
         end;
  cbn [fst snd];
  repeat match goal with
         | H : post _ _ = (?w', _) |- _ => apply post_world in H; subst w'
         end.

Lemma purchaseLicense_guarded (rail : Rail) (L : Z) (h : string)
    (force : bool) (w : World) :
  0 <= L -> guarded L w -> guarded L (purchaseLicense rail h force w).1.
Proof.
  intros HL Hg. apply (observed_guarded L w HL) in Hg.
  unfold purchaseLicense.
  cbv beta iota zeta delta [mbind gets modify ret throw lift transfer].
  change (with_agent (_resetDailySpendingIfNeeded (clock w)) w)
    with (observed w).
  generalize dependent (observed w). clear w. intros w (Hc & Hp & Hs).
  branches; try (split; [|split]; assumption).
  all: split; [exact Hc|split; [now apply buy_keeps_prices|cbn; lia]].
Qed.

Lemma parallel_item_adds (rail : Rail) (i : nat) (info : ContentInfo)
    (w : World) :
  adds_at_most (ci_price info) w (parallel_item rail i info w).1.
Proof.
  unfold parallel_item, adds_at_most.
  cbv beta iota zeta delta [mbind gets modify ret throw lift].
  branches; cbn; auto.
Qed.

Lemma promise_all_adds (g : nat -> ContentInfo -> M ItemOutcome)
    (infos : list ContentInfo) :
  (forall i info w, adds_at_most (ci_price info) w (g i info w).1) ->
  Forall (fun info => 0 <= ci_price info) infos ->
  forall w,
    let w' := (promise_all (imap g infos) w).1 in
    backend w' = backend w
    /\ config (agent w') = config (agent w)
    /\ purchaseHistory (agent w') = purchaseHistory (agent w)
    /\ spentToday (agent w) <= spentToday (agent w')
       <= spentToday (agent w) + sum_prices infos.
Proof.
  intros Hg Hall. revert g Hg.
  induction Hall as [|x l Hx Hl IH]; intros g Hg w.
  - cbn. change (sum_prices []) with 0. repeat split; lia.
  - cbn [imap promise_all].
    destruct (Hg 0%nat x w) as (Hb & Hcfg & Hh & Hsp).
    destruct (g 0%nat x w) as [w1 r1]. cbn [fst] in *.
    specialize (IH (g ∘ S) (fun i => Hg (S i)) w1).
    destruct (promise_all (imap (g ∘ S) l) w1) as [w2 r2]. cbn [fst] in *.
    destruct IH as (Hb2 & Hcfg2 & Hh2 & Hsp2).
    rewrite sum_prices_cons.
    repeat split; try congruence; destruct Hsp; lia.
Qed.

Lemma parallel_guarded (rail : Rail) (L : Z) (infos : list ContentInfo)
    (w : World) :
  guarded L w ->
  Forall (fun info => 0 <= ci_price info) infos ->
  spentToday (agent w) + sum_prices infos <= L ->
  guarded L (_purchaseParallel rail infos w).1.
Proof.
  intros (Hc & Hp & Hs) Hall Hsum.
  pose proof (promise_all_adds (parallel_item rail) infos
                (parallel_item_adds rail) Hall w) as Hpa.
  cbv zeta in Hpa.
  unfold _purchaseParallel.
  cbv beta iota zeta delta [mbind gets modify ret throw lift].
  destruct (promise_all (imap (parallel_item rail) infos) w) as [w1 r1].
  cbn [fst] in Hpa. destruct Hpa as (Hb & Hcfg & _ & Hsp).
  assert (Hg1 : guarded L w1).
  { split; [congruence|]. split; [now rewrite Hb|lia]. }
  clear - Hg1. destruct Hg1 as (Hc & Hp & Hs).
  destruct r1 as [a|e]; [|split; [|split]; assumption].
  destruct (List.filter io_success a) as [|first rest];
    [split; [|split]; assumption|].
  branches.
  all: split; [exact Hc|split; [now apply batch_keeps_prices|cbn; lia]].
Qed.

Lemma atomic_guarded (rail : Rail) (L : Z) (infos : list ContentInfo)
    (w : World) :
  guarded L w ->
  spentToday (agent w) + sum_prices infos <= L ->
  guarded L (_purchaseBatchAtomic rail infos w).1.
Proof.
  intros (Hc & Hp & Hs) Hsum.
  unfold _purchaseBatchAtomic.
  cbv beta iota zeta delta [mbind gets modify ret throw lift].
  branches; try (split; [|split]; assumption).
  all: split; [exact Hc|split; [now apply batch_keeps_prices|cbn; lia]].
Qed.

Lemma sequential_guarded (rail : Rail) (L : Z) (infos : list ContentInfo)
    (w : World) :
  0 <= L -> guarded L w -> guarded L (_purchaseSequential rail infos w).1.
Proof.
  intros HL. unfold _purchaseSequential.
  cbv beta iota zeta delta [mbind ret].
  assert (Hfor : forall w, guarded L w ->
            guarded L
              (for_each (fun info => purchaseLicense rail (hash info) false)
                 infos w).1).
  { induction infos as [|x l IH]; intros w0 Hg; [exact Hg|].
    cbn [for_each]. cbv beta iota zeta delta [mbind ret].
    pose proof (purchaseLicense_guarded rail L (hash x) false w0 HL Hg) as H1.
    destruct (purchaseLicense rail (hash x) false w0) as [w1 [r|e]];
      cbn [fst] in H1; [|exact H1].
    specialize (IH w1 H1).
    destruct (for_each _ l w1) as [w2 [rs|e]]; exact IH. }
  intros Hg. specialize (Hfor w Hg).
  destruct (for_each _ infos w) as [w1 [rs|e]]; exact Hfor.
Qed.

Lemma purchaseBatch_guarded (rail : Rail) (L : Z) (hs : list string)
    (force atomic : bool) (w : World) :
  0 <= L -> guarded L w ->
  guarded L (purchaseBatch rail hs force atomic w).1.
Proof.
  intros HL Hg. apply (observed_guarded L w HL) in Hg.
  unfold purchaseBatch.
  cbv beta iota zeta delta [mbind gets modify ret throw].
  change (with_agent (_resetDailySpendingIfNeeded (clock w)) w)
    with (observed w).
  generalize dependent (observed w). clear w. intros w Hg.
  destruct (List.filter _ hs) as [|h0 hs0]; [exact Hg|].
  destruct (lookup_prices_total w (h0 :: hs0)) as [Htot Hnn].
  destruct (Z.ltb_spec (dailySpendingLimit (config (agent w))
                        - spentToday (agent w))
              (lookup_prices w (h0 :: hs0)).1) as [Hlt|Hge]; [exact Hg|].
  assert (Hsum : spentToday (agent w)
                 + sum_prices (lookup_prices w (h0 :: hs0)).2 <= L).
  { destruct Hg as (Hc & _ & _). rewrite <- Htot. lia. }
  destruct (enableParallel (config (agent w)) && negb atomic).
  - apply parallel_guarded; [exact Hg| |exact Hsum].
    apply Hnn. apply Hg.
  - destruct (enableBatching (config (agent w))).
    + now apply atomic_guarded.
    + now apply sequential_guarded.
Qed.

Lemma step_guarded (rail : Rail) (L : Z) (w : World) (op : Op) :
  0 <= L -> guarded L w -> guarded L (step rail w op).
Proof.
  intros HL Hg. destruct op as [dt|h force|hs force atomic]; cbn [step].
  - exact Hg.
  - now apply purchaseLicense_guarded.
  - now apply purchaseBatch_guarded.
Qed.

Lemma run_guarded (rail : Rail) (L : Z) (ops : list Op) (w : World) :
  0 <= L -> guarded L w -> guarded L (run rail ops w).
Proof.
  intros HL. unfold run. revert w.
  induction ops as [|op ops IH]; intros w Hg; [exact Hg|].
  cbn [fold_left]. apply IH. now apply step_guarded.
Qed.

(** A single purchase whose price would take the spent amount over the
    ceiling ends before anything is submitted, in the world the reset
    left. *)
Lemma purchaseLicense_over_ceiling (rail : Rail) (h : string) (force : bool)
    (w : World) (c : Server.ContentEntry) :
  checkContent h w = Some c ->
  dailySpendingLimit (config (agent w))
    < spentToday (agent (observed w)) + Server.price c ->
  let out := purchaseLicense rail h force w in
  out.1 = observed w
  /\ (out.2 = Ok Skipped
      \/ out.2 = Throw (PriceExceedsMax (Server.price c)
                          (maxPricePerItem (config (agent w))))
      \/ out.2 = Throw DailyLimitExceeded).
Proof.
  intros Hc Hover. unfold purchaseLicense.
  cbv beta iota zeta delta [mbind gets modify ret throw lift transfer].
  change (with_agent (_resetDailySpendingIfNeeded (clock w)) w)
    with (observed w).
  assert (Hc' : checkContent h (observed w) = Some c) by exact Hc.
  assert (Hcfg : config (agent (observed w)) = config (agent w)).
  { unfold observed, _resetDailySpendingIfNeeded. cbn.
    destruct (oneDay <? clock w - lastReset (agent w)); reflexivity. }
  destruct (hasLicense h (observed w) && negb force); cbn; [auto|].
  rewrite Hc', Hcfg.
  destruct (maxPricePerItem (config (agent w)) <? Server.price c); cbn;
    [auto|].
  match goal with
  | |- context [?a <? ?b] => destruct (Z.ltb_spec a b) as [Hlt|Hge]
  end; cbn; [auto|].
  exfalso. unfold observed in Hover. cbn in Hover. lia.
Qed.

(** A batch whose total would take the spent amount over the ceiling
    ends before any strategy runs. *)
Lemma purchaseBatch_over_ceiling (rail : Rail) (hs : list string)
    (force atomic : bool) (w : World) :
  dailySpendingLimit (config (agent w)) - spentToday (agent (observed w))
    < (lookup_prices (observed w) (toPurchase hs force (observed w))).1 ->
  let out := purchaseBatch rail hs force atomic w in
  out.1 = observed w
  /\ (out.2 = Ok BatchSkipped \/ out.2 = Throw BatchLimitExceeded).
Proof.
  intros Hover. unfold purchaseBatch.
  cbv beta iota zeta delta [mbind gets modify ret throw].
  change (with_agent (_resetDailySpendingIfNeeded (clock w)) w)
    with (observed w).
  assert (Hcfg : config (agent (observed w)) = config (agent w)).
  { unfold observed, _resetDailySpendingIfNeeded. cbn.
    destruct (oneDay <? clock w - lastReset (agent w)); reflexivity. }
  unfold toPurchase in Hover.
  destruct (List.filter _ hs) as [|h0 hs0]; cbn [fst snd]; [auto|].
  rewrite Hcfg.
  match goal with
  | |- context [?a <? ?b] => destruct (Z.ltb_spec a b) as [Hlt|Hge]
  end; cbn; [auto|].
  exfalso. unfold observed in Hover, Hge. cbn in Hover, Hge. lia.
Qed.

(** Prices being amounts and the ceiling not negative: whatever the
    rail answers and whatever is bought, singly or in batches, by any
    strategy, the spent amount stays within the daily ceiling. A single
    purchase or a batch that would take it over the ceiling is refused
    before anything is submitted to the rail, and the spent amount is the
    one the ceiling check saw. *)
Theorem spent_stays_within_daily_ceiling (rail : Rail) :
  (forall (ops : list Op) (w : World),
      0 <= dailySpendingLimit (config (agent w)) ->
      prices_nonneg (backend w) ->
      within_ceiling (agent w) ->
      within_ceiling (agent (run rail ops w))
      /\ dailySpendingLimit (config (agent (run rail ops w)))
         = dailySpendingLimit (config (agent w)))
  /\ (forall (h : string) (force : bool) (w : World) (c : Server.ContentEntry),
         checkContent h w = Some c ->
         dailySpendingLimit (config (agent w))
           < spentToday (agent (observed w)) + Server.price c ->
         let out := purchaseLicense rail h force w in
         (forall p r, out.2 <> Ok (Purchased p r))
         /\ submitted out.1 = submitted w
         /\ spentToday (agent out.1) = spentToday (agent (observed w)))
  /\ (forall (hs : list string) (force atomic : bool) (w : World),
         dailySpendingLimit (config (agent w))
           - spentToday (agent (observed w))
           < (lookup_prices (observed w) (toPurchase hs force (observed w))).1 ->
         let out := purchaseBatch rail hs force atomic w in
         (out.2 = Ok BatchSkipped \/ out.2 = Throw BatchLimitExceeded)
         /\ submitted out.1 = submitted w
         /\ spentToday (agent out.1) = spentToday (agent (observed w))).
Proof.
  split; [|split].
  - intros ops w HL Hp Hs.
    destruct (run_guarded rail (dailySpendingLimit (config (agent w))) ops w HL)
      as (Hc' & _ & Hs'); [repeat split; assumption|].
    split; [|exact Hc'].
    unfold within_ceiling. rewrite Hc'. exact Hs'.
  - intros h force w c Hc Hover.
    destruct (purchaseLicense_over_ceiling rail h force w c Hc Hover)
      as [Hw Hr].
    cbv zeta. rewrite Hw. repeat split.
    intros p r Heq. rewrite Heq in Hr.
    destruct Hr as [Hr|[Hr|Hr]]; discriminate.
  - intros hs force atomic w Hover.
    destruct (purchaseBatch_over_ceiling rail hs force atomic w Hover)
      as [Hw Hr].
    cbv zeta. rewrite Hw. repeat split. exact Hr.
Qed.

Lemma spent_stays_within_daily_ceiling_witness :
  let w := Scenario.world Scenario.options_budget Scenario.registry_budget in
  let w1 := run Scenario.rail_accepting [Buy "0xf1" false] w in
  let out := purchaseLicense Scenario.rail_accepting "0xf2" false w1 in
  spentToday (agent w1) = 50000
  /\ within_ceiling (agent w1)
  /\ (forall p r, out.2 <> Ok (Purchased p r))
  /\ submitted out.1 = submitted w1
  /\ spentToday (agent out.1) = spentToday (agent (observed w1)).
Proof.
  cbv zeta.
  destruct (spent_stays_within_daily_ceiling Scenario.rail_accepting)
    as (Hrun & Hone & _).
  split; [vm_compute; reflexivity|]. split.
  - apply Hrun.
    + vm_compute. discriminate.
    + apply map_Forall_lookup.
      apply (bool_decide_unpack _). vm_compute. reflexivity.
    + vm_compute. discriminate.
  - eapply (Hone "0xf2" false _ _).
    + vm_compute. reflexivity.
    + vm_compute. reflexivity.
Defined.

(** C2 (the code departs from it). The register route has stored an
    entry at 150000 and one at -100000; the payer's daily ceiling is
    100000 and nothing is spent. The batch of the two passes the check of
    the total (50000) and the parallel strategy submits both transfers:
    the rail confirms the first and rejects the negative one, and the
    spent amount is 150000, over the ceiling. The sequential strategy,
    which goes through the single purchase and its check of each price
    against what is left of the ceiling, refuses the first item and
    submits nothing. *)
Theorem parallel_batch_overshoots_daily_ceiling :
  let w := Scenario.world Scenario.options_tight Scenario.registry_signed in
  let out :=
    purchaseBatch Scenario.rail_unsigned ["0xb1"; "0xb2"] false false w in
  let v :=
    Scenario.world Scenario.options_tight_sequential Scenario.registry_signed in
  let single :=
    purchaseBatch Scenario.rail_unsigned ["0xb1"; "0xb2"] false false v in
  (Scenario.price_of "0xb1" (backend w) = Some 150000
   /\ Scenario.price_of "0xb2" (backend w) = Some (-100000)
   /\ dailySpendingLimit (config (agent w)) = 100000
   /\ spentToday (agent w) = 0)
  /\ ((exists ps, out.2 = Ok (Parallel ps 1 1))
      /\ Scenario.amounts out.1 = [150000; -100000]
      /\ dailySpendingLimit (config (agent out.1)) = 100000
      /\ spentToday (agent out.1) = 150000
      /\ ~ within_ceiling (agent out.1))
  /\ (single.2 = Throw DailyLimitExceeded
      /\ Scenario.amounts single.1 = []
      /\ spentToday (agent single.1) = 0).
Proof.
  cbv zeta. split; [|split].
  - repeat split; vm_compute; reflexivity.
  - split; [eexists; vm_compute; reflexivity|].
    split; [vm_compute; reflexivity|].
    split; [vm_compute; reflexivity|].
    split; [vm_compute; reflexivity|].
    unfold within_ceiling. vm_compute. intros H. apply H. reflexivity.
  - repeat split; vm_compute; reflexivity.
Qed.

End AgentFacts.

(** ** More on the backend *)

Module BackendFacts.

Import Server.

Lemma falsy_false (s : string) : falsy s = false <-> s <> "".
Proof.
  unfold falsy. destruct (String.eqb_spec s ""); split; intros; congruence.
Qed.

Lemma append_nil (s : string) : "" ++ s = s.
Proof. reflexivity. Qed.

Lemma append_cons (c : ascii) (a s : string) :
  String c a ++ s = String c (a ++ s).
Proof. reflexivity. Qed.

Lemma key_dash_free_inj (a a' h h' : string) :
  dash_free a = true -> dash_free a' = true ->
  licenseKey a h = licenseKey a' h' -> a = a' /\ h = h'.
Proof.
  unfold licenseKey. revert a'.
  induction a as [|x a IH]; intros [|x' a'] Ha Ha' Hk;
    rewrite ?append_cons, ?append_nil in Hk; cbn in Ha, Ha'.
  - injection Hk as ->. auto.
  - injection Hk as <- _. cbn in Ha'. discriminate.
  - injection Hk as -> _. cbn in Ha. discriminate.
  - injection Hk as -> Hk.
    apply andb_true_iff in Ha as [_ Ha]. apply andb_true_iff in Ha' as [_ Ha'].
    destruct (IH a' Ha Ha' Hk) as [-> ->]. auto.
Qed.

(** X1. Holders' addresses holding no ['-']: recording a license for one
    holder and fingerprint leaves the license of every other pair of
    holder and fingerprint as it was. *)
Theorem buy_leaves_other_licenses (now : Z) (body : BuyBody) (st : State)
    (holder h : string) :
  dash_free (bb_agentAddress body) = true ->
  dash_free holder = true ->
  (holder, h) <> (bb_agentAddress body, bb_contentHash body) ->
  stored_license holder h (license_buy now body st).1
  = stored_license holder h st.
Proof.
  intros Hd Hd' Hne. unfold license_buy.
  destruct (_ || _); [reflexivity|].
  destruct (contentRegistry st !! bb_contentHash body); [|reflexivity].
  unfold stored_license. cbn.
  rewrite lookup_insert_ne.
  - destruct (licenses st); [reflexivity|]. cbn. apply lookup_empty.
  - intros Hk. apply key_dash_free_inj in Hk as [H1 H2]; [|assumption..].
    apply Hne. now rewrite H1, H2.
Qed.

Lemma buy_leaves_other_licenses_witness :
  stored_license "0xa9e7" "0xa2"
    (license_buy Scenario.t0
       {| bb_contentHash := "0xa1"; bb_agentAddress := "0xa9e7";
          bb_txHash := "0x7e"; bb_memo := "" |} Scenario.registry5).1
  = stored_license "0xa9e7" "0xa2" Scenario.registry5.
Proof.
  apply buy_leaves_other_licenses; [reflexivity|reflexivity|].
  intros H. discriminate H.
Defined.

(** X2. The key of a license is the holder, a ['-'] and the fingerprint
    put together, so a license for holder [a] and fingerprint [b-c] is the
    license for holder [a-b] and fingerprint [c]: the check answers the
    same for both. *)
Theorem license_key_is_ambiguous (now : Z) (a b c : string) (st : State) :
  checkLicense now (a ++ "-" ++ b) c st = checkLicense now a (b ++ "-" ++ c) st.
Proof.
  assert (Hk : licenseKey (a ++ "-" ++ b) c = licenseKey a (b ++ "-" ++ c)).
  { unfold licenseKey. induction a as [|x a IH];
      rewrite ?append_cons, ?append_nil in *; [reflexivity|].
    now rewrite IH. }
  unfold checkLicense. now rewrite Hk.
Qed.




Lemma coherent_register (now : Z) (body : RegisterBody) (st : State) :
  coherent st -> coherent (register now body st).1.
Proof.
  intros [Hr Hl]. unfold register.
  destruct (falsy (rb_contentHash body)) eqn:Hh; cbn; [split; assumption|].
  destruct (price_falsy (rb_price body) || falsy (rb_contentURI body)
            || falsy (rb_ownerAddress body)); cbn; [split; assumption|].
  apply falsy_false in Hh. split; cbn.
  - intros h c. destruct (decide (rb_contentHash body = h)) as [<-|Hne].
    + rewrite lookup_insert_eq. intros [= <-]. cbn. auto.
    + rewrite lookup_insert_ne by assumption. apply Hr.
  - intros k l Hk. destruct (Hl k l Hk) as (H1 & H2 & H3).
    repeat split; try assumption.
    destruct (decide (rb_contentHash body = lic_contentHash l)) as [<-|Hne].
    + rewrite lookup_insert_eq. eauto.
    + now rewrite lookup_insert_ne.
Qed.

Lemma coherent_issue (now : Z) (holder tx m h : string) (c c' : ContentEntry)
    (st : State) :
  coherent st ->
  contentRegistry st !! h = Some c ->
  contentHash c' = contentHash c -> active c' = active c ->
  holder <> "" ->
  coherent
    (set_content h c'
       (store_license (licenseKey holder h)
          {| lic_agentAddress := holder; lic_contentHash := h;
             lic_txHash := tx; lic_memo := m; pricePaid := price c;
             expiry := now + thirtyDays; lic_createdAt := now |} st)).
Proof.
  intros [Hr Hl] Hc Hh Ha Hne. split; cbn.
  - intros h0 c0. destruct (decide (h = h0)) as [<-|Hd].
    + rewrite lookup_insert_eq. intros [= <-]. rewrite Hh, Ha. eauto.
    + rewrite lookup_insert_ne by assumption. apply Hr.
  - intros k l.
    destruct (decide (licenseKey holder h = k)) as [<-|Hd].
    + rewrite lookup_insert_eq. intros [= <-]. cbn.
      rewrite lookup_insert_eq. eauto.
    + rewrite lookup_insert_ne by assumption. intros Hk.
      destruct (Hl k l Hk) as (H1 & H2 & H3).
      repeat split; try assumption.
      destruct (decide (h = lic_contentHash l)) as [<-|Hd'].
      * rewrite lookup_insert_eq. eauto.
      * now rewrite lookup_insert_ne.
Qed.

Lemma coherent_buy (now : Z) (body : BuyBody) (st : State) :
  coherent st -> coherent (license_buy now body st).1.
Proof.
  intros Hc. unfold license_buy.
  destruct (falsy (bb_contentHash body)); cbn; [assumption|].
  destruct (falsy (bb_agentAddress body)) eqn:Ha; cbn; [assumption|].
  destruct (falsy (bb_txHash body)); cbn; [assumption|].
  destruct (contentRegistry st !! bb_contentHash body) as [c|] eqn:Hl;
    cbn; [|assumption].
  apply falsy_false in Ha.
  now apply (coherent_issue now _ _ _ _ c).
Qed.

Lemma coherent_batch_item (now : Z) (holder tx h : string)
    (acc : State * Z * list BatchItem) :
  holder <> "" -> coherent acc.1.1 ->
  coherent (batch_item now holder tx h acc).1.1.
Proof.
  destruct acc as [[st total] res]. cbn. intros Hne Hc.
  destruct (contentRegistry st !! h) as [c|] eqn:Hl; cbn; [|assumption].
  now apply (coherent_issue now _ _ _ _ c).
Qed.

Lemma coherent_batch (now : Z) (body : BatchBody) (st : State) :
  coherent st -> coherent (license_batch now body st).1.
Proof.
  intros Hc. unfold license_batch.
  destruct (tb_contentHashes body) as [|h0 hs0]; [assumption|].
  destruct (falsy (tb_agentAddress body)) eqn:Ha; cbn; [assumption|].
  destruct (falsy (tb_txHash body)); cbn; [assumption|].
  apply falsy_false in Ha.
  assert (Hfold : forall hs acc,
             coherent acc.1.1 ->
             coherent
               (fold_left
                  (fun acc hash =>
                     batch_item now (tb_agentAddress body)
                       (tb_txHash body) hash acc) hs acc).1.1).
  { induction hs as [|h hs IH]; intros acc Hacc; cbn; [exact Hacc|].
    apply IH. now apply coherent_batch_item. }
  specialize (Hfold (h0 :: hs0) (st, 0, []) Hc).
  destruct (fold_left _ _ _) as [[st' total] res]. exact Hfold.
Qed.

Lemma coherent_access (now : Z) (ua h : string) (body : AccessBody)
    (st : State) (logs : list AccessLog) :
  coherent st -> coherent (access now ua h body st logs).1.1.
Proof.
  intros Hc. unfold access.
  repeat match goal with
         | |- context [match ?x with _ => _ end] =>
             lazymatch x with
             | context [match _ with _ => _ end] => fail
             | _ => destruct x eqn:?
             end
         end; cbn [fst snd]; try assumption.
  destruct Hc as [Hr Hl]. split; cbn.
  - intros h0 c0. destruct (decide (h = h0)) as [<-|Hd].
    + rewrite lookup_insert_eq. intros [= <-]. cbn. eapply Hr; eauto.
    + rewrite lookup_insert_ne by assumption. apply Hr.
  - intros k l0 Hk. destruct (Hl k l0 Hk) as (H1 & H2 & H3).
    repeat split; try assumption.
    destruct (decide (h = lic_contentHash l0)) as [<-|Hd'].
    + rewrite lookup_insert_eq. eauto.
    + now rewrite lookup_insert_ne.
Qed.

(** X4. Whatever requests the backend has served since it started, in
    whatever order and at whatever times: every entry sits under its own
    fingerprint and is active (no route deactivates content), and every
    license sits under the key of its holder and fingerprint, has a holder,
    and belongs to a registered fingerprint. *)
Theorem served_state_is_coherent (reqs : list (Z * Request)) :
  coherent (serve reqs empty).
Proof.
  assert (H0 : coherent empty).
  { split; cbn; intros ? ?; rewrite lookup_empty; discriminate. }
  unfold serve. revert H0. generalize empty.
  induction reqs as [|[now r] reqs IH]; intros st Hst; cbn; [exact Hst|].
  apply IH. destruct r as [b|b|b|ua h b]; cbn.
  - now apply coherent_register.
  - now apply coherent_buy.
  - now apply coherent_batch.
  - now apply coherent_access.
Qed.

(** One turn of the batch route keeps the fingerprints and their prices. *)
Lemma batch_item_keeps_price (now : Z) (holder tx h h' : string)
    (acc : State * Z * list BatchItem) :
  price_or_zero (batch_item now holder tx h acc).1.1 h'
  = price_or_zero acc.1.1 h'
  /\ registered (batch_item now holder tx h acc).1.1 h'
     = registered acc.1.1 h'.
Proof.
  destruct acc as [[st total] res]. cbn.
  destruct (contentRegistry st !! h) as [c|] eqn:Hl; cbn; [|auto].
  unfold price_or_zero, registered. cbn.
  destruct (decide (h = h')) as [<-|Hne].
  - rewrite lookup_insert_eq, Hl. cbn. split; reflexivity.
  - rewrite lookup_insert_ne by assumption. auto.
Qed.

Lemma batch_fold_answer (now : Z) (holder tx : string) (hs : list string) :
  forall (st : State) (total : Z) (res : list BatchItem),
    let out := fold_left (fun acc hash => batch_item now holder tx hash acc)
                 hs (st, total, res) in
    out.1.2 = total + foldr (fun h sum => price_or_zero st h + sum) 0 hs
    /\ out.2 = (res ++ List.map (fun h => {| bi_contentHash := h;
                                             bi_success := registered st h |})
                         hs)%list.
Proof.
  induction hs as [|h hs IH]; intros st total res.
  - cbn. split; [lia|now rewrite app_nil_r].
  - cbn [fold_left foldr List.map].
    pose proof (fun h' => batch_item_keeps_price now holder tx h h'
                            (st, total, res)) as Hk.
    destruct (batch_item now holder tx h (st, total, res))
      as [[st1 total1] res1] eqn:Hb.
    cbn [fst snd] in Hk.
    destruct (IH st1 total1 res1) as [H1 H2]. cbv zeta. rewrite H1, H2.
    assert (Hsum : foldr (fun h0 sum => price_or_zero st1 h0 + sum) 0 hs
                   = foldr (fun h0 sum => price_or_zero st h0 + sum) 0 hs).
    { clear -Hk. induction hs as [|x l IHl]; cbn; [reflexivity|].
      rewrite IHl. now destruct (Hk x) as [-> _]. }
    assert (Hmap : List.map (fun h0 => {| bi_contentHash := h0;
                                          bi_success := registered st1 h0 |}) hs
                   = List.map (fun h0 => {| bi_contentHash := h0;
                                            bi_success := registered st h0 |}) hs).
    { apply map_ext. intros x. now destruct (Hk x) as [_ ->]. }
    rewrite Hsum, Hmap.
    unfold batch_item in Hb. unfold price_or_zero at 2, registered at 2.
    destruct (contentRegistry st !! h) as [c|]; injection Hb as <- <- <-; cbn.
    + split; [lia|]. rewrite <- app_assoc. reflexivity.
    + split; [lia|]. rewrite <- app_assoc. reflexivity.
Qed.

(** X5. The batch route, given fingerprints, a holder and a transaction
    reference, always answers success: it reports one result per
    fingerprint, in order, successful exactly for the registered ones, and
    a total that is the sum of the prices of the registered ones; the
    unregistered ones are only reported. *)
Theorem batch_route_answer (now : Z) (body : BatchBody) (st : State) :
  tb_contentHashes body <> [] ->
  tb_agentAddress body <> "" ->
  tb_txHash body <> "" ->
  (license_batch now body st).2
  = Json {| totalItems := length (tb_contentHashes body);
            totalPrice := foldr (fun h sum => price_or_zero st h + sum) 0
                            (tb_contentHashes body);
            results := List.map (fun h => {| bi_contentHash := h;
                                             bi_success := registered st h |})
                         (tb_contentHashes body) |}.
Proof.
  intros Hhs Ha Ht. unfold license_batch.
  destruct (tb_contentHashes body) as [|h0 hs0] eqn:Hl; [contradiction|].
  apply falsy_false in Ha, Ht. rewrite Ha, Ht. cbn [orb].
  destruct (batch_fold_answer now (tb_agentAddress body) (tb_txHash body)
              (h0 :: hs0) st 0 []) as [H1 H2].
  destruct (fold_left _ (h0 :: hs0) (st, 0, [])) as [[st' total] res].
  cbn [fst snd] in H1, H2. cbn [snd]. rewrite H1, H2.
  reflexivity.
Qed.

Lemma batch_route_answer_witness :
  (license_batch Scenario.t0
     {| tb_contentHashes := ["0xa1"; "0xb0"; "0xa2"];
        tb_agentAddress := "0xa9e7"; tb_txHash := "0x7e" |}
     Scenario.registry5).2
  = Json {| totalItems := 3;
            totalPrice := 100000;
            results := [{| bi_contentHash := "0xa1"; bi_success := true |};
                        {| bi_contentHash := "0xb0"; bi_success := false |};
                        {| bi_contentHash := "0xa2"; bi_success := true |}] |}.
Proof.
  rewrite batch_route_answer; [vm_compute; reflexivity|discriminate..].
Defined.

(** X6. A request for a registered, active fingerprint. A caller that is
    not a crawler is let in without a license and nothing changes. A
    crawler is let in exactly when it sends its address, a signature and a
    timestamp, the timestamp is not more than 300 seconds from the
    server's clock or is not read as a number by [parseInt] (the
    comparison with [NaN] is false, so such a timestamp passes), and it
    holds a license in force; then the access is counted once and logged.
    Otherwise it is answered 402 with the current price, or 403 for a
    timestamp that is off by more, and nothing changes. *)
Theorem access_lets_in (now : Z) (ua h : string) (body : AccessBody)
    (st : State) (logs : list AccessLog) (c : ContentEntry) :
  h <> "" ->
  contentRegistry st !! h = Some c ->
  active c = true ->
  let out := access now ua h body st logs in
  (isAICrawler ua = false ->
   out = (st, logs, Allowed "Regular user access" (contentURI c) None))
  /\ (isAICrawler ua = true -> licensed_call now h body st = true ->
      exists l,
        checkLicense now (ab_agentAddress body) h st = Some l
        /\ out = (count_access h c st,
                  (logs ++ [{| al_contentHash := h;
                               al_agentAddress := ab_agentAddress body;
                               al_timestamp := now |}])%list,
                  Allowed "Valid license" (contentURI c) (Some (expiry l))))
  /\ (isAICrawler ua = true -> licensed_call now h body st = false ->
      out.1 = (st, logs)
      /\ ((exists code ins, out.2 = PaymentRequired code (price c) ins)
          \/ out.2 = Refused 403 "SIGNATURE_EXPIRED")).
Proof.
  intros Hh Hc Ha. apply falsy_false in Hh.
  unfold access, licensed_call. rewrite Hh, Hc, Ha. cbn [negb].
  split; [|split].
  - intros ->. reflexivity.
  - intros -> Hl. cbn [negb].
    destruct (falsy (ab_agentAddress body));
      [cbn [negb andb] in Hl; discriminate|].
    destruct (falsy (ab_signature body));
      [cbn [negb andb] in Hl; discriminate|].
    destruct (timestamp_falsy (ab_timestamp body));
      [cbn [negb andb] in Hl; discriminate|].
    destruct (signature_expired (now / 1000) (ab_timestamp body));
      [cbn [negb andb] in Hl; discriminate|].
    cbn [negb andb] in Hl |- *.
    apply bool_decide_eq_true in Hl as [l Hl]. rewrite Hl. eauto.
  - intros -> Hl. cbn [negb].
    destruct (falsy (ab_agentAddress body)); cbn [fst snd]; [eauto|].
    destruct (negb (falsy (ab_signature body))
              && negb (timestamp_falsy (ab_timestamp body))) eqn:Hs;
      cbn [fst snd]; [|eauto].
    destruct (signature_expired (now / 1000) (ab_timestamp body));
      cbn [fst snd]; [eauto|].
    destruct (checkLicense now (ab_agentAddress body) h st) as [l|] eqn:Hk;
      cbn [fst snd]; [|eauto].
    exfalso. cbn [negb andb] in Hl.
    apply andb_true_iff in Hs as [H1 H2]. rewrite H1, H2 in Hl.
    cbn [negb andb] in Hl.
    apply bool_decide_eq_false in Hl. apply Hl. eauto.
Qed.

Lemma access_lets_in_witness :
  let body := {| ab_agentAddress := "0xa9e7"; ab_signature := "0x51";
                 ab_timestamp := TNumber (Scenario.t0 / 1000) |} in
  (access Scenario.t0 "Mozilla/5.0" "0xa1" body Scenario.registry_sold []).2
  = Allowed "Regular user access" "https://example.org/0xa1" None
  /\ (access Scenario.t0 "AI-Agent-Crawler" "0xa1" body
        Scenario.registry_sold []).2
     = Allowed "Valid license" "https://example.org/0xa1"
         (Some (Scenario.t0 + thirtyDays)).
Proof.
  cbv zeta.
  edestruct (access_lets_in Scenario.t0 "Mozilla/5.0" "0xa1"
               {| ab_agentAddress := "0xa9e7"; ab_signature := "0x51";
                  ab_timestamp := TNumber (Scenario.t0 / 1000) |}
               Scenario.registry_sold []) as (H1 & _ & _);
    [discriminate|vm_compute; reflexivity|reflexivity|].
  edestruct (access_lets_in Scenario.t0 "AI-Agent-Crawler" "0xa1"
               {| ab_agentAddress := "0xa9e7"; ab_signature := "0x51";
                  ab_timestamp := TNumber (Scenario.t0 / 1000) |}
               Scenario.registry_sold []) as (_ & H2 & _);
    [discriminate|vm_compute; reflexivity|reflexivity|].
  split.
  - rewrite H1; [reflexivity|vm_compute; reflexivity].
  - destruct H2 as (l & Hl & ->); [vm_compute; reflexivity..|].
    cbn [snd]. vm_compute in Hl. injection Hl as <-. reflexivity.
Defined.

(** *** Statistics *)





(** X8. Registering, when all four fields are given: the entry is then
    what a price query returns, with its revenue and access count at 0;
    the entries of other fingerprints and all licenses stay as they were -
    a license bought for the fingerprint before stays in force - and the
    number of entries grows by one exactly when the fingerprint was not
    registered before. *)
Theorem register_then_query (now : Z) (body : RegisterBody) (st : State)
    (e : ContentEntry) :
  (register now body st).2 = Json e ->
  let st' := (register now body st).1 in
  get_content (rb_contentHash body) st' = Json e
  /\ price e = price_BigInt (rb_price body)
  /\ totalRevenue e = 0 /\ accessCount e = 0 /\ active e = true
  /\ (forall h, h <> rb_contentHash body ->
                get_content h st' = get_content h st)
  /\ licenses st' = licenses st
  /\ totalContent (analytics st')
     = (if registered st (rb_contentHash body)
        then totalContent (analytics st)
        else S (totalContent (analytics st))).
Proof.
  unfold register.
  destruct (falsy (rb_contentHash body)) eqn:Hh; cbn [orb snd fst];
    [discriminate|].
  destruct (price_falsy (rb_price body) || falsy (rb_contentURI body)
            || falsy (rb_ownerAddress body)); cbn [snd fst]; [discriminate|].
  intros [= <-]. unfold get_content. rewrite Hh. cbn.
  rewrite lookup_insert_eq. repeat split.
  - intros h Hne. destruct (falsy h); [reflexivity|].
    now rewrite lookup_insert_ne.
  - unfold registered.
    destruct (contentRegistry st !! rb_contentHash body) as [c|] eqn:Hc; cbn.
    + apply map_size_insert_Some. eauto.
    + now apply map_size_insert_None.
Qed.

Lemma register_then_query_witness :
  get_content "0xa1"
    (register (Scenario.t0 + 1) Scenario.body_again Scenario.registry_sold).1
  = Json {| contentHash := "0xa1"; price := -7; contentOwner := "0xee";
            contentURI := "https://example.org/other"; active := true;
            totalRevenue := 0; accessCount := 0;
            createdAt := Scenario.t0 + 1 |}
  /\ licenses
       (register (Scenario.t0 + 1) Scenario.body_again Scenario.registry_sold).1
     = licenses Scenario.registry_sold.
Proof.
  edestruct (register_then_query (Scenario.t0 + 1) Scenario.body_again
               Scenario.registry_sold) as (H1 & _ & _ & _ & _ & _ & H2 & _);
    [vm_compute; reflexivity|].
  split; [exact H1|exact H2].
Defined.

End BackendFacts.

(** ** More on the agent *)

Module OrchestratorFacts.

Import Agent AgentFacts.

Lemma observed_fields (w : World) :
  backend (observed w) = backend w
  /\ submitted (observed w) = submitted w
  /\ clock (observed w) = clock w
  /\ config (agent (observed w)) = config (agent w)
  /\ address (agent (observed w)) = address (agent w)
  /\ purchaseHistory (agent (observed w)) = purchaseHistory (agent w).
Proof.
  unfold observed, _resetDailySpendingIfNeeded. cbn.
  destruct (oneDay <? clock w - lastReset (agent w)); cbn; auto 10.
Qed.







Lemma info_of_some (w : World) (h : string) (c : Server.ContentEntry) :
  checkContent h w = Some c ->
  info_of w h = Some {| hash := h; ci_price := Server.price c;
                        owner := Server.contentOwner c |}.
Proof. unfold info_of. now intros ->. Qed.

Lemma info_of_none (w : World) (h : string) :
  checkContent h w = None -> info_of w h = None.
Proof. unfold info_of. now intros ->. Qed.

(** The price-lookup loop, said at once. *)
Lemma lookup_prices_omap (w : World) (hs : list string) :
  lookup_prices w hs
  = (sum_prices (omap (info_of w) hs), omap (info_of w) hs).
Proof.
  unfold lookup_prices.
  assert (Hgen : forall hs (total : Z) (infos : list ContentInfo),
             fold_left
               (fun (acc : Z * list ContentInfo) h =>
                  let (total, infos) := acc in
                  match checkContent h w with
                  | Some content =>
                      (total + Server.price content,
                       (infos ++ [{| hash := h;
                                     ci_price := Server.price content;
                                     owner := Server.contentOwner content |}])%list)
                  | None => acc
                  end) hs (total, infos)
             = (total + sum_prices (omap (info_of w) hs),
                (infos ++ omap (info_of w) hs)%list)).
  { clear hs. induction hs as [|h hs IH]; intros total infos.
    - cbn. change (sum_prices []) with 0. rewrite app_nil_r. f_equal. lia.
    - cbn [fold_left omap list_omap].
      destruct (checkContent h w) as [c|] eqn:Hc.
      + rewrite (info_of_some _ _ _ Hc).
        rewrite IH, sum_prices_cons, <- app_assoc. cbn [ci_price app].
        f_equal. lia.
      + rewrite (info_of_none _ _ Hc). apply IH. }
  rewrite Hgen. cbn. f_equal.
Qed.

Lemma omap_filter_known (w : World) (p : string -> bool) (hs : list string) :
  omap (info_of w) (List.filter p (List.filter (known w) hs))
  = omap (info_of w) (List.filter p hs).
Proof.
  induction hs as [|h hs IH]; [reflexivity|].
  cbn [List.filter]. unfold known at 1.
  destruct (checkContent h w) as [c|] eqn:Hc.
  - rewrite bool_decide_eq_true_2 by eauto. cbn [List.filter].
    destruct (p h); cbn [omap list_omap]; [|exact IH].
    rewrite (info_of_some _ _ _ Hc). now rewrite IH.
  - rewrite bool_decide_eq_false_2 by (intros [? ?]; discriminate).
    destruct (p h); cbn [omap list_omap]; [|exact IH].
    rewrite (info_of_none _ _ Hc). exact IH.
Qed.

(** X11. Fingerprints the backend does not know are dropped from a batch,
    in every strategy: as long as one known fingerprint is left to buy,
    the call does exactly what it does without them. *)
Theorem batch_drops_unknown (rail : Rail) (hs : list string)
    (force atomic : bool) (w : World) :
  toPurchase (List.filter (known w) hs) force (observed w) <> [] ->
  purchaseBatch rail hs force atomic w
  = purchaseBatch rail (List.filter (known w) hs) force atomic w.
Proof.
  intros Hne. unfold purchaseBatch.
  cbv beta iota zeta delta [mbind gets modify ret throw].
  change (with_agent (_resetDailySpendingIfNeeded (clock w)) w)
    with (observed w).
  assert (Hk : known (observed w) = known w) by reflexivity.
  unfold toPurchase in Hne.
  pose proof (omap_filter_known (observed w)
                (fun h => negb (hasLicense h (observed w)) || force) hs) as Ho.
  rewrite Hk in Ho.
  set (p := fun h => negb (hasLicense h (observed w)) || force) in *.
  destruct (List.filter p (List.filter (known w) hs)) as [|h2 t2] eqn:H2;
    [contradiction|].
  destruct (List.filter p hs) as [|h1 t1] eqn:H1.
  - exfalso. clear -H1 H2.
    assert (Hin : In h2 (List.filter p hs)).
    { assert (Hin2 : In h2 (h2 :: t2)) by now left.
      rewrite <- H2 in Hin2. apply filter_In in Hin2 as [Hin2 Hp].
      apply filter_In in Hin2 as [Hin2 _]. apply filter_In. auto. }
    rewrite H1 in Hin. destruct Hin.
  - rewrite !lookup_prices_omap, Ho. reflexivity.
Qed.

Lemma batch_drops_unknown_witness :
  let w := Scenario.world Scenario.options_none Scenario.registry5 in
  purchaseBatch Scenario.rail_accepting ["0xb0"; "0xa1"; "0xb1"] false false w
  = purchaseBatch Scenario.rail_accepting ["0xa1"] false false w.
Proof.
  cbv zeta.
  rewrite batch_drops_unknown; [reflexivity|].
  vm_compute. discriminate.
Defined.

Lemma parallel_item_spec (rail : Rail) (i : nat) (info : ContentInfo)
    (w : World) :
  let out := parallel_item rail i info w in
  same_but_spent w out.1
  /\ (forall o, out.2 = Ok o ->
        io_contentHash o = hash info /\ io_price o = ci_price info
        /\ spentToday (agent out.1)
           = spentToday (agent w) + (if io_success o then ci_price info else 0))
  /\ (is_ok (Memo._encodeMemo (hash info) (clock w) i) = true ->
      is_ok out.2 = true
      /\ submitted out.1
         = (submitted w ++ [lane_transfer (agent w) (clock w) i info])%list).
Proof.
  unfold parallel_item, same_but_spent, lane_transfer, tag_of.
  cbv beta iota zeta delta [mbind gets modify ret throw lift].
  destruct (Memo._encodeMemo (hash info) (clock w) i) as [m|e]; cbn.
  - destruct (transferSync rail _ _) as [r|e]; cbn.
    + split; [repeat split|split].
      * intros o [= <-]. cbn. repeat split; lia.
      * intros _. replace (i + 1)%nat with (S i) by lia.
        split; reflexivity.
    + split; [repeat split|split].
      * intros o [= <-]. cbn. repeat split; lia.
      * intros _. replace (i + 1)%nat with (S i) by lia.
        split; reflexivity.
  - split; [repeat split|split]; discriminate.
Qed.

Lemma parallel_all (rail : Rail) (infos : list ContentInfo) :
  forall (k : nat) (w : World),
    let out := promise_all
                 (imap (fun i => parallel_item rail (k + i)) infos) w in
    same_but_spent w out.1
    /\ (forall ps, out.2 = Ok ps ->
          List.map io_contentHash ps = List.map hash infos
          /\ List.map io_price ps = List.map ci_price infos
          /\ spentToday (agent out.1) = spentToday (agent w) + paid ps)
    /\ ((forall i info, infos !! i = Some info ->
           is_ok (Memo._encodeMemo (hash info) (clock w) (k + i)) = true) ->
        is_ok out.2 = true
        /\ submitted out.1
           = (submitted w
              ++ imap (fun i => lane_transfer (agent w) (clock w) (k + i))
                   infos)%list).
Proof.
  induction infos as [|x l IH]; intros k w.
  - cbn. unfold same_but_spent. split; [repeat split|split].
    + intros ps [= <-]. cbn. repeat split. lia.
    + intros _. split; [reflexivity|now rewrite app_nil_r].
  - cbn [imap promise_all].
    destruct (parallel_item_spec rail (k + 0) x w) as (Hf & Ho & Hm).
    destruct (parallel_item rail (k + 0) x w) as [w1 r1]. cbn [fst snd] in *.
    assert (Hext : imap ((fun i => parallel_item rail (k + i)) ∘ S) l
                   = imap (fun i => parallel_item rail (S k + i)) l).
    { apply imap_ext. intros i y _. cbn. f_equal. lia. }
    rewrite Hext. specialize (IH (S k) w1).
    destruct (promise_all _ w1) as [w2 r2]. cbn [fst snd] in IH.
    destruct IH as (Hf2 & Ho2 & Hm2).
    destruct Hf as (F1 & F2 & F3 & F4 & F5 & F6).
    destruct Hf2 as (G1 & G2 & G3 & G4 & G5 & G6).
    cbv zeta. cbn [fst snd].
    split; [|split].
    + unfold same_but_spent. repeat split; congruence.
    + intros ps Hps. destruct r1 as [o|e]; [|discriminate].
      destruct r2 as [os|e]; [|discriminate]. injection Hps as <-.
      destruct (Ho o eq_refl) as (H1 & H2 & H3).
      destruct (Ho2 os eq_refl) as (H4 & H5 & H6).
      cbn [List.map paid fold_right]. rewrite H1, H2, H4, H5, H6, H3.
      repeat split. fold (paid os).
      rewrite <- H2. destruct (io_success o); lia.
    + intros Henc.
      destruct Hm as [Hok1 Hsub1].
      { specialize (Henc 0%nat x eq_refl). exact Henc. }
      destruct Hm2 as [Hok2 Hsub2].
      { intros i info Hi. rewrite G1 || rewrite F1.
        replace (S k + i)%nat with (k + S i)%nat by lia.
        apply (Henc (S i) info). exact Hi. }
      split.
      * destruct r1; [|discriminate]. destruct r2; [|discriminate].
        reflexivity.
      * rewrite Hsub2, Hsub1, <- app_assoc. f_equal. cbn [imap app]. f_equal.
        apply imap_ext. intros i y _. unfold compose, lane_transfer.
        rewrite F1, F3. replace (S k + i)%nat with (k + S i)%nat by lia.
        reflexivity.
Qed.

Lemma lanes_from (a : State) (t : Z) (l : list ContentInfo) :
  forall k,
    List.map lane_of (imap (fun i => lane_transfer a t (k + i)) l)
    = List.map Some (seq (S k) (length l)).
Proof.
  induction l as [|x l IH]; intros k; [reflexivity|].
  cbn [imap List.map length seq lane_of lane_transfer nonceKey].
  replace (k + 0)%nat with k by lia. f_equal.
  rewrite <- (IH (S k)). f_equal. apply imap_ext.
  intros i y _. unfold compose. f_equal. lia.
Qed.

(** X12. The parallel strategy, when every tag encodes: one transfer per
    item is submitted, in input order, to the owner of the item and for
    its price, and the item at index [i] goes on ordering lane [i + 1], so
    that the lanes of a call are 1, 2, ..., n, all different. *)
Theorem parallel_lanes (rail : Rail) (infos : list ContentInfo) (w : World) :
  tags_encode (clock w) infos ->
  let out := _purchaseParallel rail infos w in
  submitted out.1
  = (submitted w ++ imap (lane_transfer (agent w) (clock w)) infos)%list
  /\ List.map lane_of (imap (lane_transfer (agent w) (clock w)) infos)
     = List.map Some (seq 1 (length infos)).
Proof.
  intros Henc. split; [|apply (lanes_from (agent w) (clock w) infos 0)].
  destruct (parallel_all rail infos 0 w) as (_ & _ & Hm).
  destruct Hm as [Hok Hsub]; [exact Henc|].
  unfold _purchaseParallel.
  cbv beta iota zeta delta [mbind gets modify ret throw lift].
  change (imap (fun i => parallel_item rail (0 + i)) infos)
    with (imap (parallel_item rail) infos) in *.
  destruct (promise_all (imap (parallel_item rail) infos) w) as [w1 [ps|e]];
    cbn [fst snd] in *; [|discriminate].
  destruct (List.filter io_success ps) as [|o os]; [exact Hsub|].
  branches; exact Hsub.
Qed.

Lemma parallel_lanes_witness :
  let w := Scenario.world Scenario.options_none Scenario.registry5 in
  let infos := (lookup_prices w Scenario.hashes5).2 in
  List.map lane_of
    (submitted (_purchaseParallel (Scenario.rail_rejecting_lane 3) infos w).1)
  = [Some 1; Some 2; Some 3; Some 4; Some 5]%nat.
Proof.
  cbv zeta.
  edestruct (parallel_lanes (Scenario.rail_rejecting_lane 3)
               (lookup_prices
                  (Scenario.world Scenario.options_none Scenario.registry5)
                  Scenario.hashes5).2
               (Scenario.world Scenario.options_none Scenario.registry5))
    as [H1 H2].
  - intros index info Hi.
    do 5 (destruct index as [|index];
          [vm_compute in Hi; injection Hi as <-; vm_compute; reflexivity|]).
    vm_compute in Hi. discriminate.
  - rewrite H1. cbn [submitted Scenario.world app]. rewrite H2.
    vm_compute. reflexivity.
Defined.

(** X13. The parallel strategy, when it returns: it reports one outcome
    per item, in input order, with the item's fingerprint and price; the
    successes and the failures it counts add up to the number of items;
    the spent amount has grown by exactly the prices of the successful
    items; a failed item costs nothing; and when no item succeeded the
    backend was told nothing. *)
Theorem parallel_accounts (rail : Rail) (infos : list ContentInfo)
    (w w' : World) (ps : list ItemOutcome) (s f : Z) :
  _purchaseParallel rail infos w = (w', Ok (Parallel ps s f)) ->
  List.map io_contentHash ps = List.map hash infos
  /\ List.map io_price ps = List.map ci_price infos
  /\ s = Z.of_nat (length (List.filter io_success ps))
  /\ s + f = Z.of_nat (length infos)
  /\ spentToday (agent w') = spentToday (agent w) + paid ps
  /\ (s = 0 -> backend w' = backend w).
Proof.
  destruct (parallel_all rail infos 0 w) as (Hf & Ho & _).
  unfold _purchaseParallel.
  cbv beta iota zeta delta [mbind gets modify ret throw lift].
  change (imap (fun i => parallel_item rail (0 + i)) infos)
    with (imap (parallel_item rail) infos) in *.
  destruct (promise_all (imap (parallel_item rail) infos) w) as [w1 [ps1|e]];
    cbn [fst snd] in *; [|discriminate].
  destruct (Ho ps1 eq_refl) as (H1 & H2 & H3).
  destruct Hf as (F1 & F2 & F3 & F4 & F5 & F6).
  destruct (List.filter io_success ps1) as [|o os] eqn:Hfil.
  - intros [= <- <- <- <-]. rewrite Hfil. cbn. repeat split; try assumption.
    + lia.
    + intros _. assumption.
  - unfold post.
    match goal with
    | |- context [Server.license_batch ?n ?b ?st] =>
        destruct (Server.license_batch n b st) as [b' [a|code msg]]
    end; [|discriminate].
    intros [= <- <- <- <-]. rewrite Hfil. cbn [agent with_backend].
    repeat split; try assumption; try lia.
Qed.

Lemma parallel_accounts_witness :
  let w := Scenario.world Scenario.options_none Scenario.registry5 in
  let out := _purchaseParallel (Scenario.rail_rejecting_lane 3)
               (lookup_prices w Scenario.hashes5).2 w in
  spentToday (agent out.1) = 200000.
Proof.
  cbv zeta.
  destruct (_purchaseParallel (Scenario.rail_rejecting_lane 3)
              (lookup_prices
                 (Scenario.world Scenario.options_none Scenario.registry5)
                 Scenario.hashes5).2
              (Scenario.world Scenario.options_none Scenario.registry5))
    as [w' res] eqn:Hrun.
  assert (Hres : exists ps s f, res = Ok (Parallel ps s f)
                                /\ paid ps = 200000).
  { vm_compute in Hrun. injection Hrun as _ <-.
    do 3 eexists. split; [reflexivity|]. vm_compute. reflexivity. }
  destruct Hres as (ps & s & f & -> & Hpaid).
  destruct (parallel_accounts _ _ _ _ _ _ _ Hrun) as (_ & _ & _ & _ & Hs & _).
  cbn [fst]. rewrite Hs, Hpaid. reflexivity.
Defined.

Lemma map_result_tags (t : Z) (infos : list ContentInfo) :
  forall (k : nat) (built : list (string * Call)),
    map_result (fun x => x)
      (imap (fun index info =>
               match Memo._encodeMemo (hash info) t (k + index) with
               | Throw e => Throw e
               | Ok memo_ =>
                   Ok (memo_,
                       {| call_to := alphaUsd;
                          data := _encodeTransferCall (owner info)
                                    (ci_price info) memo_ |})
               end) infos) = Ok built ->
    List.map fst built
    = imap (fun index info => tag_of (hash info) t (k + index)) infos.
Proof.
  induction infos as [|x l IH]; intros k built.
  - cbn. now intros [= <-].
  - cbn [imap map_result]. unfold tag_of at 1.
    destruct (Memo._encodeMemo (hash x) t (k + 0)) as [m|e]; [|discriminate].
    match goal with
    | |- context [map_result ?f ?l0] => destruct (map_result f l0) as [bs|e] eqn:Hbs
    end; [|discriminate].
    intros [= <-]. cbn [List.map fst]. f_equal.
    rewrite (IH (S k) bs).
    + apply imap_ext. intros i y _. unfold compose. f_equal. lia.
    + rewrite <- Hbs. f_equal. apply imap_ext. intros i y _. unfold compose.
      replace (S k + i)%nat with (k + S i)%nat by lia. reflexivity.
Qed.

Lemma batch_calls_tags (t : Z) (infos : list ContentInfo)
    (built : list (string * Call)) :
  batch_calls t infos = Ok built ->
  List.map fst built = imap (fun index info => tag_of (hash info) t index) infos.
Proof. intros H. exact (map_result_tags t infos 0 built H). Qed.

(** X14. The atomic strategy, when the rail confirms the bundle: one
    bundle holding one call per item has been submitted; the spent amount
    has grown by the sum of the prices; one history entry per item has
    been appended, in input order, under the hash of the bundle and with
    the item's tag; and the call returns them, unless the batch is empty,
    in which case the backend refuses the report with status 400. *)
Theorem atomic_confirmed_accounts (rail : Rail) (infos : list ContentInfo)
    (w : World) (built : list (string * Call)) (hash_ : string)
    (receipt : Receipt) :
  let sponsored := useFeeSponsorship (config (agent w)) in
  let bundle := Batch (List.map snd built) sponsored in
  batch_calls (clock w) infos = Ok built ->
  sendTransaction rail (submitted w) (List.map snd built) sponsored = Ok hash_ ->
  waitForTransactionReceipt rail (submitted w ++ [bundle])%list hash_
  = Ok receipt ->
  status_success receipt = true ->
  let out := _purchaseBatchAtomic rail infos w in
  let purchases := batch_purchases hash_ (clock w) infos in
  submitted out.1 = (submitted w ++ [bundle])%list
  /\ length (List.map snd built) = length infos
  /\ spentToday (agent out.1) = spentToday (agent w) + sum_prices infos
  /\ purchaseHistory (agent out.1)
     = (purchaseHistory (agent w) ++ purchases)%list
  /\ (infos <> [] -> address (agent w) <> "" -> hash_ <> "" ->
      out.2 = Ok (AtomicBatch purchases (sum_prices infos) receipt))
  /\ (infos = [] -> out.2 = Throw (HttpError 400)).
Proof.
  cbv zeta. intros Hb Hs Hw Hst.
  pose proof (batch_calls_tags _ _ _ Hb) as Htags.
  assert (Hlen : length (List.map snd built) = length infos).
  { rewrite length_map, <- (length_map fst), Htags. apply length_imap. }
  assert (Hp : imap (fun index info =>
                       {| contentHash := hash info; price := ci_price info;
                          txHash := hash_; timestamp := clock w;
                          p_blockNumber := None;
                          p_memo := default "" (List.map fst built !! index) |})
                 infos
               = batch_purchases hash_ (clock w) infos).
  { unfold batch_purchases. apply imap_ext. intros i y Hi. f_equal.
    rewrite Htags, list_lookup_imap, Hi. reflexivity. }
  unfold _purchaseBatchAtomic.
  cbv beta iota zeta delta [mbind gets modify ret throw lift].
  rewrite Hb. cbn [fst snd agent config submit submitted].
  rewrite Hs. cbn [fst snd agent config submit submitted].
  rewrite Hw, Hst. cbn [negb].
  cbn [with_agent agent clock address backend push_history add_spent
       set_spending].
  rewrite Hp. unfold post.
  cbn [with_agent agent clock address backend push_history add_spent
       set_spending submit].
  match goal with
  | |- context [Server.license_batch ?n ?b ?st] =>
      destruct (Server.license_batch n b st) as [b' [a|code msg]] eqn:Hpost
  end; cbn [fst snd with_backend agent submitted spentToday purchaseHistory].
  - repeat split; try assumption; try reflexivity.
    intros ->. unfold Server.license_batch in Hpost. cbn in Hpost.
    discriminate.
  - repeat split; try assumption; try reflexivity.
    + intros Hne Ha Hh. exfalso.
      unfold Server.license_batch in Hpost.
      cbn [Server.tb_contentHashes Server.tb_agentAddress Server.tb_txHash]
        in Hpost.
      destruct infos as [|x l]; [contradiction|]. cbn [List.map] in Hpost.
      apply BackendFacts.falsy_false in Ha, Hh. rewrite Ha, Hh in Hpost.
      cbn [orb] in Hpost.
      destruct (fold_left _ _ _) as [[st' total] res]. discriminate.
    + intros ->. unfold Server.license_batch in Hpost. cbn in Hpost.
      now injection Hpost as _ <- _.
Qed.

Lemma atomic_confirmed_accounts_witness :
  let w := Scenario.world Scenario.options_none Scenario.registry5 in
  let infos := (lookup_prices w ["0xa1"; "0xa2"]).2 in
  let out := _purchaseBatchAtomic Scenario.rail_accepting infos w in
  spentToday (agent out.1) = 100000
  /\ length (purchaseHistory (agent out.1)) = 2%nat.
Proof.
  cbv zeta.
  edestruct (atomic_confirmed_accounts Scenario.rail_accepting
               (lookup_prices
                  (Scenario.world Scenario.options_none Scenario.registry5)
                  ["0xa1"; "0xa2"]).2
               (Scenario.world Scenario.options_none Scenario.registry5))
    as (_ & _ & H1 & H2 & _).
  - vm_compute. reflexivity.
  - reflexivity.
  - reflexivity.
  - reflexivity.
  - rewrite H1, H2. split; vm_compute; reflexivity.
Defined.

Lemma nothing_recorded_refl (w : World) : nothing_recorded w w.
Proof. unfold nothing_recorded. auto. Qed.

Lemma nothing_recorded_trans (w1 w2 w3 : World) :
  nothing_recorded w1 w2 -> nothing_recorded w2 w3 -> nothing_recorded w1 w3.
Proof.
  intros (A1 & A2 & A3 & A4) (B1 & B2 & B3 & B4). unfold nothing_recorded.
  repeat split; try congruence.
  destruct A4, B4; [left|right|right|right]; congruence.
Qed.

Lemma nothing_recorded_observed (w : World) : nothing_recorded w (observed w).
Proof.
  unfold nothing_recorded, observed, _resetDailySpendingIfNeeded. cbn.
  destruct (oneDay <? clock w - lastReset (agent w)); cbn; auto.
Qed.

Lemma rejected_purchase (rail : Rail) (h : string) (force : bool) (w : World) :
  rejecting rail ->
  nothing_recorded w (purchaseLicense rail h force w).1
  /\ forall p r, (purchaseLicense rail h force w).2 <> Ok (Purchased p r).
Proof.
  intros [Hr _].
  assert (Hobs := nothing_recorded_observed w).
  unfold purchaseLicense.
  cbv beta iota zeta delta [mbind gets modify ret throw lift transfer].
  change (with_agent (_resetDailySpendingIfNeeded (clock w)) w)
    with (observed w).
  generalize dependent (observed w). intros w0 Hobs.
  branches; try (split; [exact Hobs|intros ? ?; discriminate]).
  all: match goal with
       | H : transferSync _ ?l ?q = Ok _, Hr : forall _ _, _ = false |- _ =>
           specialize (Hr l q); rewrite H in Hr; discriminate
       | _ => idtac
       end.
  all: split; [|intros ? ?; discriminate].
  all: eapply nothing_recorded_trans; [exact Hobs|].
  all: unfold nothing_recorded; cbn; auto.
Qed.

Lemma rejected_parallel_all (rail : Rail) (infos : list ContentInfo) :
  rejecting rail ->
  forall (k : nat) (w : World),
    let out := promise_all
                 (imap (fun i => parallel_item rail (k + i)) infos) w in
    agent out.1 = agent w /\ backend out.1 = backend w
    /\ forall ps, out.2 = Ok ps -> List.filter io_success ps = [].
Proof.
  intros [Hr _]. induction infos as [|x l IH]; intros k w.
  - cbn. repeat split. now intros ps [= <-].
  - cbn [imap promise_all].
    assert (Hitem : agent (parallel_item rail (k + 0) x w).1 = agent w
                    /\ backend (parallel_item rail (k + 0) x w).1 = backend w
                    /\ forall o, (parallel_item rail (k + 0) x w).2 = Ok o ->
                                 io_success o = false).
    { unfold parallel_item.
      cbv beta iota zeta delta [mbind gets modify ret throw lift].
      destruct (Memo._encodeMemo _ _ _); cbn; [|repeat split; discriminate].
      match goal with
      | |- context [transferSync rail ?lg ?q] =>
          specialize (Hr lg q); destruct (transferSync rail lg q)
      end; [discriminate|].
      cbn. repeat split. now intros o [= <-]. }
    destruct (parallel_item rail (k + 0) x w) as [w1 r1]. cbn [fst snd] in *.
    assert (Hext : imap ((fun i => parallel_item rail (k + i)) ∘ S) l
                   = imap (fun i => parallel_item rail (S k + i)) l).
    { apply imap_ext. intros i y _. cbn. f_equal. lia. }
    rewrite Hext. specialize (IH (S k) w1).
    destruct (promise_all _ w1) as [w2 r2]. cbn [fst snd] in IH.
    cbv zeta. cbn [fst snd].
    destruct Hitem as (A1 & A2 & A3). destruct IH as (B1 & B2 & B3).
    repeat split; try congruence.
    intros ps Hps. destruct r1 as [o|e]; [|discriminate].
    destruct r2 as [os|e]; [|discriminate]. injection Hps as <-.
    cbn [List.filter]. rewrite (A3 o eq_refl). now apply B3.
Qed.

Lemma rejected_batch (rail : Rail) (hs : list string) (force atomic : bool)
    (w : World) :
  rejecting rail ->
  nothing_recorded w (purchaseBatch rail hs force atomic w).1.
Proof.
  intros Hrej.
  assert (Hobs := nothing_recorded_observed w).
  unfold purchaseBatch.
  cbv beta iota zeta delta [mbind gets modify ret throw].
  change (with_agent (_resetDailySpendingIfNeeded (clock w)) w)
    with (observed w).
  generalize dependent (observed w). intros w0 Hobs.
  destruct (List.filter _ hs) as [|h0 hs0]; [exact Hobs|].
  destruct (_ <? _); [exact Hobs|].
  eapply nothing_recorded_trans; [exact Hobs|].
  generalize (lookup_prices w0 (h0 :: hs0)).2. intros infos.
  destruct (enableParallel (config (agent w0)) && negb atomic).
  - destruct (rejected_parallel_all rail infos Hrej 0 w0) as (Ha & Hb & Hps).
    unfold _purchaseParallel.
    cbv beta iota zeta delta [mbind gets modify ret throw lift].
    change (imap (fun i => parallel_item rail (0 + i)) infos)
      with (imap (parallel_item rail) infos) in *.
    destruct (promise_all (imap (parallel_item rail) infos) w0)
      as [w1 [ps|e]]; cbn [fst snd] in *.
    + rewrite (Hps ps eq_refl). cbn. unfold nothing_recorded.
      rewrite Ha, Hb. auto.
    + unfold nothing_recorded. rewrite Ha, Hb. auto.
  - destruct (enableBatching (config (agent w0))).
    + destruct (atomic_unconfirmed_records_nothing rail infos w0)
        as (_ & Ha & Hb).
      * intros built hash_ receipt _ Hs. destruct Hrej as [_ Hrej].
        specialize (Hrej (submitted w0) (List.map snd built)
                      (useFeeSponsorship (config (agent w0)))).
        rewrite Hs in Hrej. discriminate.
      * unfold nothing_recorded. rewrite Ha, Hb. auto.
    + unfold _purchaseSequential. cbv beta iota zeta delta [mbind ret].
      assert (Hfor : forall w1,
                nothing_recorded w1
                  (for_each (fun info => purchaseLicense rail (hash info) false)
                     infos w1).1).
      { induction infos as [|x l IH]; intros w1;
          [apply nothing_recorded_refl|].
        cbn [for_each]. cbv beta iota zeta delta [mbind ret].
        destruct (rejected_purchase rail (hash x) false w1 Hrej) as [H1 _].
        destruct (purchaseLicense rail (hash x) false w1) as [w2 [r|e]];
          cbn [fst] in H1; [|exact H1].
        specialize (IH w2).
        destruct (for_each _ l w2) as [w3 [rs|e]]; cbn [fst] in *;
          eapply nothing_recorded_trans; eauto. }
      specialize (Hfor w0).
      destruct (for_each _ infos w0) as [w1 [rs|e]]; exact Hfor.
Qed.

(** X15. On a rail that confirms nothing, whatever the agent is asked to
    buy, singly or in batches, by whatever strategy and however often: no
    license reaches the backend, no purchase reaches the history, and the
    spent amount does not grow. *)
Theorem nothing_recorded_without_confirmation (rail : Rail) (ops : list Op)
    (w : World) :
  rejecting rail ->
  backend (run rail ops w) = backend w
  /\ purchaseHistory (agent (run rail ops w)) = purchaseHistory (agent w)
  /\ (spentToday (agent (run rail ops w)) = spentToday (agent w)
      \/ spentToday (agent (run rail ops w)) = 0).
Proof.
  intros Hrej.
  assert (H : nothing_recorded w (run rail ops w)).
  { unfold run. revert w. induction ops as [|op ops IH]; intros w;
      [apply nothing_recorded_refl|].
    cbn [fold_left]. eapply nothing_recorded_trans; [|apply IH].
    destruct op as [dt|h force|hs force atomic]; cbn [step].
    - unfold nothing_recorded. cbn. auto.
    - now apply rejected_purchase.
    - now apply rejected_batch. }
  destruct H as (H1 & H2 & _ & H3). auto.
Qed.

Lemma nothing_recorded_without_confirmation_witness :
  let w := Scenario.world Scenario.options_none Scenario.registry5 in
  let w' := run Scenario.rail_down
              [Buy "0xa1" false; BuyBatch Scenario.hashes5 false false;
               BuyBatch Scenario.hashes5 false true] w in
  backend w' = backend w /\ purchaseHistory (agent w') = [].
Proof.
  cbv zeta.
  destruct (nothing_recorded_without_confirmation Scenario.rail_down
              [Buy "0xa1" false; BuyBatch Scenario.hashes5 false false;
               BuyBatch Scenario.hashes5 false true]
              (Scenario.world Scenario.options_none Scenario.registry5))
    as (H1 & H2 & _).
  - split; intros; reflexivity.
  - split; [exact H1|exact H2].
Defined.

(** X16. A batch none of whose fingerprints the backend knows, the spent
    amount being within the ceiling. The parallel strategy returns an empty
    report and the sequential strategy an empty list, nothing submitted.
    The atomic strategy submits a bundle of no calls to the rail all the
    same, and cannot return: when the rail confirms the empty bundle the
    backend refuses the empty report with status 400. *)
Theorem batch_of_unknown_fingerprints (rail : Rail) (hs : list string)
    (force atomic : bool) (w : World) :
  toPurchase hs force (observed w) <> [] ->
  (forall h, In h hs -> known w h = false) ->
  within_ceiling (agent (observed w)) ->
  let out := purchaseBatch rail hs force atomic w in
  let cfg := config (agent w) in
  (enableParallel cfg && negb atomic = true ->
   out = (observed w, Ok (Parallel [] 0 0)))
  /\ (enableParallel cfg && negb atomic = false -> enableBatching cfg = false ->
      out = (observed w, Ok (Sequential [])))
  /\ (enableParallel cfg && negb atomic = false -> enableBatching cfg = true ->
      submitted out.1
      = (submitted w ++ [Batch [] (useFeeSponsorship cfg)])%list
      /\ forall res, out.2 <> Ok res).
Proof.
  intros Hne Hunk Hin. cbv zeta.
  destruct (observed_fields w) as (Hb & Hs & Hk & Hcfg & Ha & Hh).
  assert (Hinfos : lookup_prices (observed w) (toPurchase hs force (observed w))
                   = (0, [])).
  { rewrite lookup_prices_omap. unfold toPurchase.
    assert (Ho : forall l, (forall h, In h l -> known w h = false) ->
                           omap (info_of (observed w)) l = []).
    { induction l as [|x l IH]; intros Hl; [reflexivity|].
      cbn [omap list_omap].
      assert (Hx : known w x = false) by (apply Hl; now left).
      unfold known in Hx. apply bool_decide_eq_false in Hx.
      rewrite info_of_none.
      - apply IH. intros h Hh'. apply Hl. now right.
      - change (checkContent x (observed w)) with (checkContent x w).
        destruct (checkContent x w); [exfalso; apply Hx; eauto|reflexivity]. }
    rewrite Ho; [reflexivity|].
    intros h Hh'. apply filter_In in Hh' as [Hh' _]. now apply Hunk. }
  unfold purchaseBatch.
  cbv beta iota zeta delta [mbind gets modify ret throw].
  change (with_agent (_resetDailySpendingIfNeeded (clock w)) w)
    with (observed w).
  unfold toPurchase in Hne, Hinfos.
  destruct (List.filter _ hs) as [|h0 hs0]; [contradiction|].
  rewrite Hinfos. cbn [fst snd].
  unfold within_ceiling in Hin.
  destruct (Z.ltb_spec (dailySpendingLimit (config (agent (observed w)))
                        - spentToday (agent (observed w))) 0); [lia|].
  rewrite Hcfg.
  split; [|split].
  - intros ->. reflexivity.
  - intros -> ->. reflexivity.
  - intros -> ->. unfold _purchaseBatchAtomic.
    cbv beta iota zeta delta [mbind gets modify ret throw lift].
    cbn [batch_calls imap map_result List.map fst snd].
    rewrite Hcfg.
    destruct (sendTransaction rail _ _ _) as [hash_|e]; cbn [fst snd];
      [|cbn -[observed]; rewrite Hs; split; [reflexivity|discriminate]].
    destruct (waitForTransactionReceipt rail _ _) as [receipt|e];
      cbn [fst snd];
      [|cbn -[observed]; rewrite Hs; split; [reflexivity|discriminate]].
    destruct (status_success receipt); cbn [negb fst snd];
      [|cbn -[observed]; rewrite Hs; split; [reflexivity|discriminate]].
    cbn -[observed]. rewrite Hs. split; [reflexivity|discriminate].
Qed.

Lemma batch_of_unknown_fingerprints_witness :
  let w := Scenario.world Scenario.options_none Scenario.registry5 in
  purchaseBatch Scenario.rail_accepting ["0xb0"; "0xb1"] false false w
  = (observed w, Ok (Parallel [] 0 0))
  /\ forall res,
      (purchaseBatch Scenario.rail_accepting ["0xb0"; "0xb1"] false true w).2
      <> Ok res.
Proof.
  cbv zeta.
  split.
  - edestruct (batch_of_unknown_fingerprints Scenario.rail_accepting
                 ["0xb0"; "0xb1"] false false
                 (Scenario.world Scenario.options_none Scenario.registry5))
      as (H1 & _ & _).
    + vm_compute. discriminate.
    + intros h [<-|[<-|[]]]; vm_compute; reflexivity.
    + vm_compute. discriminate.
    + apply H1. reflexivity.
  - edestruct (batch_of_unknown_fingerprints Scenario.rail_accepting
                 ["0xb0"; "0xb1"] false true
                 (Scenario.world Scenario.options_none Scenario.registry5))
      as (_ & _ & H3).
    + vm_compute. discriminate.
    + intros h [<-|[<-|[]]]; vm_compute; reflexivity.
    + vm_compute. discriminate.
    + apply H3; reflexivity.
Defined.

(** *** The history and the statistics *)

Lemma history_observed (w : World) :
  purchaseHistory (agent (observed w)) = purchaseHistory (agent w).
Proof. apply observed_fields. Qed.

Lemma purchase_extends_history (rail : Rail) (h : string) (force : bool)
    (w : World) :
  purchaseHistory (agent w)
    `prefix_of` purchaseHistory (agent (purchaseLicense rail h force w).1).
Proof.
  rewrite <- (history_observed w).
  unfold purchaseLicense.
  cbv beta iota zeta delta [mbind gets modify ret throw lift transfer].
  change (with_agent (_resetDailySpendingIfNeeded (clock w)) w)
    with (observed w).
  generalize (observed w). clear w. intros w.
  branches; try reflexivity; cbn; now apply prefix_app_r.
Qed.

Lemma batch_extends_history (rail : Rail) (hs : list string)
    (force atomic : bool) (w : World) :
  purchaseHistory (agent w)
    `prefix_of` purchaseHistory (agent (purchaseBatch rail hs force atomic w).1).
Proof.
  rewrite <- (history_observed w).
  unfold purchaseBatch.
  cbv beta iota zeta delta [mbind gets modify ret throw].
  change (with_agent (_resetDailySpendingIfNeeded (clock w)) w)
    with (observed w).
  generalize (observed w). clear w. intros w.
  destruct (List.filter _ hs) as [|h0 hs0]; [reflexivity|].
  destruct (_ <? _); [reflexivity|].
  generalize (lookup_prices w (h0 :: hs0)).2. intros infos.
  destruct (enableParallel (config (agent w)) && negb atomic).
  - destruct (parallel_all rail infos 0 w) as (Hf & _ & _).
    unfold _purchaseParallel.
    cbv beta iota zeta delta [mbind gets modify ret throw lift].
    change (imap (fun i => parallel_item rail (0 + i)) infos)
      with (imap (parallel_item rail) infos) in *.
    destruct (promise_all (imap (parallel_item rail) infos) w) as [w1 r1].
    cbn [fst snd] in *. destruct Hf as (_ & _ & _ & _ & F5 & _).
    rewrite <- F5. clear.
    destruct r1 as [ps|e]; [|reflexivity].
    destruct (List.filter io_success ps); [reflexivity|].
    branches; reflexivity.
  - destruct (enableBatching (config (agent w))).
    + unfold _purchaseBatchAtomic.
      cbv beta iota zeta delta [mbind gets modify ret throw lift].
      branches; try reflexivity; cbn; now apply prefix_app_r.
    + unfold _purchaseSequential. cbv beta iota zeta delta [mbind ret].
      assert (Hfor : forall w1,
                purchaseHistory (agent w1)
                  `prefix_of`
                  purchaseHistory
                    (agent (for_each
                              (fun info => purchaseLicense rail (hash info) false)
                              infos w1).1)).
      { induction infos as [|x l IH]; intros w1; [reflexivity|].
        cbn [for_each]. cbv beta iota zeta delta [mbind ret].
        pose proof (purchase_extends_history rail (hash x) false w1) as H1.
        destruct (purchaseLicense rail (hash x) false w1) as [w2 [r|e]];
          cbn [fst] in H1; [|exact H1].
        specialize (IH w2).
        destruct (for_each _ l w2) as [w3 [rs|e]]; cbn [fst] in *;
          etransitivity; eauto. }
      specialize (Hfor w).
      destruct (for_each _ infos w) as [w1 [rs|e]]; exact Hfor.
Qed.

(** X17. The purchase history only grows: whatever the agent is asked and
    whatever the rail answers, the history afterwards begins with the
    history before; no entry is changed or removed. *)
Theorem history_is_append_only (rail : Rail) (ops : list Op) (w : World) :
  purchaseHistory (agent w)
    `prefix_of` purchaseHistory (agent (run rail ops w)).
Proof.
  unfold run. revert w. induction ops as [|op ops IH]; intros w;
    [reflexivity|].
  cbn [fold_left]. etransitivity; [|apply IH].
  destruct op as [dt|h force|hs force atomic]; cbn [step].
  - reflexivity.
  - apply purchase_extends_history.
  - apply batch_extends_history.
Qed.

(** X18. The statistics of an agent, after any calls made from a state
    within a non-negative ceiling, prices being amounts: what remains for
    the day is the ceiling less the spent amount and is never negative;
    the history shown is the last ten purchases, or all of them if there
    are fewer, and the count is of all of them. *)
Theorem stats_after_calls (rail : Rail) (ops : list Op) (w : World) :
  0 <= dailySpendingLimit (config (agent w)) ->
  prices_nonneg (backend w) ->
  within_ceiling (agent w) ->
  let a := agent (run rail ops w) in
  let s := getStats a in
  0 <= remainingToday s
  /\ dailyLimit s = dailySpendingLimit (config (agent w))
  /\ st_spentToday s + remainingToday s = dailyLimit s
  /\ length (recentHistory s) = Nat.min 10 (totalPurchases s)
  /\ exists older,
      purchaseHistory a = (older ++ recentHistory s)%list
      /\ length older = (totalPurchases s - 10)%nat.
Proof.
  intros HL Hp Hs. cbv zeta.
  destruct (run_guarded rail (dailySpendingLimit (config (agent w))) ops w HL)
    as (Hc' & _ & Hs'); [repeat split; assumption|].
  unfold getStats.
  cbn [remainingToday dailyLimit st_spentToday recentHistory totalPurchases].
  unfold slice_last.
  repeat split; try lia.
  - rewrite length_drop.
    destruct (Nat.min_spec 10 (length (purchaseHistory
                                         (agent (run rail ops w)))))
      as [[? ->]|[? ->]]; lia.
  - exists (take (length (purchaseHistory (agent (run rail ops w))) - 10)
              (purchaseHistory (agent (run rail ops w)))).
    split; [now rewrite take_drop|].
    rewrite length_take. lia.
Qed.

Lemma stats_after_calls_witness :
  let w := Scenario.world Scenario.options_budget Scenario.registry_budget in
  let s := getStats (agent (run Scenario.rail_accepting
                              [Buy "0xf1" false; Buy "0xf2" false] w)) in
  0 <= remainingToday s /\ dailyLimit s = 100000.
Proof.
  cbv zeta.
  destruct (stats_after_calls Scenario.rail_accepting
              [Buy "0xf1" false; Buy "0xf2" false]
              (Scenario.world Scenario.options_budget Scenario.registry_budget))
    as (H1 & H2 & _).
  - vm_compute. discriminate.
  - apply map_Forall_lookup.
    apply (bool_decide_unpack _). vm_compute. reflexivity.
  - vm_compute. discriminate.
  - split; [exact H1|]. rewrite H2. reflexivity.
Defined.

(** X19. A new agent has spent nothing, has an empty history and a window
    that starts now. Neither ceiling can be configured as zero: a ceiling
    given as [0n] is replaced by its default ($10 an item, $100 a day),
    like one that is not given; any other value is taken as it is. Fee
    sponsorship, batching and parallel payments are on unless given as
    [false]. *)
Theorem new_agent_configuration (addr : string) (now : Z) (o : Options) :
  let a := new addr now o in
  spentToday a = 0 /\ purchaseHistory a = [] /\ lastReset a = now
  /\ maxPricePerItem (config a) <> 0
  /\ dailySpendingLimit (config a) <> 0
  /\ (forall v, o_dailySpendingLimit o = Some v ->
        dailySpendingLimit (config a) = if v =? 0 then 100000000 else v)
  /\ (forall v, o_maxPricePerItem o = Some v ->
        maxPricePerItem (config a) = if v =? 0 then 10000000 else v)
  /\ (o_dailySpendingLimit o = None ->
      dailySpendingLimit (config a) = 100000000)
  /\ (o_maxPricePerItem o = None -> maxPricePerItem (config a) = 10000000)
  /\ (useFeeSponsorship (config a) = false <->
      o_useFeeSponsorship o = Some false)
  /\ (enableBatching (config a) = false <-> o_enableBatching o = Some false)
  /\ (enableParallel (config a) = false <-> o_enableParallel o = Some false).
Proof.
  cbv zeta. unfold new, or_default, not_false. cbn.
  repeat split.
  - destruct (o_maxPricePerItem o) as [v|]; [|discriminate].
    destruct (Z.eqb_spec v 0); [discriminate|assumption].
  - destruct (o_dailySpendingLimit o) as [v|]; [|discriminate].
    destruct (Z.eqb_spec v 0); [discriminate|assumption].
  - now intros v ->.
  - now intros v ->.
  - now intros ->.
  - now intros ->.
  - destruct (o_useFeeSponsorship o) as [[]|]; intros; congruence.
  - now intros ->.
  - destruct (o_enableBatching o) as [[]|]; intros; congruence.
  - now intros ->.
  - destruct (o_enableParallel o) as [[]|]; intros; congruence.
  - now intros ->.
Qed.

Lemma new_agent_configuration_witness :
  dailySpendingLimit
    (config (new "0xa9e7" Scenario.t0
               {| o_maxPricePerItem := None; o_dailySpendingLimit := Some 0;
                  o_useFeeSponsorship := None; o_enableBatching := None;
                  o_enableParallel := None |})) = 100000000.
Proof.
  edestruct (new_agent_configuration "0xa9e7" Scenario.t0
               {| o_maxPricePerItem := None; o_dailySpendingLimit := Some 0;
                  o_useFeeSponsorship := None; o_enableBatching := None;
                  o_enableParallel := None |})
    as (_ & _ & _ & _ & _ & H & _).
  rewrite (H 0 eq_refl). reflexivity.
Defined.

(** *** Retrieval *)




End OrchestratorFacts.

(** ** More on tracking tags *)

Module TagFacts.

Import Viem Memo MemoFacts.

Lemma app_nil_s (s : string) : "" ++ s = s.
Proof. reflexivity. Qed.

Lemma app_cons_s (c : ascii) (a s : string) :
  String c a ++ s = String c (a ++ s).
Proof. reflexivity. Qed.

Lemma append_cancel_l (p x y : string) : p ++ x = p ++ y -> x = y.
Proof.
  induction p as [|c p IH]; rewrite ?app_cons_s, ?app_nil_s; [easy|].
  intros [= H]. now apply IH.
Qed.

Lemma encodeMemo_form (h : string) (t : Z) (i : nat) :
  _encodeMemo h t i
  = if (32 <? String.length (memoStr h t i))%nat
    then Throw SizeExceedsPaddingSizeError
    else Ok ("0x" ++ repeat_char "0" (64 - 2 * String.length (memoStr h t i))
                  ++ bytesToHex (memoStr h t i)).
Proof.
  unfold _encodeMemo. rewrite pad_stringToHex, length_slice0.
  destruct (Nat.ltb_spec 32 (String.length (memoStr h t i))) as [Hlt|Hle].
  - destruct (Nat.ltb_spec 32 (Nat.min 64 (String.length (memoStr h t i))));
      [reflexivity|lia].
  - destruct (Nat.ltb_spec 32 (Nat.min 64 (String.length (memoStr h t i))));
      [lia|].
    unfold slice0. rewrite substring_all by lia.
    unfold padStart. rewrite length_bytesToHex. reflexivity.
Qed.

(** X21. The encoder never truncates. When the derived string has at most
    32 characters the tag is ["0x"], zeros, and the bytes of the whole
    derived string in hex, 64 digits in all; when it has more, the encoder
    raises an error. The cut at 64 characters changes no tag that is
    produced. *)
Theorem encodeMemo_pads_or_throws (h : string) (t : Z) (i : nat) :
  _encodeMemo h t i
  = if (32 <? String.length (memoStr h t i))%nat
    then Throw SizeExceedsPaddingSizeError
    else Ok ("0x" ++ repeat_char "0" (64 - 2 * String.length (memoStr h t i))
                  ++ bytesToHex (memoStr h t i)).
Proof. apply encodeMemo_form. Qed.

Lemma hex_digit_inj (a b : nat) :
  (a < 16)%nat -> (b < 16)%nat -> hex_digit a = hex_digit b -> a = b.
Proof.
  intros Ha Hb.
  do 16 (destruct a as [|a]; [
    do 16 (destruct b as [|b]; [intros H; first [reflexivity|discriminate H]|]);
    lia|]).
  lia.
Qed.

Lemma byte_to_hex_inj (c c' : ascii) : byte_to_hex c = byte_to_hex c' -> c = c'.
Proof.
  unfold byte_to_hex.
  pose proof (nat_ascii_bounded c) as Hc.
  pose proof (nat_ascii_bounded c') as Hc'.
  pose proof (Nat.div_mod_eq (nat_of_ascii c) 16) as Ec.
  pose proof (Nat.div_mod_eq (nat_of_ascii c') 16) as Ec'.
  pose proof (Nat.mod_upper_bound (nat_of_ascii c) 16) as Mc.
  pose proof (Nat.mod_upper_bound (nat_of_ascii c') 16) as Mc'.
  remember (nat_of_ascii c / 16)%nat as a.
  remember (nat_of_ascii c' / 16)%nat as a'.
  remember (nat_of_ascii c mod 16)%nat as b.
  remember (nat_of_ascii c' mod 16)%nat as b'.
  intros [= H1 H2].
  apply hex_digit_inj in H1; [|lia|lia].
  apply hex_digit_inj in H2; [|lia|lia].
  rewrite <- (ascii_nat_embedding c), <- (ascii_nat_embedding c').
  f_equal. lia.
Qed.

Lemma bytesToHex_inj (s s' : string) : bytesToHex s = bytesToHex s' -> s = s'.
Proof.
  revert s'. induction s as [|c s IH]; intros [|c' s'];
    cbn [bytesToHex]; unfold byte_to_hex; rewrite ?app_cons_s, ?app_nil_s;
    try discriminate; [reflexivity|].
  remember (hex_digit (nat_of_ascii c / 16)) as a1.
  remember (hex_digit (nat_of_ascii c mod 16)) as a2.
  remember (hex_digit (nat_of_ascii c' / 16)) as b1.
  remember (hex_digit (nat_of_ascii c' mod 16)) as b2.
  intros [= H1 H2 H3].
  f_equal; [|now apply IH].
  apply byte_to_hex_inj. unfold byte_to_hex. congruence.
Qed.

Lemma dec_inj (z z' : Z) : dec z = dec z' -> z = z'.
Proof.
  unfold dec. intros H.
  assert (Hnn : forall z, Z.to_int z <> Decimal.Pos Decimal.Nil
                          /\ Z.to_int z <> Decimal.Neg Decimal.Nil).
  { intros [|q|q]; cbn; split; try discriminate;
      intros [= Hq]; now apply (Unsigned.to_uint_nonnil q). }
  assert (Hi : Some (Z.to_int z) = Some (Z.to_int z')).
  { rewrite <- (NilZero.isi (Z.to_int z)) by apply Hnn.
    rewrite <- (NilZero.isi (Z.to_int z')) by apply Hnn.
    now rewrite H. }
  injection Hi as Hi.
  rewrite <- (DecimalZ.of_to z), <- (DecimalZ.of_to z'). now rewrite Hi.
Qed.

Lemma zeros_then_four (n n' : nat) (x y : string) :
  repeat_char "0" n ++ String "4" x = repeat_char "0" n' ++ String "4" y ->
  x = y.
Proof.
  revert n'. induction n as [|n IH]; intros [|n']; cbn [repeat_char];
    rewrite ?app_cons_s, ?app_nil_s.
  - intros H. congruence.
  - discriminate.
  - discriminate.
  - intros H. apply (IH n'). congruence.
Qed.

Lemma bytesToHex_cons (c : ascii) (s : string) :
  bytesToHex (String c s) = byte_to_hex c ++ bytesToHex s.
Proof. reflexivity. Qed.

Lemma tag_body_inj (n n' : nat) (r r' : string) :
  "0x" ++ repeat_char "0" n ++ bytesToHex ("LICENSE:" ++ r)
  = "0x" ++ repeat_char "0" n' ++ bytesToHex ("LICENSE:" ++ r') ->
  r = r'.
Proof.
  intros H. apply append_cancel_l in H.
  change ("LICENSE:" ++ r) with (String "L" ("ICENSE:" ++ r)) in H.
  change ("LICENSE:" ++ r') with (String "L" ("ICENSE:" ++ r')) in H.
  rewrite !bytesToHex_cons in H.
  change (byte_to_hex "L") with (String "4" "c") in H.
  rewrite !app_cons_s in H.
  apply zeros_then_four in H.
  assert (H' : bytesToHex (String "L" ("ICENSE:" ++ r))
               = bytesToHex (String "L" ("ICENSE:" ++ r'))).
  { rewrite !bytesToHex_cons.
    change (byte_to_hex "L") with (String "4" "c").
    rewrite !app_cons_s. now rewrite H. }
  apply bytesToHex_inj in H'.
  apply (append_cancel_l "LICENSE:"). exact H'.
Qed.

(** X22. Two items of one call never share a tag: for one fingerprint and
    one timestamp, tags that the encoder produces for different indices
    are different. *)
Theorem tags_differ_by_index (h : string) (t : Z) (i j : nat) (m : string) :
  i <> j -> _encodeMemo h t i = Ok m -> _encodeMemo h t j <> Ok m.
Proof.
  intros Hne. rewrite !encodeMemo_form.
  destruct (32 <? String.length (memoStr h t i))%nat; [discriminate|].
  destruct (32 <? String.length (memoStr h t j))%nat; [discriminate|].
  intros Hi Hj. apply Hne.
  assert (H : "0x" ++ repeat_char "0" (64 - 2 * String.length (memoStr h t i))
                   ++ bytesToHex (memoStr h t i)
              = "0x" ++ repeat_char "0"
                          (64 - 2 * String.length (memoStr h t j))
                     ++ bytesToHex (memoStr h t j)) by congruence.
  clear Hi Hj.
  generalize dependent (64 - 2 * String.length (memoStr h t i))%nat.
  generalize (64 - 2 * String.length (memoStr h t j))%nat.
  intros n' n H.
  unfold memoStr in H. apply tag_body_inj in H.
  apply append_cancel_l in H. apply (append_cancel_l ":") in H.
  apply append_cancel_l in H. apply (append_cancel_l ":") in H.
  apply dec_inj in H. lia.
Qed.

Lemma tags_differ_by_index_witness :
  _encodeMemo "0xa1" Scenario.t0 1
  <> Ok "0x000000004c4943454e53453a307861313a313730303030303030303030303a30".
Proof.
  apply (tags_differ_by_index "0xa1" Scenario.t0 0 1).
  - discriminate.
  - vm_compute. reflexivity.
Defined.

End TagFacts.

(** ** More on the contract *)

Module ContractFacts.

Import Contract.

Lemma entry_set_entry (h h' : Z) (c : ContentEntry) (st : State) :
  entry (set_entry h c st) h' = if decide (h = h') then c else entry st h'.
Proof.
  unfold entry, set_entry. cbn.
  destruct (decide (h = h')) as [->|Hne].
  - now rewrite lookup_insert_eq.
  - now rewrite lookup_insert_ne.
Qed.

Lemma license_set_license (u u' h h' : Z) (l : License) (st : State) :
  license (set_license u h l st) u' h'
  = if decide ((u, h) = (u', h')) then l else license st u' h'.
Proof.
  unfold license, set_license. cbn.
  destruct (decide ((u, h) = (u', h'))) as [E|Hne].
  - injection E as <- <-. now rewrite lookup_insert_eq.
  - now rewrite lookup_insert_ne.
Qed.

Lemma spent_set_spent (a a' v : Z) (st : State) :
  spent_of (set_spent a v st) a' = if decide (a = a') then v else spent_of st a'.
Proof.
  unfold spent_of, set_spent. cbn.
  destruct (decide (a = a')) as [->|Hne].
  - now rewrite lookup_insert_eq.
  - now rewrite lookup_insert_ne.
Qed.

Lemma limit_set_limit (a a' v : Z) (st : State) :
  limit_of (set_limit a v st) a' = if decide (a = a') then v else limit_of st a'.
Proof.
  unfold limit_of, set_limit. cbn.
  destruct (decide (a = a')) as [->|Hne].
  - now rewrite lookup_insert_eq.
  - now rewrite lookup_insert_ne.
Qed.

Lemma same_terms_refl (st : State) : same_terms st st.
Proof. intros h. auto. Qed.

Lemma same_terms_trans (s1 s2 s3 : State) :
  same_terms s1 s2 -> same_terms s2 s3 -> same_terms s1 s3.
Proof.
  intros H1 H2 h. destruct (H1 h) as (A & B & C & D).
  destruct (H2 h) as (A' & B' & C' & D'). repeat split; congruence.
Qed.

Lemma same_terms_entries (st st' : State) :
  (forall h, entry st' h = entry st h) -> same_terms st st'.
Proof. intros H h. rewrite H. auto. Qed.

Lemma same_terms_priced (st st' : State) :
  same_terms st st' -> priced st -> priced st'.
Proof.
  intros Hs Hp h. destruct (Hs h) as (A & B & _). rewrite A, B. apply Hp.
Qed.

(** What issuing a license changes. *)
Lemma issue_spec (ts sender h : Z) (st st' : State) :
  issue ts sender h st = Commit st' ->
  same_terms st st'
  /\ (forall a, spent_of st' a = spent_of st a)
  /\ (forall a, limit_of st' a = limit_of st a)
  /\ license st' sender h
     = {| expiry := ts + days30; pricePaid := price (entry st h);
          lic_active := true |}
  /\ (forall u h', (u, h') <> (sender, h) ->
        license st' u h' = license st u h')
  /\ totalRevenue (entry st' h) = totalRevenue (entry st h) + price (entry st h)
  /\ accessCount (entry st' h) = accessCount (entry st h) + 1
  /\ (forall h', h' <> h -> entry st' h' = entry st h').
Proof.
  unfold issue, checked_add, obind.
  destruct (_ <=? _); [|discriminate].
  destruct (_ <=? _); [|discriminate].
  destruct (_ <=? _); [|discriminate].
  intros [= <-].
  split; [|split; [|split; [|split; [|split; [|split; [|split]]]]]].
  - intros h'. rewrite entry_set_entry.
    destruct (decide (h = h')) as [<-|Hne]; cbn; auto.
  - reflexivity.
  - reflexivity.
  - change (license (set_entry ?a ?b ?s)) with (license s).
    rewrite license_set_license. now rewrite decide_True.
  - intros u h' Hne.
    change (license (set_entry ?a ?b ?s)) with (license s).
    rewrite license_set_license. rewrite decide_False; [reflexivity|].
    congruence.
  - rewrite entry_set_entry, decide_True by reflexivity. reflexivity.
  - rewrite entry_set_entry, decide_True by reflexivity. reflexivity.
  - intros h' Hne. rewrite entry_set_entry, decide_False by congruence.
    reflexivity.
Qed.

(** What the spending-limit check changes. *)
Lemma charge_spec (sender amount_ : Z) (st st' : State) :
  charge_limit sender amount_ st = Commit st' ->
  (forall h, entry st' h = entry st h)
  /\ (forall u h, license st' u h = license st u h)
  /\ (forall a, limit_of st' a = limit_of st a)
  /\ (forall a, a <> sender -> spent_of st' a = spent_of st a)
  /\ (if 0 <? limit_of st sender
      then spent_of st' sender = spent_of st sender + amount_
           /\ spent_of st' sender <= limit_of st sender
      else spent_of st' sender = spent_of st sender).
Proof.
  unfold charge_limit, checked_add, obind.
  destruct (0 <? limit_of st sender).
  - destruct (_ <=? uint256_max); [|discriminate].
    destruct (Z.leb_spec (spent_of st sender + amount_) (limit_of st sender));
      [|discriminate].
    intros [= <-]. repeat split; auto.
    + intros a Hne. rewrite spent_set_spent, decide_False by congruence.
      reflexivity.
    + rewrite spent_set_spent, decide_True by reflexivity. reflexivity.
    + rewrite spent_set_spent, decide_True by reflexivity. assumption.
  - intros [= <-]. repeat split; auto.
Qed.

Lemma reset_spec (ts : Z) (st : State) :
  (forall h, entry (_resetDailySpendingIfNeeded ts st) h = entry st h)
  /\ (forall u h, license (_resetDailySpendingIfNeeded ts st) u h
                  = license st u h)
  /\ (forall a, spent_of (_resetDailySpendingIfNeeded ts st) a = spent_of st a)
  /\ (forall a, limit_of (_resetDailySpendingIfNeeded ts st) a = limit_of st a).
Proof.
  unfold _resetDailySpendingIfNeeded.
  destruct (_ <? _); repeat split; auto.
Qed.

(** What a committed [purchaseLicense] has checked and changed. *)
Lemma purchase_spec (twm : Z -> Z -> Z -> bool) (ts sender h m : Z)
    (st st' : State) :
  purchaseLicense twm ts sender h m st = Commit st' ->
  contentOwner (entry st h) <> 0
  /\ active (entry st h) = true
  /\ twm (contentOwner (entry st h)) (price (entry st h)) m = true
  /\ same_terms st st'
  /\ (forall a, limit_of st' a = limit_of st a)
  /\ (forall a, a <> sender -> spent_of st' a = spent_of st a)
  /\ (if 0 <? limit_of st sender
      then spent_of st' sender = spent_of st sender + price (entry st h)
           /\ spent_of st' sender <= limit_of st sender
      else spent_of st' sender = spent_of st sender)
  /\ license st' sender h
     = {| expiry := ts + days30; pricePaid := price (entry st h);
          lic_active := true |}
  /\ (forall u h', (u, h') <> (sender, h) ->
        license st' u h' = license st u h')
  /\ totalRevenue (entry st' h) = totalRevenue (entry st h) + price (entry st h)
  /\ accessCount (entry st' h) = accessCount (entry st h) + 1
  /\ (forall h', h' <> h -> entry st' h' = entry st h').
Proof.
  unfold purchaseLicense.
  destruct (Z.eqb_spec (contentOwner (entry st h)) 0) as [|Hown];
    [discriminate|].
  destruct (active (entry st h)) eqn:Hact; [|discriminate]. cbn zeta.
  destruct (reset_spec ts st) as (Re & Rl & Rs & Rm).
  set (st0 := _resetDailySpendingIfNeeded ts st) in *.
  unfold obind. destruct (charge_limit _ _ st0) as [st1|] eqn:Hc;
    [|discriminate].
  cbn [negb]. rewrite !Re. rewrite Re in Hc.
  destruct (twm _ _ m) eqn:Ht; [|discriminate]. cbn [negb].
  intros Hi. apply charge_spec in Hc as (Ce & Cl & Cm & Cs & Cb).
  apply issue_spec in Hi as (Is & Ia & Im & Il & If & Ir & Ic & Ie).
  rewrite Rm, Rs in Cb.
  assert (E1 : forall x, entry st1 x = entry st x)
    by (intros x; now rewrite Ce, Re).
  rewrite !E1 in *.
  split; [assumption|]. split; [reflexivity|]. split; [reflexivity|].
  split.
  { apply (same_terms_trans _ st1); [|assumption].
    now apply same_terms_entries. }
  split; [intros a; now rewrite Im, Cm, Rm|].
  split; [intros a Ha; now rewrite Ia, Cs, Rs|].
  split; [rewrite Ia; assumption|].
  split; [assumption|].
  split; [intros u h' Hne; now rewrite If, Cl, Rl|].
  split; [assumption|]. split; [assumption|].
  intros h' Hne. now rewrite Ie, E1.
Qed.

Lemma fold_revert (ts sender : Z) (hs : list Z) (r : string) :
  fold_left (batch_turn ts sender) hs (Revert r) = Revert r.
Proof. induction hs; cbn; auto. Qed.

(** What the first loop of [purchaseBatchLicense] has checked and changed
    when it gets through. *)
Lemma batch_fold_spec (ts sender : Z) (hs : list Z) :
  forall (st : State) (tot : Z) (st1 : State) (tot1 : Z),
  fold_left (batch_turn ts sender) hs (Commit (st, tot)) = Commit (st1, tot1) ->
  same_terms st st1
  /\ (forall a, spent_of st1 a = spent_of st a)
  /\ (forall a, limit_of st1 a = limit_of st a)
  /\ (forall h, In h hs ->
        contentOwner (entry st h) <> 0 /\ active (entry st h) = true)
  /\ (forall h, In h hs ->
        license st1 sender h
        = {| expiry := ts + days30; pricePaid := price (entry st h);
             lic_active := true |})
  /\ (forall u h, (u = sender -> ~ In h hs) ->
        license st1 u h = license st u h)
  /\ tot1 = tot + batch_total st hs.
Proof.
  induction hs as [|h rest IH]; intros st tot st1 tot1.
  - cbn. intros [= <- <-]. repeat split; auto; try (intros ? []).
    unfold batch_total. cbn. lia.
  - cbn [fold_left]. unfold batch_turn at 2. cbn [obind].
    destruct (Z.eqb_spec (contentOwner (entry st h)) 0) as [|Hown];
      [cbn [obind negb]; rewrite fold_revert; discriminate|].
    destruct (active (entry st h)) eqn:Hact;
      [|cbn [obind negb]; rewrite fold_revert; discriminate].
    cbn [negb]. unfold checked_add at 1.
    destruct (_ <=? _); [|cbn [obind negb]; rewrite fold_revert; discriminate].
    cbn [obind]. destruct (issue ts sender h st) as [st'|] eqn:Hi;
      [|cbn [obind negb]; rewrite fold_revert; discriminate].
    cbn [obind]. intros Hf.
    apply IH in Hf as (Fs & Fa & Fm & Fo & Fl & Ff & Ft).
    apply issue_spec in Hi as (Is & Ia & Im & Il & If & Ir & Ic & Ie).
    split; [apply (same_terms_trans _ st'); assumption|].
    split; [intros a; now rewrite Fa, Ia|].
    split; [intros a; now rewrite Fm, Im|].
    split.
    { intros x [<-|Hx]; [auto|].
      destruct (Fo x Hx) as [A B]. destruct (Is x) as (_ & C & _ & D).
      split; congruence. }
    split.
    { intros x Hx.
      destruct (in_dec Z.eq_dec x rest) as [Hin|Hnin].
      - rewrite (Fl x Hin). destruct (Is x) as (C & _). now rewrite C.
      - destruct Hx as [<-|Hx]; [|contradiction].
        rewrite Ff by (intros _; assumption). assumption. }
    split.
    { intros u x Hux. rewrite Ff, If; [reflexivity| |].
      - intros [= -> ->]. apply Hux; [reflexivity|now left].
      - intros Hu Hx. apply Hux; [assumption|now right]. }
    rewrite Ft. unfold batch_total. cbn [fold_right].
    fold (batch_total st rest). fold (batch_total st' rest).
    assert (E : batch_total st' rest = batch_total st rest).
    { unfold batch_total. clear -Is. induction rest as [|y ys IHy]; cbn; auto.
      destruct (Is y) as (C & _). now rewrite C, IHy. }
    rewrite E. lia.
Qed.

(** What a committed [purchaseBatchLicense] has checked and changed. *)
Lemma batch_spec (tf t : Z -> Z -> bool) (ts sender : Z)
    (hs memos : list bytes32)
    (st st' : State) :
  purchaseBatchLicense tf t ts sender hs memos st = Commit st' ->
  length hs = length memos
  /\ (1 <= length hs <= 50)%nat
  /\ same_terms st st'
  /\ (forall a, limit_of st' a = limit_of st a)
  /\ (forall a, a <> sender -> spent_of st' a = spent_of st a)
  /\ (if 0 <? limit_of st sender
      then spent_of st' sender = spent_of st sender + batch_total st hs
           /\ spent_of st' sender <= limit_of st sender
      else spent_of st' sender = spent_of st sender)
  /\ (forall h, In h hs ->
        contentOwner (entry st h) <> 0 /\ active (entry st h) = true)
  /\ (forall h, In h hs ->
        license st' sender h
        = {| expiry := ts + days30; pricePaid := price (entry st h);
             lic_active := true |})
  /\ (forall u h, (u = sender -> ~ In h hs) ->
        license st' u h = license st u h)
  /\ tf sender (batch_total st hs) = true.
Proof.
  unfold purchaseBatchLicense.
  destruct (Nat.eqb_spec (length hs) (length memos)) as [Hlen|];
    cbn [negb]; [|discriminate].
  destruct (Nat.ltb_spec 0 (length hs)) as [Hpos|];
    cbn [negb]; [|discriminate].
  destruct (Nat.leb_spec (length hs) 50) as [Hmax|];
    cbn [negb]; [|discriminate].
  cbn zeta.
  destruct (reset_spec ts st) as (Re & Rl & Rs & Rm).
  set (st0 := _resetDailySpendingIfNeeded ts st) in *.
  destruct (fold_left _ hs _) as [[st1 total]|] eqn:Hf; [|discriminate].
  cbn [obind].
  destruct (charge_limit sender total st1) as [st2|] eqn:Hc; [|discriminate].
  cbn [obind].
  destruct (tf sender total) eqn:Htf; [|discriminate]. cbn [negb].
  destruct (forallb _ hs); [|discriminate]. intros [= <-].
  apply batch_fold_spec in Hf as (Fs & Fa & Fm & Fo & Fl & Ff & Ft).
  apply charge_spec in Hc as (Ce & Cl & Cm & Cs & Cb).
  assert (Eb : batch_total st0 hs = batch_total st hs).
  { unfold batch_total. clear -Re. induction hs as [|y ys IHy]; cbn; auto.
    now rewrite Re, IHy. }
  rewrite Z.add_0_l, Eb in Ft. subst total.
  rewrite Fm, Fa, Rm, Rs in Cb.
  split; [assumption|]. split; [lia|].
  split.
  { intros h. rewrite Ce. destruct (Fs h) as (A & B & C & D).
    rewrite A, B, C, D, Re. auto. }
  split; [intros a; now rewrite Cm, Fm, Rm|].
  split; [intros a Ha; now rewrite Cs, Fa, Rs|].
  split; [assumption|].
  split; [intros h Hh; rewrite <- Re; auto|].
  split; [intros h Hh; rewrite Cl, (Fl h Hh), Re; reflexivity|].
  split; [intros u h Hh; now rewrite Cl, Ff, Rl|].
  assumption.
Qed.


Lemma register_spec (sender h p : Z) (uri : string) (st st' : State) :
  registerContent sender h p uri st = Commit st' ->
  contentOwner (entry st h) = 0 /\ 0 < p
  /\ entry st' h
     = {| price := p; contentOwner := sender; contentURI := uri;
          active := true; totalRevenue := 0; accessCount := 0 |}
  /\ (forall h', h' <> h -> entry st' h' = entry st h')
  /\ (forall u x, license st' u x = license st u x)
  /\ (forall a, spent_of st' a = spent_of st a)
  /\ (forall a, limit_of st' a = limit_of st a).
Proof.
  unfold registerContent.
  destruct (Z.eqb_spec (contentOwner (entry st h)) 0) as [Hown|];
    cbn [negb]; [|discriminate].
  destruct (Z.ltb_spec 0 p) as [Hp|]; cbn [negb]; [|discriminate].
  intros [= <-].
  change (entry (push_creator ?a ?b ?s)) with (entry s).
  repeat split; auto.
  - rewrite entry_set_entry, decide_True by reflexivity. reflexivity.
  - intros h' Hne. rewrite entry_set_entry, decide_False by congruence.
    reflexivity.
Qed.

Lemma update_spec (sender h p : Z) (st st' : State) :
  updatePrice sender h p st = Commit st' ->
  contentOwner (entry st h) = sender /\ 0 < p
  /\ price (entry st' h) = p
  /\ (forall h', contentOwner (entry st' h') = contentOwner (entry st h'))
  /\ (forall h', h' <> h -> entry st' h' = entry st h')
  /\ (forall u x, license st' u x = license st u x)
  /\ (forall a, spent_of st' a = spent_of st a)
  /\ (forall a, limit_of st' a = limit_of st a).
Proof.
  unfold updatePrice.
  destruct (Z.eqb_spec (contentOwner (entry st h)) sender) as [Hown|];
    cbn [negb]; [|discriminate].
  destruct (Z.ltb_spec 0 p) as [Hp|]; cbn [negb]; [|discriminate].
  intros [= <-]. repeat split; auto.
  - rewrite entry_set_entry, decide_True by reflexivity. reflexivity.
  - intros h'. rewrite entry_set_entry.
    destruct (decide (h = h')) as [<-|]; reflexivity.
  - intros h' Hne. rewrite entry_set_entry, decide_False by congruence.
    reflexivity.
Qed.

Lemma toggle_spec (sender h : Z) (st st' : State) :
  toggleContentStatus sender h st = Commit st' ->
  contentOwner (entry st h) = sender
  /\ active (entry st' h) = negb (active (entry st h))
  /\ (forall h', price (entry st' h') = price (entry st h')
                 /\ contentOwner (entry st' h') = contentOwner (entry st h')
                 /\ contentURI (entry st' h') = contentURI (entry st h')
                 /\ totalRevenue (entry st' h') = totalRevenue (entry st h')
                 /\ accessCount (entry st' h') = accessCount (entry st h'))
  /\ (forall h', h' <> h -> entry st' h' = entry st h')
  /\ (forall u x, license st' u x = license st u x)
  /\ (forall a, spent_of st' a = spent_of st a)
  /\ (forall a, limit_of st' a = limit_of st a).
Proof.
  unfold toggleContentStatus.
  destruct (Z.eqb_spec (contentOwner (entry st h)) sender) as [Hown|];
    cbn [negb]; [|discriminate].
  intros [= <-]. repeat split; auto;
    try (rewrite entry_set_entry;
         destruct (decide (h = h')) as [<-|]; reflexivity).
  - rewrite entry_set_entry, decide_True by reflexivity. reflexivity.
  - intros h' Hne. rewrite entry_set_entry, decide_False by congruence.
    reflexivity.
Qed.

Lemma setlimit_spec (owner_ sender agent_ l : Z) (st st' : State) :
  setAgentSpendingLimit owner_ sender agent_ l st = Commit st' ->
  sender = owner_
  /\ (forall h, entry st' h = entry st h)
  /\ (forall u x, license st' u x = license st u x)
  /\ (forall a, spent_of st' a = spent_of st a)
  /\ limit_of st' agent_ = l
  /\ (forall a, a <> agent_ -> limit_of st' a = limit_of st a).
Proof.
  unfold setAgentSpendingLimit.
  destruct (Z.eqb_spec sender owner_) as [Hown|];
    cbn [negb]; [|discriminate].
  intros [= <-]. repeat split; auto.
  - rewrite limit_set_limit, decide_True by reflexivity. reflexivity.
  - intros a Hne. rewrite limit_set_limit, decide_False by congruence.
    reflexivity.
Qed.

(** *** One transaction *)

Lemma after_owner (owner_ : Z) (st : State) (call : Z * Z * Tx) (h : Z) :
  contentOwner (entry st h) <> 0 ->
  contentOwner (entry (after owner_ st call) h) = contentOwner (entry st h).
Proof.
  intros Hreg. unfold after.
  destruct call as [[ts sender] tx]. cbn [fst snd].
  destruct (exec owner_ ts sender tx st) as [st'|] eqn:He; [|reflexivity].
  destruct tx; cbn [exec] in He.
  - apply register_spec in He as (Hz & _ & _ & Hf & _).
    rewrite Hf; [reflexivity|]. intros ->. contradiction.
  - apply update_spec in He as (_ & _ & _ & Ho & _). apply Ho.
  - apply toggle_spec in He as (_ & _ & Ho & _). apply Ho.
  - apply setlimit_spec in He as (_ & He & _). now rewrite He.
  - apply purchase_spec in He as (_ & _ & _ & Hs & _). apply Hs.
  - apply batch_spec in He as (_ & _ & Hs & _). apply Hs.
Qed.

Lemma after_priced (owner_ : Z) (st : State) (call : Z * Z * Tx) :
  priced st -> priced (after owner_ st call).
Proof.
  intros Hp. unfold after.
  destruct call as [[ts sender] tx]. cbn [fst snd].
  destruct (exec owner_ ts sender tx st) as [st'|] eqn:He; [|assumption].
  destruct tx; cbn [exec] in He.
  - apply register_spec in He as (Hz & Hpos & Hn & Hf & _).
    intros x. destruct (decide (x = h)) as [->|Hne].
    + rewrite Hn. cbn. auto.
    + rewrite Hf by assumption. apply Hp.
  - apply update_spec in He as (_ & Hpos & Hn & Ho & Hf & _).
    intros x. destruct (decide (x = h)) as [->|Hne].
    + rewrite Hn. auto.
    + rewrite Hf by assumption. apply Hp.
  - apply toggle_spec in He as (_ & _ & Ho & _).
    intros x. destruct (Ho x) as (A & B & _). rewrite A, B. apply Hp.
  - apply setlimit_spec in He as (_ & He & _).
    intros x. rewrite He. apply Hp.
  - apply purchase_spec in He as (_ & _ & _ & Hs & _).
    now apply (same_terms_priced st).
  - apply batch_spec in He as (_ & _ & Hs & _).
    now apply (same_terms_priced st).
Qed.

Lemma batch_total_nonneg (st : State) (hs : list Z) :
  priced st ->
  (forall h, In h hs -> contentOwner (entry st h) <> 0) ->
  0 <= batch_total st hs.
Proof.
  intros Hp. unfold batch_total.
  induction hs as [|h rest IH]; cbn [fold_right]; intros Hreg; [lia|].
  assert (0 < price (entry st h)) by (apply Hp, Hreg; now left).
  assert (0 <= fold_right (fun h acc => price (entry st h) + acc) 0 rest)
    by (apply IH; intros x Hx; apply Hreg; now right).
  lia.
Qed.

Lemma after_spent (owner_ : Z) (st : State) (call : Z * Z * Tx) (a : Z) :
  priced st -> spent_of st a <= spent_of (after owner_ st call) a.
Proof.
  intros Hp. unfold after.
  destruct call as [[ts sender] tx]. cbn [fst snd].
  destruct (exec owner_ ts sender tx st) as [st'|] eqn:He; [|lia].
  destruct tx; cbn [exec] in He.
  - apply register_spec in He as (_ & _ & _ & _ & _ & Hs & _).
    rewrite Hs. lia.
  - apply update_spec in He as (_ & _ & _ & _ & _ & _ & Hs & _).
    rewrite Hs. lia.
  - apply toggle_spec in He as (_ & _ & _ & _ & _ & Hs & _).
    rewrite Hs. lia.
  - apply setlimit_spec in He as (_ & _ & _ & Hs & _). rewrite Hs. lia.
  - apply purchase_spec in He as (Hreg & _ & _ & _ & _ & Ho & Hb & _).
    destruct (decide (a = sender)) as [->|Hne]; [|rewrite Ho by assumption; lia].
    specialize (Hp h Hreg).
    destruct (0 <? limit_of st sender); lia.
  - apply batch_spec in He as (_ & _ & _ & _ & Ho & Hb & Hreg & _).
    destruct (decide (a = sender)) as [->|Hne]; [|rewrite Ho by assumption; lia].
    assert (0 <= batch_total st hs)
      by (apply batch_total_nonneg; [assumption|]; intros x Hx; now apply Hreg).
    destruct (0 <? limit_of st sender); lia.
Qed.

Lemma after_limit (owner_ : Z) (st : State) (ts sender : Z) (tx : Tx) (a : Z) :
  sender <> owner_ ->
  limit_of (after owner_ st (ts, sender, tx)) a = limit_of st a.
Proof.
  intros Hne. unfold after. cbn [fst snd].
  destruct (exec owner_ ts sender tx st) as [st'|] eqn:He; [|reflexivity].
  destruct tx; cbn [exec] in He.
  - apply register_spec in He as (_ & _ & _ & _ & _ & _ & Hl). apply Hl.
  - apply update_spec in He as (_ & _ & _ & _ & _ & _ & _ & Hl). apply Hl.
  - apply toggle_spec in He as (_ & _ & _ & _ & _ & _ & Hl). apply Hl.
  - apply setlimit_spec in He as (Hs & _). contradiction.
  - apply purchase_spec in He as (_ & _ & _ & _ & Hl & _). apply Hl.
  - apply batch_spec in He as (_ & _ & _ & Hl & _). apply Hl.
Qed.

(** *** Transactions in a row *)

Lemma chain_priced (owner_ : Z) (calls : list (Z * Z * Tx)) :
  forall st, priced st -> priced (chain owner_ calls st).
Proof.
  unfold chain. induction calls as [|c cs IH]; intros st Hp; [assumption|].
  cbn [fold_left]. apply IH. now apply after_priced.
Qed.

Lemma deployed_priced (ts : Z) : priced (deployed ts).
Proof. intros h Hreg. exfalso. apply Hreg. reflexivity. Qed.

Lemma chain_spent (owner_ : Z) (calls : list (Z * Z * Tx)) (a : Z) :
  forall st, priced st -> spent_of st a <= spent_of (chain owner_ calls st) a.
Proof.
  unfold chain. induction calls as [|c cs IH]; intros st Hp; [cbn; lia|].
  cbn [fold_left].
  pose proof (after_spent owner_ st c a Hp).
  pose proof (IH _ (after_priced owner_ st c Hp)). lia.
Qed.

(** X23. In every state the contract can reach from its deployment, by
    whatever transactions of whatever senders (reverted ones included),
    each registered entry has a price above zero. *)
Theorem registered_prices_stay_positive (owner_ ts : Z)
    (calls : list (Z * Z * Tx)) (h : Z) :
  contentOwner (entry (chain owner_ calls (deployed ts)) h) <> 0 ->
  0 < price (entry (chain owner_ calls (deployed ts)) h).
Proof. apply chain_priced, deployed_priced. Qed.

Lemma registered_prices_stay_positive_witness :
  0 < price (entry Scenario.contract_listed 1).
Proof.
  apply (registered_prices_stay_positive 9 1000
           [(1000, 5, TxRegister 1 50000 "https://example.org/a");
            (1000, 5, TxRegister 2 70000 "https://example.org/b");
            (1000, 9, TxSetLimit 7 120000)] 1).
  vm_compute. discriminate.
Defined.

(** X24. Once a fingerprint is registered its owner never changes: no
    transaction, by anyone, moves [contentOwner] of a registered entry. *)
Theorem content_owner_is_permanent (owner_ : Z) (calls : list (Z * Z * Tx))
    (st : State) (h : Z) :
  contentOwner (entry st h) <> 0 ->
  contentOwner (entry (chain owner_ calls st) h) = contentOwner (entry st h).
Proof.
  unfold chain. revert st.
  induction calls as [|c cs IH]; intros st Hreg; [reflexivity|].
  cbn [fold_left].
  pose proof (after_owner owner_ st c h Hreg) as Ha.
  rewrite IH by congruence. assumption.
Qed.

Lemma content_owner_is_permanent_witness :
  contentOwner
    (entry (chain 9 [(2000, 6, TxRegister 1 1 "https://example.org/mine");
                     (2000, 6, TxUpdatePrice 1 1);
                     (2000, 5, TxUpdatePrice 1 60000);
                     (2000, 5, TxToggle 1)]
              Scenario.contract_listed) 1)
  = 5.
Proof.
  rewrite content_owner_is_permanent.
  - vm_compute. reflexivity.
  - vm_compute. discriminate.
Defined.

(** X25. A committed [purchaseLicense] gives the sender a license that
    [hasValidLicense] accepts at every time before the block's timestamp
    plus 30 days and at no later time; the price paid is the listed price,
    the entry's revenue grows by it and its access count by one. *)
Theorem purchase_grants_thirty_days (twm : Z -> Z -> Z -> bool)
    (ts sender h m : Z) (st st' : State) :
  purchaseLicense twm ts sender h m st = Commit st' ->
  (forall now, hasValidLicense now sender h st' = (now <? ts + days30))
  /\ pricePaid (license st' sender h) = price (entry st h)
  /\ getContentStats h st'
     = (price (entry st h), totalRevenue (entry st h) + price (entry st h),
        accessCount (entry st h) + 1, true).
Proof.
  intros Hc.
  apply purchase_spec in Hc
    as (_ & Hact & _ & Hs & _ & _ & _ & Hl & _ & Hr & Ha & _).
  split; [|split].
  - intros now. unfold hasValidLicense. rewrite Hl. reflexivity.
  - rewrite Hl. reflexivity.
  - unfold getContentStats. destruct (Hs h) as (A & _ & _ & D).
    now rewrite A, D, Hr, Ha, Hact.
Qed.

Lemma purchase_grants_thirty_days_witness :
  hasValidLicense (1000 + days30 - 1) 7 1
    (after 9 Scenario.contract_listed
       (1000, 7, TxPurchase 1 0 Scenario.token_pays)) = true
  /\ hasValidLicense (1000 + days30) 7 1
       (after 9 Scenario.contract_listed
          (1000, 7, TxPurchase 1 0 Scenario.token_pays)) = false.
Proof.
  destruct (purchase_grants_thirty_days Scenario.token_pays 1000 7 1 0
              Scenario.contract_listed
              (after 9 Scenario.contract_listed
                 (1000, 7, TxPurchase 1 0 Scenario.token_pays)))
    as (Hv & _).
  - vm_compute. reflexivity.
  - rewrite !Hv. split; vm_compute; reflexivity.
Defined.

(** X26. The contract never lowers [agentSpentToday]: along any run of
    transactions from the deployment, whatever their timestamps, the
    amount counted against an agent only grows or stays. The day counter
    moves, the spent amounts are not reset. *)
Theorem spent_is_never_reset (owner_ ts : Z)
    (before later : list (Z * Z * Tx)) (a : Z) :
  spent_of (chain owner_ before (deployed ts)) a
  <= spent_of (chain owner_ (before ++ later) (deployed ts)) a.
Proof.
  unfold chain at 2. rewrite fold_left_app.
  apply (chain_spent owner_ later a).
  apply chain_priced, deployed_priced.
Qed.

(** X27. With a limit above zero, a purchase whose price would take the
    spent amount past the limit reverts whatever the block's timestamp:
    waiting a day does not free the allowance. *)
Theorem over_limit_reverts_on_any_day (twm : Z -> Z -> Z -> bool)
    (ts sender h m : Z) (st : State) :
  0 < limit_of st sender ->
  limit_of st sender < spent_of st sender + price (entry st h) ->
  exists reason, purchaseLicense twm ts sender h m st = Revert reason.
Proof.
  intros Hpos Hover.
  destruct (purchaseLicense twm ts sender h m st) as [st'|r] eqn:Hc;
    [|now exists r].
  apply purchase_spec in Hc as (_ & _ & _ & _ & _ & _ & Hb & _).
  destruct (Z.ltb_spec 0 (limit_of st sender)); lia.
Qed.

Lemma over_limit_reverts_on_any_day_witness :
  exists reason,
    purchaseLicense Scenario.token_pays (1000 + 400 * day1) 7 2 0
      Scenario.contract_spent = Revert reason.
Proof.
  apply over_limit_reverts_on_any_day.
  - vm_compute. reflexivity.
  - vm_compute. reflexivity.
Defined.

(** X28. A committed [purchaseBatchLicense] was given as many memos as
    fingerprints, between 1 and 50 of them, all registered and active,
    and leaves the sender with a license for every one of them, valid
    until the block's timestamp plus 30 days. *)
Theorem batch_licenses_every_item (tf t : Z -> Z -> bool) (ts sender : Z)
    (hs memos : list bytes32) (st st' : State) :
  purchaseBatchLicense tf t ts sender hs memos st = Commit st' ->
  length memos = length hs
  /\ (1 <= length hs <= 50)%nat
  /\ forall h, In h hs ->
       contentOwner (entry st h) <> 0
       /\ active (entry st h) = true
       /\ pricePaid (license st' sender h) = price (entry st h)
       /\ forall now, hasValidLicense now sender h st' = (now <? ts + days30).
Proof.
  intros Hc.
  apply batch_spec in Hc as (Hlen & Hn & _ & _ & _ & _ & Hreg & Hl & _).
  split; [congruence|]. split; [assumption|].
  intros h Hh. destruct (Hreg h Hh) as [A B].
  split; [assumption|]. split; [assumption|].
  split; [now rewrite (Hl h Hh)|].
  intros now. unfold hasValidLicense. rewrite (Hl h Hh). reflexivity.
Qed.

Lemma batch_licenses_every_item_witness :
  hasValidLicense (1000 + days30 - 1) 7 2
    (after 9 Scenario.contract_listed
       (1000, 7, TxPurchaseBatch [1; 2] [0; 0]
                   Scenario.token_moves Scenario.token_moves)) = true.
Proof.
  destruct (batch_licenses_every_item Scenario.token_moves
              Scenario.token_moves 1000 7 [1; 2] [0; 0]
              Scenario.contract_listed
              (after 9 Scenario.contract_listed
                 (1000, 7, TxPurchaseBatch [1; 2] [0; 0]
                             Scenario.token_moves Scenario.token_moves)))
    as (_ & _ & Hi).
  - vm_compute. reflexivity.
  - destruct (Hi 2) as (_ & _ & _ & Hv); [right; left; reflexivity|].
    rewrite Hv. vm_compute. reflexivity.
Defined.

(** X29. When its owner switches an active entry off, every purchase of
    it reverts, the licenses already issued stay as valid as they were,
    and a second switch by the owner brings every entry back. *)
Theorem switched_off_content_is_not_sold (sender h : Z) (st st' : State) :
  toggleContentStatus sender h st = Commit st' ->
  active (entry st h) = true ->
  (forall twm ts buyer m,
     purchaseLicense twm ts buyer h m st'
     = Revert (if sender =? 0 then "Content not registered"
               else "Content not active"))
  /\ (forall now u x, hasValidLicense now u x st' = hasValidLicense now u x st)
  /\ exists st'', toggleContentStatus sender h st' = Commit st''
                  /\ forall x, entry st'' x = entry st x.
Proof.
  intros Hc Hact.
  apply toggle_spec in Hc as (Hown & Hoff & Hk & Hf & Hl & _).
  rewrite Hact in Hoff. cbn in Hoff. subst sender.
  destruct (Hk h) as (A & B & C & D & E).
  split; [|split].
  - intros twm ts buyer m. unfold purchaseLicense.
    rewrite B, Hoff.
    destruct (contentOwner (entry st h) =? 0); reflexivity.
  - intros now u x. unfold hasValidLicense. now rewrite Hl.
  - unfold toggleContentStatus.
    rewrite B, Z.eqb_refl. cbn [negb].
    eexists. split; [reflexivity|].
    intros x. rewrite entry_set_entry.
    destruct (decide (h = x)) as [<-|Hne]; [|apply Hf; congruence].
    rewrite A, C, D, E, Hoff. cbn [negb]. rewrite <- Hact.
    destruct (entry st h); reflexivity.
Qed.

Lemma switched_off_content_is_not_sold_witness :
  purchaseLicense Scenario.token_pays 1000 7 1 0
    (after 9 Scenario.contract_listed (1000, 5, TxToggle 1))
  = Revert "Content not active".
Proof.
  destruct (switched_off_content_is_not_sold 5 1 Scenario.contract_listed
              (after 9 Scenario.contract_listed (1000, 5, TxToggle 1)))
    as (Hp & _).
  - vm_compute. reflexivity.
  - vm_compute. reflexivity.
  - rewrite Hp. reflexivity.
Defined.

(** X30. Only the contract's owner moves spending limits: a transaction
    of any other sender, of any kind, leaves every agent's limit as it
    was. *)
Theorem only_owner_moves_limits (owner_ : Z) (st : State) (ts sender : Z)
    (tx : Tx) (a : Z) :
  sender <> owner_ ->
  limit_of (after owner_ st (ts, sender, tx)) a = limit_of st a.
Proof. apply after_limit. Qed.

Lemma only_owner_moves_limits_witness :
  limit_of (after 9 Scenario.contract_listed (1000, 7, TxSetLimit 7 0)) 7
  = 120000.
Proof.
  rewrite only_owner_moves_limits.
  - vm_compute. reflexivity.
  - vm_compute. discriminate.
Defined.

End ContractFacts.
